(** * watermelow: the WebSocket chat relay

    A shallow embedding of the real-time core of [server.js] (the relay with
    persistence, presence and the liveness sweep) and of the second, smaller
    relay of the repository (a bare room relay without persistence), together
    with the properties of the room registry, the fan-out broadcaster, the
    message router and the liveness monitor.

    Layout: JavaScript values as the handlers see them, the transport (the
    [ws] sockets and the server's client set), the effects a handler
    performs, the handlers of [server.js] as one step function over events,
    the handler of the bare relay, and then the theorems. *)

From Stdlib Require Import ZArith NArith Ascii String Floats Sorted Permutation.
From stdpp Require Import gmap strings list fin_maps.

Open Scope string_scope.
Open Scope list_scope.
Local Set Warnings "-register-all".

(** ** JavaScript values *)

Module Js.

(** The values [JSON.parse] produces, plus [undefined], which is what reading
    an absent property or an absent [WeakMap] key yields. Numbers are IEEE
    doubles. Objects and arrays carry the address they were allocated at:
    [===] on them is identity, and two parses never share an address. *)
Inductive val : Type :=
  | VUndef
  | VNull
  | VBool (b : bool)
  | VNum (x : float)
  | VStr (s : string)
  | VArr (addr : nat) (elems : list val)
  | VObj (addr : nat) (props : list (string * val)).

(** [ToBoolean]: what [!v], [v || w] and [if (v)] test. *)
Definition truthy (v : val) : bool :=
  match v with
  | VUndef | VNull => false
  | VBool b => b
  | VNum x => negb (PrimFloat.eqb x 0%float) && negb (PrimFloat.is_nan x)
  | VStr s => negb (String.eqb s "")
  | VArr _ _ | VObj _ _ => true
  end.

(** [a === b]. *)
Definition strict_eq (a b : val) : bool :=
  match a, b with
  | VUndef, VUndef => true
  | VNull, VNull => true
  | VBool x, VBool y => Bool.eqb x y
  | VNum x, VNum y => PrimFloat.eqb x y
  | VStr x, VStr y => String.eqb x y
  | VArr x _, VArr y _ => Nat.eqb x y
  | VObj x _, VObj y _ => Nat.eqb x y
  | _, _ => false
  end.

(** [typeof v === 'string']. *)
Definition is_string (v : val) : bool :=
  match v with VStr _ => true | _ => false end.

(** The own property [k] of a parsed object ([JSON.parse] leaves each key
    once), [undefined] when there is none. *)
Fixpoint assoc (k : string) (props : list (string * val)) : val :=
  match props with
  | [] => VUndef
  | (k', v) :: rest => if String.eqb k k' then v else assoc k rest
  end.

(** [v === null || v === undefined]: reading any property of such a value
    throws a [TypeError]. *)
Definition nullish (v : val) : bool :=
  match v with VUndef | VNull => true | _ => false end.

(** [v.k] on a value that is not nullish, for the property names the handlers
    read ([type], [room], [payload], [typing]); none of them lives on a
    prototype, so on a primitive or an array the read gives [undefined]. *)
Definition prop (v : val) (k : string) : val :=
  match v with
  | VObj _ props => assoc k props
  | _ => VUndef
  end.

(** [a || b]. *)
Definition or_else (a b : val) : val := if truthy a then a else b.

End Js.

Import Js.

(** [JSON.parse(data.toString())]: it throws a [SyntaxError] or returns a
    value. A frame is given by that outcome. *)
Inductive frame : Type :=
  | NotJson
  | Json (obj : val).

(** ** The transport: [ws] sockets *)

Definition conn := nat.

Definition CONNECTING : nat := 0.
Definition OPEN : nat := 1.
Definition CLOSING : nat := 2.
Definition CLOSED : nat := 3.

(** One [ws] object. [readyState] belongs to the transport; [isAlive] is the
    property the connection handler adds; [ipHash] is the constant the
    handlers' closure captured at connection time. [sendThrows] is the
    condition of the transport under which [ws.send] raises instead of
    queueing the frame. *)
Record socket : Type := Socket {
  sid : conn;
  readyState : nat;
  isAlive : bool;
  ipHash : string;
  sendThrows : bool
}.

Definition set_isAlive (b : bool) (k : socket) : socket :=
  Socket (sid k) (readyState k) b (ipHash k) (sendThrows k).

Definition set_transport (rs : nat) (thr : bool) (k : socket) : socket :=
  Socket (sid k) rs (isAlive k) (ipHash k) thr.

(** [ws.terminate()]: the socket is destroyed; it leaves [OPEN] at once and
    its ['close'] event follows later. On a closed socket it does nothing. *)
Definition terminate (k : socket) : socket :=
  if Nat.eqb (readyState k) CLOSED then k
  else Socket (sid k) CLOSING (isAlive k) (ipHash k) (sendThrows k).

(** Apply [f] to the socket [c] of a client set. *)
Definition update (c : conn) (f : socket -> socket) (cs : list socket) : list socket :=
  map (fun k => if Nat.eqb (sid k) c then f k else k) cs.

Definition lookup_socket (c : conn) (cs : list socket) : option socket :=
  find (fun k => Nat.eqb (sid k) c) cs.

(** ** Effects *)

(** The object literal handed to [JSON.stringify] before a send. *)
Inductive out_msg : Type :=
  | Presence (room : val) (ipHash : string)
  | Typing (room : val) (ipHash : string) (typing : bool)
  | Message (room payload : val) (timestamp : Z)
  | Relayed (room payload : val).

(** Calls into the database. *)
Inductive db_op : Type :=
  | UpdateProfile (ipHash : string) (online : bool) (lastSeen : Z) (upsert : bool)
  | InsertMessage (room payload : val) (timestamp : Z).

(** What a handler does to the outside, in program order. [Uncaught] is an
    exception that leaves the handler. *)
Inductive effect : Type :=
  | Send (c : conn) (m : out_msg)
  | Db (op : db_op)
  | LogError
  | Ping (c : conn)
  | Terminate (c : conn)
  | Uncaught.

Inductive completion : Type := Normal | Throw.

(** [WeakMap.get]: [undefined] for an absent key. *)
Definition roomOf (rooms : gmap conn val) (c : conn) : val :=
  default VUndef (rooms !! c).

(** The fan-out loop over the client set, in insertion order:
    [clients.forEach(c => { if (c.readyState !== 1) return;
       const r = clientRoom.get(c); if (r === room) c.send(msg); })].
    Nothing catches a throwing [send]: the exception leaves [forEach]. *)
Fixpoint fan_out (rooms : gmap conn val) (room : val) (msg : out_msg)
    (cs : list socket) : list effect * completion :=
  match cs with
  | [] => ([], Normal)
  | c :: rest =>
      if negb (Nat.eqb (readyState c) OPEN) then fan_out rooms room msg rest
      else if strict_eq (roomOf rooms (sid c)) room then
        if sendThrows c then ([], Throw)
        else
          let '(es, r) := fan_out rooms room msg rest in
          (Send (sid c) msg :: es, r)
      else fan_out rooms room msg rest
  end.

(** ** server.js: registry, router, broadcaster, liveness sweep *)

Module Server.

(** The rest of an [async] handler after its [await] of a database call. *)
Inductive cont : Type :=
  | KJoin (room : val) (ipHash : string)
  | KMessage (room payload : val) (timestamp : Z)
  | KClose (room : val) (ipHash : string).

(** The module's variables: [wss.clients] (a [Set], insertion order), the
    two weak maps, whether [init] has assigned [db] yet, and the handlers
    suspended at an [await]. [fresh] names the next socket. *)
Record state : Type := State {
  clients : list socket;
  clientRoom : gmap conn val;
  clientProfile : gmap conn string;
  db : bool;
  awaiting : list cont;
  fresh : conn
}.

Definition initial : state := State [] ∅ ∅ false [] 0.

Definition set_clients (cs : list socket) (s : state) : state :=
  State cs (clientRoom s) (clientProfile s) (db s) (awaiting s) (fresh s).

Definition set_clientRoom (m : gmap conn val) (s : state) : state :=
  State (clients s) m (clientProfile s) (db s) (awaiting s) (fresh s).

Definition set_awaiting (ks : list cont) (s : state) : state :=
  State (clients s) (clientRoom s) (clientProfile s) (db s) ks (fresh s).

(** [function broadcast(room, msg)]. *)
Definition broadcast (s : state) (room : val) (msg : out_msg)
    : list effect * completion :=
  fan_out (clientRoom s) room msg (clients s).

(** An exception that reaches the end of a handler rejects its promise. *)
Definition finish (s : state) (r : list effect * completion) : state * list effect :=
  match r with
  | (es, Normal) => (s, es)
  | (es, Throw) => (s, es ++ [Uncaught])
  end.

(** What follows the [try { await ... } catch ...] of each handler, [ok]
    telling whether the awaited call succeeded. The [join] and close handlers
    swallow the failure, the [message] branch logs it. *)
Definition resume (s : state) (k : cont) (ok : bool) : state * list effect :=
  match k with
  | KJoin room h => finish s (broadcast s room (Presence room h))
  | KMessage room payload timestamp =>
      let '(es, r) := broadcast s room (Message room payload timestamp) in
      finish s ((if ok then [] else [LogError]) ++ es, r)
  | KClose room h =>
      if truthy room then finish s (broadcast s room (Presence room h))
      else (s, [])
  end.

(** [try { await db.collection(..).op(..) } catch ...]. With [db] assigned
    the call is issued and the handler is suspended until it settles. While
    [db] is still [undefined] the expression throws inside the [try], so the
    [catch] and the rest of the handler run at once. *)
Definition try_await (s : state) (op : db_op) (k : cont) : state * list effect :=
  if db s then (set_awaiting (awaiting s ++ [k]) s, [Db op])
  else resume s k false.

(** [wss.on('connection', (ws, req) => ...)]: the server has added the open
    socket to [wss.clients]; the handler records the profile and the flag. *)
Definition on_connection (s : state) (h : string) : state * list effect :=
  let ws := Socket (fresh s) OPEN true h false in
  (State (clients s ++ [ws]) (clientRoom s)
         (<[fresh s := h]> (clientProfile s)) (db s) (awaiting s) (S (fresh s)),
   []).

(** [ws.on('pong', () => ws.isAlive = true)]. *)
Definition on_pong (s : state) (c : conn) : state * list effect :=
  (set_clients (update c (set_isAlive true) (clients s)) s, []).

(** [const type = obj.type || 'message']. *)
Definition classify (obj : val) : val := or_else (prop obj "type") (VStr "message").

(** [ws.on('message', async (data) => ...)], up to its first [await]. [now]
    is what [new Date()] reads. *)
Definition on_message (s : state) (ws : socket) (now : Z) (data : frame)
    : state * list effect :=
  match data with
  | NotJson => (s, [])
  | Json obj =>
      if nullish obj then (s, [Uncaught])
      else
        let type := classify obj in
        if strict_eq type (VStr "join") then
          let room := prop obj "room" in
          let s1 := set_clientRoom (<[sid ws := room]> (clientRoom s)) s in
          try_await s1 (UpdateProfile (ipHash ws) true now true)
                    (KJoin room (ipHash ws))
        else if strict_eq type (VStr "typing") then
          let room := prop obj "room" in
          finish s (broadcast s room
                      (Typing room (ipHash ws) (truthy (prop obj "typing"))))
        else if strict_eq type (VStr "message") then
          let room := prop obj "room" in
          let payload := prop obj "payload" in
          let timestamp := now in
          try_await s (InsertMessage room payload timestamp)
                    (KMessage room payload timestamp)
        else (s, [])
  end.

(** [ws.on('close', async () => ...)], up to its [await]. *)
Definition on_close (s : state) (c : conn) (now : Z) : state * list effect :=
  let room := roomOf (clientRoom s) c in
  match clientProfile s !! c with
  | Some h =>
      if negb (String.eqb h "") then
        try_await s (UpdateProfile h false now false) (KClose room h)
      else (s, [])
  | None => (s, [])
  end.

(** One socket of the sweep:
    [if (!ws.isAlive) return ws.terminate(); ws.isAlive = false; ws.ping(..)]. *)
Definition sweep_one (ws : socket) : socket * list effect :=
  if negb (isAlive ws) then (terminate ws, [Terminate (sid ws)])
  else (set_isAlive false ws, [Ping (sid ws)]).

(** The [setInterval] callback: [wss.clients.forEach(...)]. *)
Fixpoint sweep_all (cs : list socket) : list socket * list effect :=
  match cs with
  | [] => ([], [])
  | ws :: rest =>
      let '(ws', e1) := sweep_one ws in
      let '(rest', e2) := sweep_all rest in
      (ws' :: rest', e1 ++ e2)
  end.

Definition sweep (s : state) : state * list effect :=
  let '(cs, es) := sweep_all (clients s) in (set_clients cs s, es).

(** What the event loop delivers. *)
Inductive event : Type :=
  | EDbReady
  | EConnection (ipHash : string)
  | EFrame (c : conn) (data : frame) (now : Z)
  | ESettle (i : nat) (ok : bool)
  | EPong (c : conn)
  | ETransport (c : conn) (rs : nat) (thr : bool)
  | EClose (c : conn) (now : Z)
  | ESweep.

(** One task of the event loop. [EDbReady]: [init] assigns [db].
    [ESettle i ok]: the [i]-th awaited database call settles and its handler
    goes on. [ETransport]: the transport changes a socket's state. [EClose]:
    the transport closed the socket; the server drops it from [wss.clients]
    and the close handler runs. Events of a socket that is not a client do
    not occur and change nothing. *)
Definition step (s : state) (e : event) : state * list effect :=
  match e with
  | EDbReady =>
      (State (clients s) (clientRoom s) (clientProfile s) true (awaiting s) (fresh s), [])
  | EConnection h => on_connection s h
  | EFrame c data now =>
      match lookup_socket c (clients s) with
      | Some ws => on_message s ws now data
      | None => (s, [])
      end
  | ESettle i ok =>
      match awaiting s !! i with
      | Some k => resume (set_awaiting (delete i (awaiting s)) s) k ok
      | None => (s, [])
      end
  | EPong c => on_pong s c
  | ETransport c rs thr =>
      (set_clients (update c (set_transport rs thr) (clients s)) s, [])
  | EClose c now =>
      match lookup_socket c (clients s) with
      | Some _ =>
          on_close (set_clients (filter (fun k => sid k ≠ c) (clients s)) s) c now
      | None => (s, [])
      end
  | ESweep => sweep s
  end.

(** A run of the event loop and everything it did. *)
Fixpoint run (s : state) (evs : list event) : state * list effect :=
  match evs with
  | [] => (s, [])
  | e :: rest =>
      let '(s1, e1) := step s e in
      let '(s2, e2) := run s1 rest in
      (s2, e1 ++ e2)
  end.

End Server.

(** ** The bare relay (the second server of the repository) *)

Module Relay.

(** Its module variables: [wss.clients] and its own [clientRoom]. *)
Record state : Type := State {
  clients : list socket;
  clientRoom : gmap conn val
}.

(** The guard
    [if (!obj || typeof obj.room !== 'string' || typeof obj.payload !== 'string') return;]
    [||] stops at the first operand that holds, so no property of a [null]
    is read. *)
Definition rejected (obj : val) : bool :=
  negb (truthy obj)
  || negb (is_string (prop obj "room"))
  || negb (is_string (prop obj "payload")).

(** [ws.on('message', (message) => ...)]: parse, validate, record the room
    of the sender, fan out to the room. *)
Definition on_message (s : state) (ws : conn) (data : frame) : state * list effect :=
  match data with
  | NotJson => (s, [])
  | Json obj =>
      if rejected obj then (s, [])
      else
        let s1 := State (clients s) (<[ws := prop obj "room"]> (clientRoom s)) in
        match fan_out (clientRoom s1) (prop obj "room")
                      (Relayed (prop obj "room") (prop obj "payload")) (clients s1) with
        | (es, Normal) => (s1, es)
        | (es, Throw) => (s1, es ++ [Uncaught])
        end
  end.

End Relay.

(** ** Reading a trace *)

(** The sends of a trace, as (receiver, message). *)
Fixpoint sends (es : list effect) : list (conn * out_msg) :=
  match es with
  | [] => []
  | Send c m :: rest => (c, m) :: sends rest
  | _ :: rest => sends rest
  end.

(** The database calls of a trace. *)
Fixpoint db_calls (es : list effect) : list db_op :=
  match es with
  | [] => []
  | Db op :: rest => op :: db_calls rest
  | _ :: rest => db_calls rest
  end.

(** The sockets [terminate] was called on. *)
Fixpoint terminated (es : list effect) : list conn :=
  match es with
  | [] => []
  | Terminate c :: rest => c :: terminated rest
  | _ :: rest => terminated rest
  end.

(** The sockets [ping] was called on. *)
Fixpoint probed (es : list effect) : list conn :=
  match es with
  | [] => []
  | Ping c :: rest => c :: probed rest
  | _ :: rest => probed rest
  end.

(** A frame the wire format rejects: no JSON, no string [room], or a
    [payload] that is present but not a string. *)
Definition malformed (data : frame) : bool :=
  match data with
  | NotJson => true
  | Json obj =>
      nullish obj
      || negb (is_string (prop obj "room"))
      || negb (is_string (prop obj "payload") || strict_eq (prop obj "payload") VUndef)
  end.

(** The socket is open and the registry has it in [room]: the test of the
    fan-out loop. *)
Definition listening (rooms : gmap conn val) (room : val) (k : socket) : bool :=
  Nat.eqb (readyState k) OPEN && strict_eq (roomOf rooms (sid k)) room.

(** No open member of [room] has a transport on which [send] raises. *)
Definition sound (rooms : gmap conn val) (room : val) (cs : list socket) : bool :=
  forallb (fun k => negb (listening rooms room k && sendThrows k)) cs.


(** The sends the fan-out loop makes when it visits all of [cs]. *)
Definition deliveries (rooms : gmap conn val) (room : val) (msg : out_msg)
    (cs : list socket) : list effect :=
  map (fun k => Send (sid k) msg) (List.filter (listening rooms room) cs).

(** The room a message is addressed to. *)
Definition msg_room (m : out_msg) : val :=
  match m with
  | Presence room _ | Typing room _ _ | Message room _ _ | Relayed room _ => room
  end.

(** The event is a [join] frame of socket [c]. *)
Definition joins (c : conn) (e : Server.event) : bool :=
  match e with
  | Server.EFrame c' (Json obj) _ =>
      Nat.eqb c' c && negb (nullish obj)
      && strict_eq (Server.classify obj) (VStr "join")
  | _ => false
  end.

(** The event is a pong of socket [c]. *)
Definition pongs (c : conn) (e : Server.event) : bool :=
  match e with
  | Server.EPong c' => Nat.eqb c' c
  | _ => false
  end.

(** The client set is a set, and [fresh] is a new name. *)
Definition wf (s : Server.state) : Prop :=
  NoDup (map sid (Server.clients s))
  /\ forall k, k ∈ Server.clients s -> sid k < Server.fresh s.

(** ** Sample frames and runs *)

Definition lobby : val := VStr "lobby".

(** [{"type":"join","room":room}], parsed at address [a]. *)
Definition join_frame (a : nat) (room : val) : frame :=
  Json (VObj a [("type", VStr "join"); ("room", room)]).

(** [{"type":"typing","room":room,"typing":t}]. *)
Definition typing_frame (a : nat) (room : val) (t : bool) : frame :=
  Json (VObj a [("type", VStr "typing"); ("room", room); ("typing", VBool t)]).

(** [{"type":"message","room":room,"payload":payload}]. *)
Definition message_frame (a : nat) (room payload : val) : frame :=
  Json (VObj a [("type", VStr "message"); ("room", room); ("payload", payload)]).

(** Two peers connect and join the lobby; the database is up and both
    profile updates have settled. *)
Definition two_in_lobby : list Server.event :=
  [ Server.EDbReady;
    Server.EConnection "hashA"; Server.EConnection "hashB";
    Server.EFrame 0 (join_frame 100 lobby) 1000;
    Server.EFrame 1 (join_frame 101 lobby) 1001;
    Server.ESettle 0 true; Server.ESettle 0 true ].

(** Two peers connect and join nothing. *)
Definition two_unjoined : list Server.event :=
  [ Server.EDbReady; Server.EConnection "hashA"; Server.EConnection "hashB" ].

(** The lobby of [two_in_lobby], reached. *)
Definition lobby_state : Server.state := (Server.run Server.initial two_in_lobby).1.

(** The same, with the transport of peer 0 failing every [send]. *)
Definition lobby_state_bad_peer : Server.state :=
  (Server.run lobby_state [Server.ETransport 0 OPEN true]).1.

(** The lobby with a [message] frame of peer 0 accepted and its insert
    not yet settled. *)
Definition lobby_state_inserting : Server.state :=
  (Server.run lobby_state
     [Server.EFrame 0 (message_frame 102 lobby (VStr "hi")) 2000]).1.

(** Two peers in the lobby before [init] has assigned [db]. *)
Definition lobby_state_no_db : Server.state :=
  (Server.run Server.initial
     [ Server.EConnection "hashA"; Server.EConnection "hashB";
       Server.EFrame 0 (join_frame 100 lobby) 1000;
       Server.EFrame 1 (join_frame 101 lobby) 1001 ]).1.

(** Two connected peers that have joined nothing. *)
Definition unjoined_state : Server.state := (Server.run Server.initial two_unjoined).1.

(** [{"type":"message","payload":"hi"}]: no [room]. *)
Definition frame_without_room : frame :=
  Json (VObj 7 [("type", VStr "message"); ("payload", VStr "hi")]).

(** [{"type":"message","room":"lobby","payload":5}]: a number for a payload. *)
Definition frame_with_number_payload : frame :=
  Json (VObj 8 [("type", VStr "message"); ("room", lobby); ("payload", VNum 5%float)]).

(** [{"type":"join"}]: no [room]. *)
Definition join_without_room : frame := Json (VObj 9 [("type", VStr "join")]).

(** Every client named [c] has its liveness flag down, and [c] is a name
    already given out. *)
Definition flag_down (c : conn) (s : Server.state) : Prop :=
  (forall k, k ∈ Server.clients s -> sid k = c -> isAlive k = false)
  /\ c < Server.fresh s.

(** Two peers that have joined the room named by the empty string. *)
Definition nameless_room_state : Server.state :=
  (Server.run Server.initial
     [ Server.EDbReady;
       Server.EConnection "hashA"; Server.EConnection "hashB";
       Server.EFrame 0 (join_frame 100 (VStr "")) 1000;
       Server.EFrame 1 (join_frame 101 (VStr "")) 1001;
       Server.ESettle 0 true; Server.ESettle 0 true ]).1.

(** ** Predicates on states and events, for the properties of whole runs *)

(** The name [c] has been given out and no client bears it any more. *)
Definition absent (c : conn) (s : Server.state) : Prop :=
  (c ∉ map sid (Server.clients s)) /\ c < Server.fresh s.

(** Every client named [c] has its liveness flag up. *)
Definition flag_up (c : conn) (s : Server.state) : Prop :=
  forall k, k ∈ Server.clients s -> sid k = c -> isAlive k = true.

(** The event is a tick of the sweep timer. *)
Definition sweeps (e : Server.event) : bool :=
  match e with Server.ESweep => true | _ => false end.

(** The registry has rooms only for names already given out. *)
Definition rooms_bounded (s : Server.state) : Prop :=
  forall c v, Server.clientRoom s !! c = Some v -> c < Server.fresh s.

(** The sockets a trace acts on: by a send, a probe or a termination. *)
Definition touched (es : list effect) : list conn :=
  map fst (sends es) ++ probed es ++ terminated es.

(** The events whose handler may call the database: a [join] or [message]
    frame, and a close. *)
Definition calls_database (e : Server.event) : bool :=
  match e with
  | Server.EFrame _ (Json obj) _ =>
      negb (nullish obj)
      && (strict_eq (Server.classify obj) (VStr "join")
          || strict_eq (Server.classify obj) (VStr "message"))
  | Server.EClose _ _ => true
  | _ => false
  end.

(** ** server.js: the address of a request *)

Module Net.

(** The white space [String.prototype.trim] strips, among code units below
    256 (a header value and a socket address hold no others): tab, line feed,
    vertical tab, form feed, carriage return, space, no-break space. *)
Definition is_space (a : ascii) : bool :=
  existsb (N.eqb (N_of_ascii a)) [9; 10; 11; 12; 13; 32; 160]%N.

Fixpoint trim_start (s : string) : string :=
  match s with
  | EmptyString => EmptyString
  | String a rest => if is_space a then trim_start rest else s
  end.

Fixpoint trim_end (s : string) : string :=
  match s with
  | EmptyString => EmptyString
  | String a rest =>
      match trim_end rest with
      | EmptyString => if is_space a then EmptyString else String a EmptyString
      | kept => String a kept
      end
  end.

(** [s.trim()]. *)
Definition trim (s : string) : string := trim_end (trim_start s).

(** [s.split(',')[0]]: what precedes the first comma, all of [s] when it has
    none. *)
Fixpoint first_field (s : string) : string :=
  match s with
  | EmptyString => EmptyString
  | String a rest => if Ascii.eqb a "," then EmptyString else String a (first_field rest)
  end.

(** [a || b] for a string that may be [undefined]: [a] unless it is
    [undefined] or empty. *)
Definition or_str (a : option string) (b : string) : string :=
  match a with
  | Some x => if String.eqb x "" then b else x
  | None => b
  end.

(** [function clientIp(req)], from [req.headers['x-forwarded-for']] and
    [req.socket.remoteAddress]. *)
Definition clientIp (forwarded remote : option string) : string :=
  match forwarded with
  | Some hdr =>
      if negb (String.eqb hdr "") then trim (first_field hdr)
      else or_str remote ""
  | None => or_str remote ""
  end.

(** The address the connection handler computes:
    [(req.headers['x-forwarded-for'] || req.socket.remoteAddress || '')
       .split(',')[0].trim()]. *)
Definition connection_ip (forwarded remote : option string) : string :=
  trim (first_field (or_str forwarded (or_str remote ""))).

(** [function hashIp(ip)], the digest function and the salt of the
    environment given: [sha256((ip || '') + '::' + IP_SALT)] in hex. *)
Definition hashIp (sha256_hex : string -> string) (IP_SALT : string) (ip : string)
    : string :=
  sha256_hex (String.append (or_str (Some ip) "") (String.append "::" IP_SALT)).

(** The string has a comma. *)
Fixpoint has_comma (s : string) : bool :=
  match s with
  | EmptyString => false
  | String a rest => Ascii.eqb a "," || has_comma rest
  end.

(** The string begins with white space. *)
Definition lead_space (s : string) : bool :=
  match s with
  | EmptyString => false
  | String a _ => is_space a
  end.

(** The string ends with white space. *)
Fixpoint trail_space (s : string) : bool :=
  match s with
  | EmptyString => false
  | String a EmptyString => is_space a
  | String _ rest => trail_space rest
  end.

End Net.

(** ** server.js: the collections *)

Module Store.

(** What the process is given and this development does not look into: the
    part of MongoDB's query language and of its unique index that concerns
    values other than strings, bcrypt (its hash takes a fresh salt), and
    SHA-256 with the configured [IP_SALT]. *)
Record platform : Type := Platform {
  mongo_match : val -> val -> bool;
  mongo_clash : val -> val -> bool;
  bcrypt_hash : string -> nat -> string;
  bcrypt_compare : string -> string -> bool;
  sha256_hex : string -> string;
  IP_SALT : string
}.

(** A document of [rooms], of [messages], of [profiles]. A profile gets its
    display name from the profile route and its online flag from the
    connection handlers, so either may be missing. *)
Record room_doc : Type := RoomDoc {
  roomId : val;
  passwordHash : string;
  displayName : val;
  createdAt : Z
}.

Record message_doc : Type := MessageDoc {
  m_room : val;
  m_payload : val;
  m_timestamp : Z
}.

Record profile_doc : Type := ProfileDoc {
  p_ipHash : string;
  p_displayName : option val;
  p_lastSeen : Z;
  p_online : option bool
}.

(** The three collections in insertion order, and whether the unique index
    on [rooms.roomId] exists. (The unique index on [profiles.ipHash] never
    comes into play: profiles are only ever written by an upsert on that
    key.) *)
Record database : Type := Database {
  rooms : list room_doc;
  messages : list message_doc;
  profiles : list profile_doc;
  rooms_unique : bool
}.

(** A field that is [undefined] is stored as [null]. *)
Definition to_bson (v : val) : val :=
  match v with VUndef => VNull | _ => v end.

(** A stored field equals the string [s], or is an array that holds it:
    what the query [{field: s}] selects. *)
Definition holds_string (s : string) (v : val) : bool :=
  match v with
  | VStr t => String.eqb t s
  | VArr _ elems => existsb (fun e => strict_eq e (VStr s)) elems
  | _ => false
  end.

(** The query [{field: q}] selects a document whose field is [v]. *)
Definition matches (P : platform) (q v : val) : bool :=
  match q with
  | VStr s => holds_string s v
  | _ => mongo_match P q v
  end.

(** A new key [key] collides, under a unique index, with a stored key [v]. *)
Definition clash (P : platform) (key v : val) : bool :=
  match key with
  | VStr s => holds_string s v
  | _ => mongo_clash P key v
  end.

(** [rooms.findOne({ roomId })]. *)
Definition find_room (P : platform) (q : val) (l : list room_doc) : option room_doc :=
  find (fun d => matches P q (roomId d)) l.

(** [rooms.insertOne(d)]: refused by the unique index when the key collides. *)
Definition insert_room (P : platform) (d : room_doc) (D : database) : option database :=
  if rooms_unique D && existsb (fun x => clash P (roomId d) (roomId x)) (rooms D)
  then None
  else Some (Database (rooms D ++ [d]) (messages D) (profiles D) (rooms_unique D)).

(** Sorting by [timestamp], ascending. *)
Fixpoint insert_by_time (d : message_doc) (l : list message_doc) : list message_doc :=
  match l with
  | [] => [d]
  | x :: rest =>
      if Z.leb (m_timestamp d) (m_timestamp x) then d :: l
      else x :: insert_by_time d rest
  end.

Definition sort_by_time (l : list message_doc) : list message_doc :=
  foldr insert_by_time [] l.

(** [messages.find({ room }).sort({ timestamp: 1 }).limit(2000).toArray()]. *)
Definition find_messages (P : platform) (q : val) (l : list message_doc)
    : list message_doc :=
  firstn 2000 (sort_by_time (List.filter (fun d => matches P q (m_room d)) l)).

(** [updateOne({ ipHash: h }, { $set: ... })] on the first profile with
    that hash; [None] when there is none. *)
Fixpoint update_first (h : string) (f : profile_doc -> profile_doc)
    (l : list profile_doc) : option (list profile_doc) :=
  match l with
  | [] => None
  | p :: rest =>
      if String.eqb (p_ipHash p) h then Some (f p :: rest)
      else option_map (cons p) (update_first h f rest)
  end.

(** [profiles.updateOne({ ipHash: h }, { $set: ... }, { upsert })]: without a
    match an upsert inserts [fresh], the query's key with the fields set. *)
Definition update_profile (h : string) (f : profile_doc -> profile_doc)
    (fresh : profile_doc) (upsert : bool) (D : database) : database :=
  match update_first h f (profiles D) with
  | Some l => Database (rooms D) (messages D) l (rooms_unique D)
  | None =>
      if upsert
      then Database (rooms D) (messages D) (profiles D ++ [fresh]) (rooms_unique D)
      else D
  end.

(** [$set: { online, lastSeen }], of the connection handlers. *)
Definition set_presence (on : bool) (t : Z) (p : profile_doc) : profile_doc :=
  ProfileDoc (p_ipHash p) (p_displayName p) t (Some on).

(** [$set: { displayName, lastSeen, ipHash }], of the profile route. *)
Definition set_name (name : val) (t : Z) (p : profile_doc) : profile_doc :=
  ProfileDoc (p_ipHash p) (Some name) t (p_online p).

(** The upsert of the profile route. *)
Definition upsert_name (h : string) (name : val) (t : Z) (D : database) : database :=
  update_profile h (set_name name t) (ProfileDoc h (Some name) t None) true D.

(** A database call of the WebSocket handlers, taking effect. *)
Definition apply_op (op : db_op) (D : database) : database :=
  match op with
  | InsertMessage room payload timestamp =>
      Database (rooms D)
               (messages D ++ [MessageDoc (to_bson room) (to_bson payload) timestamp])
               (profiles D) (rooms_unique D)
  | UpdateProfile h on t upsert =>
      update_profile h (set_presence on t) (ProfileDoc h None t (Some on)) upsert D
  end.

(** The profile of a hash. *)
Definition find_profile (h : string) (l : list profile_doc) : option profile_doc :=
  find (fun p => String.eqb (p_ipHash p) h) l.

(** No two rooms collide: the condition under which the unique index can be
    built. *)
Fixpoint clash_free (P : platform) (l : list room_doc) : bool :=
  match l with
  | [] => true
  | d :: rest =>
      negb (existsb (fun x => clash P (roomId x) (roomId d)
                              || clash P (roomId d) (roomId x)) rest)
      && clash_free P rest
  end.

End Store.

(** ** server.js: the HTTP routes *)

Module Http.

Import Store.

Inductive body : Type :=
  | Ok
  | OkMessages (l : list (val * Z))
  | Error (e : string).

(** [res.status(n).json(b)]; [res.json(b)] has status 200. *)
Record response : Type := Response { status : nat; content : body }.

(** The calls a route awaits, and what each resolves to. *)
Inductive call : Type :=
  | FindRoom (q : val)
  | Hash (password : val)
  | InsertRoom (d : room_doc)
  | Compare (password : val) (hash : string)
  | FindMessages (q : val)
  | SetProfile (h : string) (name : val) (t : Z).

Definition answer (c : call) : Type :=
  match c with
  | FindRoom _ => option room_doc
  | Hash _ => string
  | InsertRoom _ => unit
  | Compare _ _ => bool
  | FindMessages _ => list message_doc
  | SetProfile _ _ _ => unit
  end.

(** An [async] route handler: it responds, or it awaits a call and goes on
    with what the call resolved to ([None] when it rejected or threw) and
    with the time it is then. Every route wraps its body in [try]/[catch]. *)
Inductive prog : Type :=
  | Respond (r : response)
  | Await (c : call) (k : Z -> option (answer c) -> prog).

(** The [catch] of every route. *)
Definition server_error : prog := Respond (Response 500 (Error "server")).

(** [app.post('/create-room', ...)], stage by stage. *)
Definition create_room_inserted (r : option unit) : prog :=
  match r with
  | Some _ => Respond (Response 200 Ok)
  | None => server_error
  end.

Definition create_room_hashed (roomId displayName : val) (now : Z)
    (r : option string) : prog :=
  match r with
  | Some hash =>
      Await (InsertRoom (RoomDoc roomId hash (or_else displayName (VStr "")) now))
            (fun _ => create_room_inserted)
  | None => server_error
  end.

Definition create_room_found (roomId password displayName : val)
    (r : option (option room_doc)) : prog :=
  match r with
  | Some (Some _) => Respond (Response 409 (Error "room exists"))
  | Some None => Await (Hash password) (create_room_hashed roomId displayName)
  | None => server_error
  end.

Definition create_room (reqbody : val) : prog :=
  if nullish reqbody then server_error
  else
    let roomId := prop reqbody "roomId" in
    let password := prop reqbody "password" in
    let displayName := prop reqbody "displayName" in
    if negb (truthy roomId) || negb (truthy password)
    then Respond (Response 400 (Error "roomId and password required"))
    else Await (FindRoom roomId)
               (fun _ => create_room_found roomId password displayName).

(** [app.post('/join-room', ...)]. *)
Definition join_room_compared (r : option bool) : prog :=
  match r with
  | Some true => Respond (Response 200 Ok)
  | Some false => Respond (Response 403 (Error "wrong password"))
  | None => server_error
  end.

Definition join_room_found (password : val) (r : option (option room_doc)) : prog :=
  match r with
  | Some (Some room) =>
      Await (Compare password (passwordHash room)) (fun _ => join_room_compared)
  | Some None => Respond (Response 404 (Error "not found"))
  | None => server_error
  end.

Definition join_room (reqbody : val) : prog :=
  if nullish reqbody then server_error
  else
    let roomId := prop reqbody "roomId" in
    let password := prop reqbody "password" in
    if negb (truthy roomId) || negb (truthy password)
    then Respond (Response 400 (Error "roomId and password required"))
    else Await (FindRoom roomId) (fun _ => join_room_found password).

(** [app.get('/history', ...)], [room] being [req.query.room]. *)
Definition history_found (r : option (list message_doc)) : prog :=
  match r with
  | Some docs =>
      Respond (Response 200
                 (OkMessages (map (fun d => (m_payload d, m_timestamp d)) docs)))
  | None => server_error
  end.

Definition history (room : val) : prog :=
  if negb (truthy room) then Respond (Response 400 (Error "room required"))
  else Await (FindMessages room) (fun _ => history_found).

(** [app.post('/profile', ...)]. *)
Definition profile_set (r : option unit) : prog :=
  match r with
  | Some _ => Respond (Response 200 Ok)
  | None => server_error
  end.

Definition profile (P : platform) (forwarded remote : option string)
    (reqbody : val) (now : Z) : prog :=
  let ip := Net.clientIp forwarded remote in
  let ipHash := Net.hashIp (sha256_hex P) (IP_SALT P) ip in
  if nullish reqbody then server_error
  else
    let displayName := prop reqbody "displayName" in
    Await (SetProfile ipHash (or_else displayName (VStr "")) now)
          (fun _ => profile_set).

(** [app.get('/status', ...)]. *)
Definition status_route : prog := Respond (Response 200 Ok).

(** A request as the routes read it. *)
Record request : Type := Request {
  forwarded : option string;
  remote : option string;
  reqbody : val;
  query_room : val
}.

Inductive route : Type := CreateRoom | JoinRoom | History | Profile | Status.

Definition handler (P : platform) (rt : route) (req : request) (now : Z) : prog :=
  match rt with
  | CreateRoom => create_room (reqbody req)
  | JoinRoom => join_room (reqbody req)
  | History => history (query_room req)
  | Profile => profile P (forwarded req) (remote req) (reqbody req) now
  | Status => status_route
  end.

(** The call goes through [db]. *)
Definition uses_db (c : call) : bool :=
  match c with
  | Hash _ | Compare _ _ => false
  | _ => true
  end.

(** A call carried out, on the database as it is then. A call through [db]
    while [db] is unassigned throws. bcrypt refuses what is not a string. *)
Definition perform (P : platform) (odb : option database) (c : call) (salt : nat)
    : option database * option (answer c) :=
  match c return option database * option (answer c) with
  | Hash password =>
      (odb, match password with
            | VStr s => Some (bcrypt_hash P s salt)
            | _ => None
            end)
  | Compare password hash =>
      (odb, match password with
            | VStr s => Some (bcrypt_compare P s hash)
            | _ => None
            end)
  | FindRoom q =>
      (odb, match odb with
            | Some D => Some (find_room P q (rooms D))
            | None => None
            end)
  | InsertRoom d =>
      match odb with
      | Some D =>
          match insert_room P d D with
          | Some D' => (Some D', Some tt)
          | None => (odb, None)
          end
      | None => (odb, None)
      end
  | FindMessages q =>
      (odb, match odb with
            | Some D => Some (find_messages P q (messages D))
            | None => None
            end)
  | SetProfile h name t =>
      match odb with
      | Some D =>
          (Some (upsert_name h name t D), Some tt)
      | None => (odb, None)
      end
  end.

(** The process: [db], the requests suspended at an [await], the next request
    number, and whether [init] has failed and ended the process. *)
Record state : Type := State {
  db : option database;
  pending : gmap nat prog;
  next : nat;
  halted : bool
}.

Definition initial : state := State None ∅ 0 false.

(** Run a handler up to its response or its next [await]. A call through
    [db] while [db] is unassigned throws at once, into the [catch]. *)
Fixpoint advance (s : state) (id : nat) (now : Z) (p : prog)
    : state * list (nat * response) :=
  match p with
  | Respond r => (s, [(id, r)])
  | Await c k =>
      if uses_db c && negb (bool_decide (is_Some (db s)))
      then advance s id now (k now None)
      else (State (db s) (<[id := p]> (pending s)) (next s) (halted s), [])
  end.

Inductive event : Type :=
  | Connected (D : database)
  | IndexRooms
  | Exit
  | Arrives (rt : route) (req : request) (now : Z)
  | Settle (id : nat) (now : Z) (salt : nat) (fault : bool)
  | WsCall (op : db_op).

(** One task of the event loop. [Connected D]: [init] assigns [db], the
    database holding [D]. [IndexRooms]: [init] builds the unique index on
    [rooms], or fails on colliding rooms and ends the process. [Exit]: [init]
    fails otherwise. [Arrives]: a request reaches its route. [Settle id]: the
    call request [id] awaits is carried out and settles, rejected when
    [fault], and the handler goes on. [WsCall]: a database call of a
    WebSocket handler takes effect. *)
Definition step (P : platform) (s : state) (e : event)
    : state * list (nat * response) :=
  if halted s then (s, [])
  else
    match e with
    | Connected D =>
        match db s with
        | Some _ => (s, [])
        | None => (State (Some D) (pending s) (next s) false, [])
        end
    | IndexRooms =>
        match db s with
        | Some D =>
            if clash_free P (rooms D)
            then (State (Some (Database (rooms D) (messages D) (profiles D) true))
                        (pending s) (next s) false, [])
            else (State (db s) (pending s) (next s) true, [])
        | None => (s, [])
        end
    | Exit => (State (db s) (pending s) (next s) true, [])
    | Arrives rt req now =>
        advance (State (db s) (pending s) (S (next s)) false) (next s) now
                (handler P rt req now)
    | Settle id now salt fault =>
        match pending s !! id with
        | Some (Await c k) =>
            let s1 := State (db s) (delete id (pending s)) (next s) false in
            if fault then advance s1 id now (k now None)
            else
              let '(odb, r) := perform P (db s) c salt in
              advance (State odb (delete id (pending s)) (next s) false) id now (k now r)
        | _ => (s, [])
        end
    | WsCall op =>
        (State (option_map (apply_op op) (db s)) (pending s) (next s) false, [])
    end.

Fixpoint run (P : platform) (s : state) (evs : list event)
    : state * list (nat * response) :=
  match evs with
  | [] => (s, [])
  | e :: rest =>
      let '(s1, r1) := step P s e in
      let '(s2, r2) := run P s1 rest in
      (s2, r1 ++ r2)
  end.

(** The event leaves request [id] suspended and the process up. *)
Definition leaves (id : nat) (e : event) : bool :=
  match e with
  | Settle id' _ _ _ => negb (Nat.eqb id' id)
  | IndexRooms | Exit => false
  | _ => true
  end.

End Http.

(** ** Predicates on the collections and the route handlers *)

(** [D'] is [D] with rooms and messages added at the end, the unique index
    kept. *)
Definition extends (D D' : Store.database) : Prop :=
  (exists l, Store.rooms D' = Store.rooms D ++ l)
  /\ (exists l, Store.messages D' = Store.messages D ++ l)
  /\ (Store.rooms_unique D = true -> Store.rooms_unique D' = true).

(** At every await of [p], now or later, a call that rejects or throws is
    answered by the [catch]. *)
Fixpoint contained (p : Http.prog) : Prop :=
  match p with
  | Http.Respond _ => True
  | Http.Await c k =>
      (forall now, k now None = Http.server_error)
      /\ (forall now r, contained (k now r))
  end.

(** The projection [{payload, timestamp}] of the history route. *)
Definition projection (d : Store.message_doc) : val * Z :=
  (Store.m_payload d, Store.m_timestamp d).

(** The stored messages the query [{room: q}] selects. *)
Definition of_room (P : Store.platform) (q : val) (l : list Store.message_doc)
    : list Store.message_doc :=
  List.filter (fun d => Store.matches P q (Store.m_room d)) l.

(** Message [a] is stamped no later than message [b]. *)
Definition by_time (a b : Store.message_doc) : Prop :=
  (Store.m_timestamp a <= Store.m_timestamp b)%Z.

(** No two profiles share a hash. *)
Definition profiles_distinct (D : Store.database) : Prop :=
  NoDup (map Store.p_ipHash (Store.profiles D)).

(** Every suspended request waits at an await whose failure, then and at
    every later await, the [catch] answers. *)
Definition guarded (s : Http.state) : Prop :=
  forall id p, Http.pending s !! id = Some p ->
    contained p /\ exists c k, p = Http.Await c k.

(** ** A stand-in platform and sample requests, for trying the routes out *)

(** MongoDB matching nothing beyond strings, a bcrypt that prefixes the
    password, a digest that is the identity. *)
Definition demo_platform : Store.platform :=
  Store.Platform (fun _ _ => false) (fun _ _ => false)
    (fun p _ => String.append "h:" p)
    (fun p h => String.eqb h (String.append "h:" p))
    (fun x => x) "salt".

(** A database with the room ["den"], password ["pw"], indexed. *)
Definition demo_db : Store.database :=
  Store.Database [Store.RoomDoc (VStr "den") "h:pw" (VStr "") 0] [] [] true.

Definition demo_state : Http.state := Http.State (Some demo_db) ∅ 0 false.

(** A request whose body is [{"roomId":q,"password":p}]. *)
Definition room_request (q p : string) : Http.request :=
  Http.Request None (Some "127.0.0.1")
    (VObj 1 [("roomId", VStr q); ("password", VStr p)]) VUndef.

(** A database whose room ["den"] holds 2000 messages stamped 1 and one
    stamped 5. *)
Definition crowded_db : Store.database :=
  Store.Database []
    (repeat (Store.MessageDoc (VStr "den") (VStr "old") 1) 2000
     ++ [Store.MessageDoc (VStr "den") (VStr "new") 5])
    [] true.

(** * Properties *)

(** ** The fan-out loop *)

Section FanOut.

Variables (rooms : gmap conn val) (room : val) (msg : out_msg).

Lemma fan_out_cons_skip k cs :
  listening rooms room k = false ->
  fan_out rooms room msg (k :: cs) = fan_out rooms room msg cs.
Proof.
  unfold listening. simpl. intros H.
  destruct (Nat.eqb (readyState k) OPEN); simpl in *; [now rewrite H | reflexivity].
Qed.

Lemma fan_out_cons_send k cs :
  listening rooms room k = true -> sendThrows k = false ->
  fan_out rooms room msg (k :: cs) =
    (Send (sid k) msg :: (fan_out rooms room msg cs).1, (fan_out rooms room msg cs).2).
Proof.
  unfold listening. simpl. intros H Hs.
  apply andb_prop in H as [-> ->]. simpl. rewrite Hs.
  now destruct (fan_out rooms room msg cs).
Qed.

Lemma fan_out_cons_throw k cs :
  listening rooms room k = true -> sendThrows k = true ->
  fan_out rooms room msg (k :: cs) = ([], Throw).
Proof.
  unfold listening. simpl. intros H Hs.
  apply andb_prop in H as [-> ->]. simpl. now rewrite Hs.
Qed.

(** With no failing transport among the listeners the loop reaches the end
    and has sent to each listener, in client-set order. *)
Lemma fan_out_sound cs :
  sound rooms room cs = true ->
  fan_out rooms room msg cs = (deliveries rooms room msg cs, Normal).
Proof.
  unfold deliveries. induction cs as [|k cs IH]; [reflexivity|].
  intros H. simpl in H. apply andb_prop in H as [Hk Hcs].
  specialize (IH Hcs).
  destruct (listening rooms room k) eqn:L.
  - simpl in Hk. apply negb_true_iff in Hk.
    rewrite (fan_out_cons_send _ _ L Hk), IH. simpl. now rewrite L.
  - rewrite (fan_out_cons_skip _ _ L), IH. simpl. now rewrite L.
Qed.

(** The first listener whose [send] raises ends the loop: the listeners
    before it have been served, nothing after it is visited. *)
Lemma fan_out_throw pre bad post :
  sound rooms room pre = true ->
  listening rooms room bad = true -> sendThrows bad = true ->
  fan_out rooms room msg (pre ++ bad :: post) = (deliveries rooms room msg pre, Throw).
Proof.
  intros Hpre L T. unfold deliveries.
  induction pre as [|k pre IH]; simpl app.
  - now apply fan_out_cons_throw.
  - simpl in Hpre. apply andb_prop in Hpre as [Hk Hpre]. specialize (IH Hpre).
    destruct (listening rooms room k) eqn:Lk.
    + simpl in Hk. apply negb_true_iff in Hk.
      rewrite (fan_out_cons_send _ _ Lk Hk), IH. simpl. now rewrite Lk.
    + rewrite (fan_out_cons_skip _ _ Lk), IH. simpl. now rewrite Lk.
Qed.

(** Whatever happens, the loop only ever sends [msg], and only to
    listeners. *)
Lemma fan_out_only_listeners cs c m :
  (c, m) ∈ sends (fan_out rooms room msg cs).1 ->
  m = msg /\ exists k, k ∈ cs /\ sid k = c /\ listening rooms room k = true.
Proof.
  induction cs as [|k cs IH]; simpl fan_out.
  - simpl. intros H. inversion H.
  - assert (Hrec : (c, m) ∈ sends (fan_out rooms room msg cs).1 ->
       m = msg /\ exists k', k' ∈ k :: cs /\ sid k' = c /\ listening rooms room k' = true).
    { intros H. destruct (IH H) as [-> (k' & Hin & Hs & HL)].
      split; [reflexivity|]. exists k'. split; [now right|]. now split. }
    destruct (Nat.eqb (readyState k) OPEN) eqn:Ho; simpl; [|exact Hrec].
    destruct (strict_eq (roomOf rooms (sid k)) room) eqn:Hr; [|exact Hrec].
    destruct (sendThrows k); [simpl; intros H; inversion H|].
    destruct (fan_out rooms room msg cs) as [es r] eqn:E. simpl in *.
    intros H. apply elem_of_cons in H as [H|H].
    + inversion H; subst. split; [reflexivity|]. exists k.
      split; [now left|]. split; [reflexivity|]. unfold listening. now rewrite Ho, Hr.
    + now apply Hrec.
Qed.

(** The loop performs sends and nothing else. *)
Lemma fan_out_only_sends cs :
  db_calls (fan_out rooms room msg cs).1 = []
  /\ terminated (fan_out rooms room msg cs).1 = []
  /\ probed (fan_out rooms room msg cs).1 = [].
Proof.
  induction cs as [|k cs IH]; simpl; [auto|].
  destruct (Nat.eqb (readyState k) OPEN); simpl; [|exact IH].
  destruct (strict_eq (roomOf rooms (sid k)) room); [|exact IH].
  destruct (sendThrows k); [simpl; auto|].
  destruct (fan_out rooms room msg cs) as [es r]. simpl in *. exact IH.
Qed.

Lemma sends_deliveries cs :
  sends (deliveries rooms room msg cs) =
    map (fun k => (sid k, msg)) (List.filter (listening rooms room) cs).
Proof.
  unfold deliveries. induction (List.filter (listening rooms room) cs) as [|k l IH];
    simpl; [reflexivity | now rewrite IH].
Qed.

Lemma deliveries_reach k cs :
  k ∈ cs -> listening rooms room k = true -> (sid k, msg) ∈ sends (deliveries rooms room msg cs).
Proof.
  intros Hin L. rewrite sends_deliveries.
  apply (list_elem_of_fmap_2 (fun k => (sid k, msg))).
  apply list_elem_of_In, filter_In. split; [now apply list_elem_of_In | exact L].
Qed.

End FanOut.

(** ** The router: which branch a frame takes *)

Section Dispatch.

Import Server.

Variables (s : state) (ws : socket) (now : Z) (obj : val).
Hypothesis Hobj : nullish obj = false.

Lemma classified_as (name : string) :
  strict_eq (classify obj) (VStr name) = true -> classify obj = VStr name.
Proof.
  destruct (classify obj); simpl; try discriminate.
  intros H. apply String.eqb_eq in H. now subst.
Qed.

Lemma on_message_join :
  strict_eq (classify obj) (VStr "join") = true ->
  on_message s ws now (Json obj) =
    try_await (set_clientRoom (<[sid ws := prop obj "room"]> (clientRoom s)) s)
      (UpdateProfile (ipHash ws) true now true)
      (KJoin (prop obj "room") (ipHash ws)).
Proof.
  intros H. unfold on_message. rewrite Hobj.
  now rewrite (classified_as _ H).
Qed.

Lemma on_message_typing :
  strict_eq (classify obj) (VStr "typing") = true ->
  on_message s ws now (Json obj) =
    finish s (broadcast s (prop obj "room")
      (Typing (prop obj "room") (ipHash ws) (truthy (prop obj "typing")))).
Proof.
  intros H. unfold on_message. rewrite Hobj.
  now rewrite (classified_as _ H).
Qed.

Lemma on_message_message :
  strict_eq (classify obj) (VStr "message") = true ->
  on_message s ws now (Json obj) =
    try_await s (InsertMessage (prop obj "room") (prop obj "payload") now)
      (KMessage (prop obj "room") (prop obj "payload") now).
Proof.
  intros H. unfold on_message. rewrite Hobj.
  now rewrite (classified_as _ H).
Qed.

Lemma on_message_other :
  strict_eq (classify obj) (VStr "join") = false ->
  strict_eq (classify obj) (VStr "typing") = false ->
  strict_eq (classify obj) (VStr "message") = false ->
  on_message s ws now (Json obj) = (s, []).
Proof.
  intros H1 H2 H3. unfold on_message. now rewrite Hobj, H1, H2, H3.
Qed.

End Dispatch.

(** ** The handlers after their await *)

Section Resume.

Import Server.

Variable s : state.

Lemma finish_state r : (finish s r).1 = s.
Proof. now destruct r as [es []]. Qed.

Lemma finish_sends r : sends (finish s r).2 = sends r.1.
Proof.
  destruct r as [es []]; simpl; [reflexivity|].
  induction es as [|[] es IH]; simpl; now rewrite ?IH.
Qed.

Lemma resume_state k ok : (resume s k ok).1 = s.
Proof.
  destruct k; simpl.
  - apply finish_state.
  - now destruct (broadcast s room (Message room payload timestamp)) as [es []].
  - destruct (truthy room); [apply finish_state | reflexivity].
Qed.

Lemma resume_message_sound room payload ts ok :
  sound (clientRoom s) room (clients s) = true ->
  resume s (KMessage room payload ts) ok =
    (s, (if ok then [] else [LogError])
        ++ deliveries (clientRoom s) room (Message room payload ts) (clients s)).
Proof.
  intros H. simpl. unfold broadcast. now rewrite (fan_out_sound _ _ _ _ H).
Qed.

(** A rejected insert changes the outcome by one logged error. *)
Lemma resume_message_failed room payload ts :
  resume s (KMessage room payload ts) false =
    ((resume s (KMessage room payload ts) true).1,
     LogError :: (resume s (KMessage room payload ts) true).2).
Proof.
  simpl. destruct (broadcast s room (Message room payload ts)) as [es []]; reflexivity.
Qed.

End Resume.

Section Settle.

Import Server.

Variable s : state.

Lemma step_settle i k ok :
  awaiting s !! i = Some k ->
  step s (ESettle i ok) = resume (set_awaiting (delete i (awaiting s)) s) k ok.
Proof. intros H. simpl. now rewrite H. Qed.

Lemma step_frame c ws data now :
  lookup_socket c (clients s) = Some ws ->
  step s (EFrame c data now) = on_message s ws now data.
Proof. intros H. simpl. now rewrite H. Qed.

Lemma sends_app (a b : list effect) : sends (a ++ b) = sends a ++ sends b.
Proof. induction a as [|[] a IH]; simpl; now rewrite ?IH. Qed.

Lemma resume_message_sends room payload ts ok :
  sends (resume s (KMessage room payload ts) ok).2 =
    sends (broadcast s room (Message room payload ts)).1.
Proof.
  unfold resume. destruct (broadcast s room (Message room payload ts)) as [es r].
  rewrite finish_sends. cbn [fst]. rewrite sends_app. now destruct ok.
Qed.

Lemma resume_join_sends room h ok :
  sends (resume s (KJoin room h) ok).2 = sends (broadcast s room (Presence room h)).1.
Proof. unfold resume. apply finish_sends. Qed.

End Settle.

(** ** C2: a throwing send *)

(** C2, refuted as stated: peers 0 and 1 are open and in the lobby, the
    transport of peer 0 raises on [send], that of peer 1 does not. The
    broadcast ends with the exception at peer 0, uncaught, and peer 1, next in
    the client set, is sent nothing. *)
Lemma broadcast_throw_not_caught_cex :
  let s := lobby_state_bad_peer in
  let msg := Typing lobby "hashB" true in
  Server.clients s = [Socket 0 OPEN true "hashA" true; Socket 1 OPEN true "hashB" false]
  /\ listening (Server.clientRoom s) lobby (Socket 1 OPEN true "hashB" false) = true
  /\ Server.broadcast s lobby msg = ([], Throw)
  /\ (Server.step s (Server.EFrame 1 (typing_frame 102 lobby true) 2000)).2 = [Uncaught].
Proof. vm_compute. repeat split; reflexivity. Qed.

(** C2, amended: [broadcast] skips the sockets that are not open without
    calling [send] on them, and when no open member of the room has a
    transport that raises, it sends to every open member of the room, in
    client-set order. An exception of [send] is not caught: it ends the
    fan-out at the first open member whose [send] raises; the open members
    before it have been sent the message, the ones after it have not. *)
Theorem broadcast_until_first_throw (s : Server.state) (room : val) (msg : out_msg) :
  (sound (Server.clientRoom s) room (Server.clients s) = true ->
     Server.broadcast s room msg =
       (deliveries (Server.clientRoom s) room msg (Server.clients s), Normal))
  /\ (forall pre bad post,
        Server.clients s = pre ++ bad :: post ->
        sound (Server.clientRoom s) room pre = true ->
        listening (Server.clientRoom s) room bad = true ->
        sendThrows bad = true ->
        Server.broadcast s room msg =
          (deliveries (Server.clientRoom s) room msg pre, Throw))
  /\ (forall c m, (c, m) ∈ sends (Server.broadcast s room msg).1 ->
        m = msg /\ exists k, k ∈ Server.clients s /\ sid k = c
                    /\ readyState k = OPEN).
Proof.
  unfold Server.broadcast. split; [|split].
  - apply fan_out_sound.
  - intros pre bad post -> Hpre L T. now apply fan_out_throw.
  - intros c m H. apply fan_out_only_listeners in H as [-> (k & Hin & Hs & L)].
    split; [reflexivity|]. exists k. repeat split; try assumption.
    unfold listening in L. apply andb_prop in L as [L _]. now apply Nat.eqb_eq in L.
Qed.

Lemma broadcast_until_first_throw_witness :
  Server.broadcast lobby_state lobby (Typing lobby "hashB" true) =
    ([Send 0 (Typing lobby "hashB" true); Send 1 (Typing lobby "hashB" true)], Normal)
  /\ Server.broadcast lobby_state_bad_peer lobby (Typing lobby "hashB" true) = ([], Throw).
Proof.
  split.
  - apply (proj1 (broadcast_until_first_throw lobby_state lobby (Typing lobby "hashB" true))).
    vm_compute. reflexivity.
  - apply (proj1 (proj2 (broadcast_until_first_throw lobby_state_bad_peer lobby
                           (Typing lobby "hashB" true)))
             [] (Socket 0 OPEN true "hashA" true) [Socket 1 OPEN true "hashB" false]);
      vm_compute; reflexivity.
Defined.

(** ** C3: a failing insert *)

(** C3: a frame classified as [message] issues the insert and awaits it; a
    failure of the insert leaves the broadcast as it is with a successful
    insert: the rejection is caught and logged, and the handler goes on to
    broadcast. The outcome differs
    from the successful one by the logged error alone; with no raising
    transport in the room, the message goes to every open socket the registry
    has in the room. The same holds when the call itself throws because [db]
    is not assigned yet. *)
Theorem insert_failure_still_broadcasts (s : Server.state) :
  (forall ws obj now,
     nullish obj = false ->
     strict_eq (Server.classify obj) (VStr "message") = true ->
     Server.db s = true ->
     Server.on_message s ws now (Json obj) =
       (Server.set_awaiting
          (Server.awaiting s ++ [Server.KMessage (prop obj "room") (prop obj "payload") now]) s,
        [Db (InsertMessage (prop obj "room") (prop obj "payload") now)]))
  /\ (forall i room payload ts,
     Server.awaiting s !! i = Some (Server.KMessage room payload ts) ->
     Server.step s (Server.ESettle i false) =
       ((Server.step s (Server.ESettle i true)).1,
        LogError :: (Server.step s (Server.ESettle i true)).2))
  /\ (forall i room payload ts,
        Server.awaiting s !! i = Some (Server.KMessage room payload ts) ->
        sound (Server.clientRoom s) room (Server.clients s) = true ->
        (Server.step s (Server.ESettle i false)).2 =
          LogError :: deliveries (Server.clientRoom s) room
                        (Message room payload ts) (Server.clients s))
  /\ (forall c ws obj now,
        lookup_socket c (Server.clients s) = Some ws ->
        nullish obj = false ->
        strict_eq (Server.classify obj) (VStr "message") = true ->
        Server.db s = false ->
        sound (Server.clientRoom s) (prop obj "room") (Server.clients s) = true ->
        (Server.step s (Server.EFrame c (Json obj) now)).2 =
          LogError :: deliveries (Server.clientRoom s) (prop obj "room")
                        (Message (prop obj "room") (prop obj "payload") now)
                        (Server.clients s)).
Proof.
  split; [|split; [|split]].
  - intros ws obj now Hobj Hty Hdb. rewrite (on_message_message _ _ _ _ Hobj Hty).
    unfold Server.try_await. now rewrite Hdb.
  - intros i room payload ts H.
    rewrite !(step_settle _ _ _ _ H). apply resume_message_failed.
  - intros i room payload ts H Hs.
    rewrite (step_settle _ _ _ _ H).
    now rewrite resume_message_sound by exact Hs.
  - intros c ws obj now Hws Hobj Hty Hdb Hs.
    rewrite (step_frame _ _ _ _ _ Hws), (on_message_message _ _ _ _ Hobj Hty).
    unfold Server.try_await. rewrite Hdb.
    now rewrite resume_message_sound by exact Hs.
Qed.

Lemma insert_failure_still_broadcasts_witness :
  let m := Message lobby (VStr "hi") 2000 in
  (Server.step lobby_state_inserting (Server.ESettle 0 false)).2 =
     [LogError; Send 0 m; Send 1 m]
  /\ (Server.step lobby_state_no_db
        (Server.EFrame 0 (message_frame 102 lobby (VStr "hi")) 2000)).2 =
     [LogError; Send 0 m; Send 1 m].
Proof.
  split.
  - apply (proj1 (proj2 (proj2 (insert_failure_still_broadcasts lobby_state_inserting)))
             0 lobby (VStr "hi") 2000%Z); vm_compute; reflexivity.
  - apply (proj2 (proj2 (proj2 (insert_failure_still_broadcasts lobby_state_no_db)))
             0 (Socket 0 OPEN true "hashA" false)
             (VObj 102 [("type", VStr "message"); ("room", lobby); ("payload", VStr "hi")])
             2000%Z); vm_compute; reflexivity.
Defined.

(** ** C4: when the broadcast happens *)

(** C4, refuted as stated: with the database up, a [message] frame and a
    [join] frame each issue their database call and send nothing; the
    broadcast is made only when the awaited call settles. *)
Lemma broadcast_not_immediate_cex :
  let m := Message lobby (VStr "hi") 2000 in
  let frame_m := Server.EFrame 0 (message_frame 102 lobby (VStr "hi")) 2000 in
  let frame_j := Server.EFrame 0 (join_frame 103 lobby) 2000 in
  (Server.step lobby_state frame_m).2 = [Db (InsertMessage lobby (VStr "hi") 2000)]
  /\ (Server.step lobby_state frame_j).2 = [Db (UpdateProfile "hashA" true 2000 true)]
  /\ (Server.run lobby_state [frame_m; Server.EPong 1; Server.ESweep]).2 =
       [Db (InsertMessage lobby (VStr "hi") 2000); Ping 0; Ping 1]
  /\ (Server.run lobby_state [frame_m; Server.ESettle 0 true]).2 =
       [Db (InsertMessage lobby (VStr "hi") 2000); Send 0 m; Send 1 m].
Proof. vm_compute. repeat split; reflexivity. Qed.

(** C4, amended: for every inbound [message] and [join] frame, with the
    database handle assigned, the router issues the database call and
    suspends: the handler sends nothing before the call settles (a [join] has
    recorded the room by then). When the call settles, with success or with
    failure, the handler sends exactly what [broadcast] sends in the state it
    resumes in. The broadcast is sequenced after the completion of the
    database call, and does not depend on its success. *)
Theorem broadcast_after_persistence_settles (s : Server.state) (ws : socket)
    (now : Z) (obj : val) :
  nullish obj = false ->
  Server.db s = true ->
  (strict_eq (Server.classify obj) (VStr "message") = true ->
     Server.on_message s ws now (Json obj) =
       (Server.set_awaiting
          (Server.awaiting s ++ [Server.KMessage (prop obj "room") (prop obj "payload") now]) s,
        [Db (InsertMessage (prop obj "room") (prop obj "payload") now)]))
  /\ (strict_eq (Server.classify obj) (VStr "join") = true ->
        let s1 := Server.set_clientRoom
                    (<[sid ws := prop obj "room"]> (Server.clientRoom s)) s in
        Server.on_message s ws now (Json obj) =
          (Server.set_awaiting
             (Server.awaiting s ++ [Server.KJoin (prop obj "room") (ipHash ws)]) s1,
           [Db (UpdateProfile (ipHash ws) true now true)]))
  /\ (forall s' ok,
        sends (Server.resume s' (Server.KMessage (prop obj "room") (prop obj "payload") now) ok).2
          = sends (Server.broadcast s' (prop obj "room")
                     (Message (prop obj "room") (prop obj "payload") now)).1
        /\ sends (Server.resume s' (Server.KJoin (prop obj "room") (ipHash ws)) ok).2
          = sends (Server.broadcast s' (prop obj "room")
                     (Presence (prop obj "room") (ipHash ws))).1).
Proof.
  intros Hobj Hdb. split; [|split].
  - intros H. rewrite (on_message_message _ _ _ _ Hobj H).
    unfold Server.try_await. now rewrite Hdb.
  - intros H s1. rewrite (on_message_join _ _ _ _ Hobj H).
    unfold Server.try_await. cbn [Server.db Server.set_clientRoom]. now rewrite Hdb.
  - intros s' ok. split; [apply resume_message_sends | apply resume_join_sends].
Qed.

Lemma broadcast_after_persistence_settles_witness :
  Server.on_message lobby_state (Socket 0 OPEN true "hashA" false) 2000
      (message_frame 102 lobby (VStr "hi")) =
    (Server.set_awaiting [Server.KMessage lobby (VStr "hi") 2000] lobby_state,
     [Db (InsertMessage lobby (VStr "hi") 2000)]).
Proof.
  apply (proj1 (broadcast_after_persistence_settles lobby_state
                  (Socket 0 OPEN true "hashA" false) 2000%Z
                  (VObj 102 [("type", VStr "message"); ("room", lobby); ("payload", VStr "hi")])
                  eq_refl eq_refl)).
  reflexivity.
Defined.

(** ** What a step of the event loop leaves alone *)

Section Frames.

Import Server.

Lemma strict_eq_refl (v : val) :
  match v with VNum x => PrimFloat.is_nan x | _ => false end = false ->
  strict_eq v v = true.
Proof.
  destruct v; simpl; intros H; try reflexivity.
  - now destruct b.
  - unfold PrimFloat.is_nan in H. now apply negb_false_iff in H.
  - apply String.eqb_refl.
  - apply Nat.eqb_refl.
  - apply Nat.eqb_refl.
Qed.

Lemma lookup_socket_sid c cs ws : lookup_socket c cs = Some ws -> sid ws = c.
Proof.
  unfold lookup_socket. intros H. apply find_some in H as [_ H].
  now apply Nat.eqb_eq in H.
Qed.

Lemma lookup_socket_elem c cs ws : lookup_socket c cs = Some ws -> ws ∈ cs.
Proof.
  unfold lookup_socket. intros H. apply find_some in H as [H _].
  now apply list_elem_of_In.
Qed.

Lemma try_await_rooms s op k : clientRoom (try_await s op k).1 = clientRoom s.
Proof.
  unfold try_await. destruct (db s); [reflexivity | now rewrite resume_state].
Qed.

(** Only a [join] frame of socket [c] changes the room of [c]. *)
Lemma step_room_stable s e c :
  joins c e = false ->
  roomOf (clientRoom (step s e).1) c = roomOf (clientRoom s) c.
Proof.
  intros Hj. destruct e as [|h|c' data now|i ok|c'|c' rs thr|c' now|]; simpl.
  - reflexivity.
  - reflexivity.
  - destruct (lookup_socket c' (clients s)) as [ws|] eqn:Hws; [|reflexivity].
    destruct data as [|obj]; [reflexivity|]. simpl.
    destruct (nullish obj) eqn:Hn; [reflexivity|].
    destruct (strict_eq (classify obj) (VStr "join")) eqn:Hjoin.
    + rewrite try_await_rooms. simpl. unfold roomOf.
      rewrite lookup_insert_ne; [reflexivity|].
      apply lookup_socket_sid in Hws. simpl in Hj. rewrite Hn, Hjoin in Hj.
      simpl in Hj. rewrite !andb_true_r in Hj. apply Nat.eqb_neq in Hj. congruence.
    + destruct (strict_eq (classify obj) (VStr "typing")); [now rewrite finish_state|].
      destruct (strict_eq (classify obj) (VStr "message")); [|reflexivity].
      now rewrite try_await_rooms.
  - destruct (awaiting s !! i); [|reflexivity]. now rewrite resume_state.
  - reflexivity.
  - reflexivity.
  - destruct (lookup_socket c' (clients s)); [|reflexivity].
    unfold on_close. simpl.
    destruct (clientProfile s !! c') as [h|]; [|reflexivity].
    destruct (negb (String.eqb h "")); [|reflexivity].
    now rewrite try_await_rooms.
  - unfold sweep. now destruct (sweep_all (clients s)).
Qed.

Lemma run_room_stable evs : forall s c,
  forallb (fun e => negb (joins c e)) evs = true ->
  roomOf (clientRoom (run s evs).1) c = roomOf (clientRoom s) c.
Proof.
  induction evs as [|e evs IH]; intros s c H; [reflexivity|].
  simpl in H. apply andb_prop in H as [He Hevs]. apply negb_true_iff in He.
  simpl. destruct (step s e) as [s1 e1] eqn:E1.
  destruct (run s1 evs) as [s2 e2] eqn:E2. simpl.
  change s2 with (s2, e2).1. rewrite <- E2, (IH _ _ Hevs).
  change s1 with (s1, e1).1. rewrite <- E1. now apply step_room_stable.
Qed.

(** [broadcast] reaches only sockets the registry has in the room. *)
Lemma broadcast_addressed s room msg c m :
  msg_room msg = room ->
  (c, m) ∈ sends (broadcast s room msg).1 ->
  strict_eq (roomOf (clientRoom s) c) (msg_room m) = true.
Proof.
  intros Hm H. apply fan_out_only_listeners in H as [-> (k & _ & <- & L)].
  rewrite Hm. unfold listening in L. now apply andb_prop in L as [_ L].
Qed.

Lemma resume_addressed s k ok c m :
  (c, m) ∈ sends (resume s k ok).2 ->
  strict_eq (roomOf (clientRoom s) c) (msg_room m) = true.
Proof.
  destruct k.
  - rewrite resume_join_sends. now apply broadcast_addressed.
  - rewrite resume_message_sends. now apply broadcast_addressed.
  - simpl. destruct (truthy room); [|intros H; inversion H].
    rewrite finish_sends. now apply broadcast_addressed.
Qed.

Lemma try_await_addressed s op k c m :
  (c, m) ∈ sends (try_await s op k).2 ->
  strict_eq (roomOf (clientRoom s) c) (msg_room m) = true.
Proof.
  unfold try_await. destruct (db s); [intros H; inversion H|]. apply resume_addressed.
Qed.

(** Every send of a step goes to a socket that the registry, as the step
    leaves it, has in the room the message is addressed to. *)
Lemma step_addressed s e c m :
  (c, m) ∈ sends (step s e).2 ->
  strict_eq (roomOf (clientRoom (step s e).1) c) (msg_room m) = true.
Proof.
  destruct e as [|h|c' data now|i ok|c'|c' rs thr|c' now|]; simpl;
    try (intros H; inversion H; fail).
  - destruct (lookup_socket c' (clients s)) as [ws|]; [|intros H; inversion H].
    destruct data as [|obj]; [intros H; inversion H|]. simpl.
    destruct (nullish obj); [intros H; inversion H|].
    destruct (strict_eq (classify obj) (VStr "join")).
    { rewrite try_await_rooms. apply try_await_addressed. }
    destruct (strict_eq (classify obj) (VStr "typing")).
    { rewrite finish_state, finish_sends. now apply broadcast_addressed. }
    destruct (strict_eq (classify obj) (VStr "message")); [|intros H; inversion H].
    rewrite try_await_rooms. apply try_await_addressed.
  - destruct (awaiting s !! i); [|intros H; inversion H].
    rewrite resume_state. apply resume_addressed.
  - destruct (lookup_socket c' (clients s)); [|intros H; inversion H].
    unfold on_close. simpl.
    destruct (clientProfile s !! c') as [h|]; [|intros H; inversion H].
    destruct (negb (String.eqb h "")); [|intros H; inversion H].
    rewrite try_await_rooms. apply try_await_addressed.
  - unfold sweep. destruct (sweep_all (clients s)) as [cs es] eqn:E. simpl.
    assert (Hs : forall l, sends (sweep_all l).2 = []).
    { induction l as [|k l IH]; [reflexivity|]. simpl.
      destruct (sweep_one k) as [k' e1] eqn:E1.
      destruct (sweep_all l) as [l' e2]. simpl in *.
      unfold sweep_one in E1. destruct (negb (isAlive k)); inversion E1; subst; exact IH. }
    specialize (Hs (clients s)). rewrite E in Hs. simpl in Hs. rewrite Hs.
    intros H; inversion H.
Qed.

End Frames.

(** ** C5: one room per connection, replaced by a later join *)

Lemma run_addressed evs : forall s c room m,
  roomOf (Server.clientRoom s) c = room ->
  forallb (fun e => negb (joins c e)) evs = true ->
  (c, m) ∈ sends (Server.run s evs).2 ->
  strict_eq room (msg_room m) = true.
Proof.
  induction evs as [|e evs IH]; intros s c room m Hr H Hin.
  - inversion Hin.
  - simpl in H. apply andb_prop in H as [He Hevs]. apply negb_true_iff in He.
    pose proof (step_room_stable s e c He) as Hst.
    pose proof (step_addressed s e c m) as Had.
    simpl in Hin. destruct (Server.step s e) as [s1 e1].
    destruct (Server.run s1 evs) as [s2 e2] eqn:E2. simpl in *.
    rewrite sends_app in Hin. apply elem_of_app in Hin as [Hin|Hin].
    + rewrite <- Hr, <- Hst. now apply Had.
    + apply (IH s1 c room m); [congruence | exact Hevs | now rewrite E2].
Qed.

(** C5: the registry is a map from sockets to rooms, so a socket has one room
    at a time. A [join] frame of a socket overwrites its room and no other
    socket's. From then on, for as long as the socket sends no further
    [join]: its room stays the joined one; every message sent to it is
    addressed to the joined room; no broadcast to a different room reaches
    it; and every broadcast to the joined room reaches it while it is an open
    client (the joined room being no [NaN], which [JSON.parse] never yields,
    and no [send] in the room raising). *)
Theorem join_replaces_room (s : Server.state) (ws : socket) (now : Z) (obj : val)
    (room1 room2 : val) (evs : list Server.event) :
  nullish obj = false ->
  strict_eq (Server.classify obj) (VStr "join") = true ->
  prop obj "room" = room2 ->
  strict_eq room2 room1 = false ->
  forallb (fun e => negb (joins (sid ws) e)) evs = true ->
  let s1 := (Server.on_message s ws now (Json obj)).1 in
  let s2 := (Server.run s1 evs).1 in
  Server.clientRoom s1 !! sid ws = Some room2
  /\ (forall c, c ≠ sid ws -> Server.clientRoom s1 !! c = Server.clientRoom s !! c)
  /\ roomOf (Server.clientRoom s2) (sid ws) = room2
  /\ (forall m, (sid ws, m) ∈ sends (Server.run s1 evs).2 ->
        strict_eq room2 (msg_room m) = true)
  /\ (forall msg, (sid ws, msg) ∉ sends (Server.broadcast s2 room1 msg).1)
  /\ (forall msg k,
        k ∈ Server.clients s2 -> sid k = sid ws -> readyState k = OPEN ->
        match room2 with VNum x => PrimFloat.is_nan x | _ => false end = false ->
        sound (Server.clientRoom s2) room2 (Server.clients s2) = true ->
        (sid ws, msg) ∈ sends (Server.broadcast s2 room2 msg).1).
Proof.
  intros Hobj Hjoin Hroom Hne Hevs s1 s2.
  assert (Hs1 : Server.clientRoom s1 = <[sid ws := room2]> (Server.clientRoom s)).
  { unfold s1. rewrite (on_message_join _ _ _ _ Hobj Hjoin), try_await_rooms.
    simpl. now rewrite Hroom. }
  assert (Hr2 : roomOf (Server.clientRoom s2) (sid ws) = room2).
  { unfold s2. rewrite (run_room_stable _ _ _ Hevs). unfold roomOf.
    now rewrite Hs1, lookup_insert_eq. }
  repeat split.
  - now rewrite Hs1, lookup_insert_eq.
  - intros c Hc. rewrite Hs1. now apply lookup_insert_ne.
  - exact Hr2.
  - intros m Hin. apply (run_addressed evs s1 (sid ws) room2 m); try assumption.
    unfold roomOf. now rewrite Hs1, lookup_insert_eq.
  - intros msg Hin. apply fan_out_only_listeners in Hin as [_ (k & _ & Hk & L)].
    unfold listening in L. apply andb_prop in L as [_ L].
    rewrite Hk, Hr2 in L. congruence.
  - intros msg k Hin Hk Ho Hnan Hsound. unfold Server.broadcast.
    rewrite (fan_out_sound _ _ _ _ Hsound). rewrite <- Hk.
    apply deliveries_reach; [exact Hin|]. unfold listening.
    rewrite Ho, Hk, Hr2. simpl. now apply strict_eq_refl.
Qed.

Lemma join_replaces_room_witness :
  let den := VStr "den" in
  let s1 := (Server.on_message lobby_state (Socket 0 OPEN true "hashA" false) 3000
               (join_frame 103 den)).1 in
  Server.clientRoom s1 !! 0 = Some den
  /\ (0, Message den (VStr "yo") 3001) ∈
       sends (Server.broadcast
                (Server.run s1 [Server.ESettle 0 true;
                                Server.EFrame 1 (typing_frame 104 lobby true) 3001]).1
                den (Message den (VStr "yo") 3001)).1.
Proof.
  intros den s1.
  pose proof (join_replaces_room lobby_state (Socket 0 OPEN true "hashA" false) 3000
                (VObj 103 [("type", VStr "join"); ("room", den)]) lobby den
                [Server.ESettle 0 true; Server.EFrame 1 (typing_frame 104 lobby true) 3001]
                eq_refl eq_refl eq_refl eq_refl eq_refl) as (H1 & _ & _ & _ & _ & H6).
  split; [exact H1|].
  apply (H6 (Message den (VStr "yo") 3001) (Socket 0 OPEN true "hashA" false));
    vm_compute; try reflexivity.
  left.
Defined.

(** ** C6: who gets a message *)

Section MessageDelivery.

Import Server.

Variables (s : state) (room payload : val) (ts : Z) (ok : bool).

Lemma message_resume_only_listeners c m :
  (c, m) ∈ sends (resume s (KMessage room payload ts) ok).2 ->
  m = Message room payload ts /\ exists k, k ∈ clients s /\ sid k = c /\ readyState k = OPEN
                       /\ strict_eq (roomOf (clientRoom s) c) room = true.
Proof.
  rewrite resume_message_sends. intros H.
  apply fan_out_only_listeners in H as [-> (k & Hin & Hk & L)].
  split; [reflexivity|]. exists k. unfold listening in L.
  apply andb_prop in L as [Ho L]. apply Nat.eqb_eq in Ho. rewrite Hk in L. auto.
Qed.

Lemma message_resume_all_listeners k :
  sound (clientRoom s) room (clients s) = true ->
  k ∈ clients s -> readyState k = OPEN ->
  strict_eq (roomOf (clientRoom s) (sid k)) room = true ->
  (sid k, Message room payload ts) ∈ sends (resume s (KMessage room payload ts) ok).2.
Proof.
  intros Hs Hin Ho Hr. rewrite resume_message_sends. unfold broadcast.
  rewrite (fan_out_sound _ _ _ _ Hs). apply deliveries_reach; [exact Hin|].
  unfold listening. now rewrite Ho, Hr.
Qed.

End MessageDelivery.

(** C6: when the handler of a [message] frame reaches its broadcast (its
    insert has settled, either way), the message goes to socket [b] only if
    [b] is an open client that the registry has in the room of the message,
    so never to a socket registered to another room; and, no [send] in the
    room raising, it goes to every such socket. The broadcast leaves the
    client set and the registry as they are: a closed socket is passed over
    and stays where it is. *)
Theorem message_reaches_open_room_members (s : Server.state) (i : nat)
    (room payload : val) (ts : Z) (ok : bool) :
  Server.awaiting s !! i = Some (Server.KMessage room payload ts) ->
  let r := Server.step s (Server.ESettle i ok) in
  (forall b m, (b, m) ∈ sends r.2 ->
     m = Message room payload ts
     /\ exists k, k ∈ Server.clients s /\ sid k = b /\ readyState k = OPEN
                  /\ strict_eq (roomOf (Server.clientRoom s) b) room = true)
  /\ (forall b m, strict_eq (roomOf (Server.clientRoom s) b) room = false ->
        (b, m) ∉ sends r.2)
  /\ (sound (Server.clientRoom s) room (Server.clients s) = true ->
      forall k, k ∈ Server.clients s -> readyState k = OPEN ->
        strict_eq (roomOf (Server.clientRoom s) (sid k)) room = true ->
        (sid k, Message room payload ts) ∈ sends r.2)
  /\ Server.clients r.1 = Server.clients s
  /\ Server.clientRoom r.1 = Server.clientRoom s
  /\ Server.clientProfile r.1 = Server.clientProfile s.
Proof.
  intros Hi r. unfold r. rewrite (step_settle _ _ _ _ Hi).
  set (s' := Server.set_awaiting _ s).
  split; [|split; [|split]].
  - intros b m H. now apply (message_resume_only_listeners s') in H.
  - intros b m Hne H. apply (message_resume_only_listeners s') in H
      as [_ (k & _ & _ & _ & Hr)]. simpl in Hr. congruence.
  - intros Hs k Hin Ho Hr. now apply (message_resume_all_listeners s').
  - now rewrite resume_state.
Qed.

Lemma message_reaches_open_room_members_witness :
  (1, Message lobby (VStr "hi") 2000) ∈
    sends (Server.step lobby_state_inserting (Server.ESettle 0 true)).2.
Proof.
  pose proof (message_reaches_open_room_members lobby_state_inserting 0 lobby
                (VStr "hi") 2000 true eq_refl) as (_ & _ & H & _).
  apply (H eq_refl (Socket 1 OPEN true "hashB" false)); vm_compute; try reflexivity.
  right. left.
Defined.

(** While [db] is unassigned a [message] frame reaches its broadcast at once,
    through the [catch]. *)
Lemma message_immediate_without_db (s : Server.state) c ws obj now :
  lookup_socket c (Server.clients s) = Some ws ->
  nullish obj = false ->
  strict_eq (Server.classify obj) (VStr "message") = true ->
  Server.db s = false ->
  Server.step s (Server.EFrame c (Json obj) now) =
    Server.resume s (Server.KMessage (prop obj "room") (prop obj "payload") now) false.
Proof.
  intros Hws Hobj Hty Hdb.
  rewrite (step_frame _ _ _ _ _ Hws), (on_message_message _ _ _ _ Hobj Hty).
  unfold Server.try_await. now rewrite Hdb.
Qed.

(** ** C9: the sender is a receiver like any other *)

(** C9: the fan-out makes no exception for the originator. A socket that is
    open and that the registry has in room R receives the broadcast to R that
    its own frame causes: its [typing] event at receipt, its [message] and its
    [join] presence when the handler resumes (no [send] in the room raising).
    In the bare relay the frame itself registers the sender to the room, so an
    open sender always receives its own message. *)
Theorem sender_receives_own_broadcast (c : conn) (ws : socket) :
  (forall s obj now,
     lookup_socket c (Server.clients s) = Some ws ->
     nullish obj = false ->
     strict_eq (Server.classify obj) (VStr "typing") = true ->
     readyState ws = OPEN ->
     strict_eq (roomOf (Server.clientRoom s) c) (prop obj "room") = true ->
     sound (Server.clientRoom s) (prop obj "room") (Server.clients s) = true ->
     (c, Typing (prop obj "room") (ipHash ws) (truthy (prop obj "typing")))
       ∈ sends (Server.step s (Server.EFrame c (Json obj) now)).2)
  /\ (forall s i room payload ts ok,
        Server.awaiting s !! i = Some (Server.KMessage room payload ts) ->
        lookup_socket c (Server.clients s) = Some ws ->
        readyState ws = OPEN ->
        strict_eq (roomOf (Server.clientRoom s) c) room = true ->
        sound (Server.clientRoom s) room (Server.clients s) = true ->
        (c, Message room payload ts) ∈ sends (Server.step s (Server.ESettle i ok)).2)
  /\ (forall s i room h ok,
        Server.awaiting s !! i = Some (Server.KJoin room h) ->
        lookup_socket c (Server.clients s) = Some ws ->
        readyState ws = OPEN ->
        strict_eq (roomOf (Server.clientRoom s) c) room = true ->
        sound (Server.clientRoom s) room (Server.clients s) = true ->
        (c, Presence room h) ∈ sends (Server.step s (Server.ESettle i ok)).2)
  /\ (forall s obj,
        lookup_socket c (Relay.clients s) = Some ws ->
        Relay.rejected obj = false ->
        readyState ws = OPEN ->
        sound (<[c := prop obj "room"]> (Relay.clientRoom s)) (prop obj "room")
              (Relay.clients s) = true ->
        (c, Relayed (prop obj "room") (prop obj "payload"))
          ∈ sends (Relay.on_message s c (Json obj)).2).
Proof.
  assert (Hreach : forall rooms room msg cs,
            lookup_socket c cs = Some ws -> readyState ws = OPEN ->
            strict_eq (roomOf rooms c) room = true ->
            sound rooms room cs = true ->
            (c, msg) ∈ sends (fan_out rooms room msg cs).1).
  { intros rooms room msg cs Hws Ho Hr Hs.
    rewrite (fan_out_sound _ _ _ _ Hs). cbn [fst].
    rewrite <- (lookup_socket_sid _ _ _ Hws).
    apply deliveries_reach; [now apply lookup_socket_elem in Hws|].
    unfold listening. rewrite Ho, (lookup_socket_sid _ _ _ Hws), Hr. reflexivity. }
  split; [|split; [|split]].
  - intros s obj now Hws Hobj Hty Ho Hr Hs.
    rewrite (step_frame _ _ _ _ _ Hws), (on_message_typing _ _ _ _ Hobj Hty).
    rewrite finish_sends. now apply Hreach.
  - intros s i room payload ts ok Hi Hws Ho Hr Hs.
    rewrite (step_settle _ _ _ _ Hi), resume_message_sends. now apply Hreach.
  - intros s i room h ok Hi Hws Ho Hr Hs.
    rewrite (step_settle _ _ _ _ Hi), resume_join_sends. now apply Hreach.
  - intros s obj Hws Hrej Ho Hs. unfold Relay.on_message. rewrite Hrej. cbn [Relay.clients Relay.clientRoom].
    assert (Hin : (c, Relayed (prop obj "room") (prop obj "payload")) ∈
              sends (fan_out (<[c := prop obj "room"]> (Relay.clientRoom s)) (prop obj "room")
                       (Relayed (prop obj "room") (prop obj "payload")) (Relay.clients s)).1).
    { apply Hreach; try assumption. unfold roomOf. rewrite lookup_insert_eq. simpl.
      unfold Relay.rejected in Hrej. apply orb_false_elim in Hrej as [Hrej _].
      apply orb_false_elim in Hrej as [_ Hrej]. apply negb_false_iff in Hrej.
      destruct (prop obj "room"); try discriminate. apply String.eqb_refl. }
    destruct (fan_out _ _ _ _) as [es []]; cbn [fst snd] in *; [exact Hin|].
    rewrite sends_app. apply elem_of_app. now left.
Qed.

Lemma sender_receives_own_broadcast_witness :
  (0, Typing lobby "hashA" true)
    ∈ sends (Server.step lobby_state (Server.EFrame 0 (typing_frame 105 lobby true) 4000)).2
  /\ (0, Message lobby (VStr "hi") 2000)
       ∈ sends (Server.step lobby_state_inserting (Server.ESettle 0 true)).2
  /\ (0, Relayed lobby (VStr "hi"))
       ∈ sends (Relay.on_message
                  (Relay.State [Socket 0 OPEN true "" false; Socket 1 OPEN true "" false] ∅) 0
                  (Json (VObj 1 [("room", lobby); ("payload", VStr "hi")]))).2.
Proof.
  pose proof (sender_receives_own_broadcast 0 (Socket 0 OPEN true "hashA" false))
    as (H1 & H2 & _ & _).
  pose proof (sender_receives_own_broadcast 0 (Socket 0 OPEN true "" false))
    as (_ & _ & _ & H4).
  split; [|split].
  - apply (H1 lobby_state
             (VObj 105 [("type", VStr "typing"); ("room", lobby); ("typing", VBool true)])
             4000%Z); vm_compute; reflexivity.
  - apply (H2 lobby_state_inserting 0 lobby (VStr "hi") 2000%Z true); vm_compute; reflexivity.
  - apply (H4 (Relay.State [Socket 0 OPEN true "" false; Socket 1 OPEN true "" false] ∅)
             (VObj 1 [("room", lobby); ("payload", VStr "hi")])); vm_compute; reflexivity.
Defined.

(** ** C10: the type discriminator *)

(** C10: a frame that parses to an object whose [type] is truthy and is none
    of ["join"], ["typing"], ["message"] is ignored: the state is unchanged
    (no registry update) and nothing is done (no broadcast, no database
    call). A frame whose [type] is absent or falsy takes the [message]
    branch, exactly as one whose [type] is ["message"]. *)
Theorem unknown_type_ignored_falsy_type_message (s : Server.state) (ws : socket)
    (now : Z) (obj : val) :
  nullish obj = false ->
  (truthy (prop obj "type") = true ->
   strict_eq (prop obj "type") (VStr "join") = false ->
   strict_eq (prop obj "type") (VStr "typing") = false ->
   strict_eq (prop obj "type") (VStr "message") = false ->
   Server.on_message s ws now (Json obj) = (s, []))
  /\ (truthy (prop obj "type") = false
      \/ strict_eq (prop obj "type") (VStr "message") = true ->
      Server.on_message s ws now (Json obj) =
        Server.try_await s
          (InsertMessage (prop obj "room") (prop obj "payload") now)
          (Server.KMessage (prop obj "room") (prop obj "payload") now)).
Proof.
  intros Hobj. split.
  - intros Ht H1 H2 H3. apply on_message_other; [exact Hobj| | |];
      unfold Server.classify, or_else; now rewrite Ht.
  - intros H. apply on_message_message; [exact Hobj|].
    unfold Server.classify, or_else. destruct H as [H|H].
    + now rewrite H.
    + destruct (truthy (prop obj "type")); [exact H | reflexivity].
Qed.

Lemma unknown_type_ignored_falsy_type_message_witness :
  Server.on_message lobby_state (Socket 0 OPEN true "hashA" false) 2000
     (Json (VObj 9 [("type", VStr "leave"); ("room", lobby)])) = (lobby_state, [])
  /\ Server.on_message lobby_state (Socket 0 OPEN true "hashA" false) 2000
       (Json (VObj 9 [("room", lobby); ("payload", VStr "hi")])) =
     Server.on_message lobby_state (Socket 0 OPEN true "hashA" false) 2000
       (message_frame 9 lobby (VStr "hi")).
Proof.
  split.
  - apply (proj1 (unknown_type_ignored_falsy_type_message lobby_state
                    (Socket 0 OPEN true "hashA" false) 2000%Z
                    (VObj 9 [("type", VStr "leave"); ("room", lobby)]) eq_refl));
      reflexivity.
  - rewrite (proj2 (unknown_type_ignored_falsy_type_message lobby_state
                      (Socket 0 OPEN true "hashA" false) 2000%Z
                      (VObj 9 [("room", lobby); ("payload", VStr "hi")]) eq_refl)
               (or_introl eq_refl)).
    reflexivity.
Defined.

(** ** C1: malformed frames *)

(** Both servers drop a frame that is not JSON. *)
Lemma not_json_dropped :
  (forall s ws now, Server.on_message s ws now NotJson = (s, []))
  /\ (forall s c, Relay.on_message s c NotJson = (s, [])).
Proof. split; reflexivity. Qed.

(** The bare relay drops every malformed frame: no send, no registry
    update. *)
Lemma relay_drops_malformed (s : Relay.state) (c : conn) (data : frame) :
  malformed data = true -> Relay.on_message s c data = (s, []).
Proof.
  destruct data as [|obj]; [reflexivity|]. simpl. intros H.
  assert (Hrej : Relay.rejected obj = true); [|now rewrite Hrej].
  unfold Relay.rejected. apply orb_true_iff in H as [H|H].
  - apply orb_true_iff in H as [H|H].
    + destruct obj; try discriminate; reflexivity.
    + rewrite H. now rewrite orb_true_r.
  - apply negb_true_iff, orb_false_elim in H as [H _]. rewrite H. simpl.
    now rewrite orb_true_r.
Qed.

(** C1, where [server.js] departs from it: its handler has no check of the
    frame beyond [JSON.parse]. A [message] frame without [room] is inserted
    and, once the insert settles, broadcast to every open socket that has
    joined nothing ([undefined === undefined]); a [message] frame whose
    payload is a number is inserted and broadcast to the room; a [join] frame
    without [room] overwrites the sender's room with [undefined] and issues
    the profile update; the frame [null] makes the handler throw. *)
Theorem server_dispatches_malformed_frames :
  malformed frame_without_room = true
  /\ malformed frame_with_number_payload = true
  /\ malformed join_without_room = true
  /\ (Server.run unjoined_state
        [Server.EFrame 0 frame_without_room 2000; Server.ESettle 0 true]).2 =
       [ Db (InsertMessage VUndef (VStr "hi") 2000);
         Send 0 (Message VUndef (VStr "hi") 2000);
         Send 1 (Message VUndef (VStr "hi") 2000) ]
  /\ (Server.run lobby_state
        [Server.EFrame 0 frame_with_number_payload 2000; Server.ESettle 0 true]).2 =
       [ Db (InsertMessage lobby (VNum 5%float) 2000);
         Send 0 (Message lobby (VNum 5%float) 2000);
         Send 1 (Message lobby (VNum 5%float) 2000) ]
  /\ Server.clientRoom lobby_state !! 0 = Some lobby
  /\ Server.clientRoom
       (Server.step lobby_state (Server.EFrame 0 join_without_room 2000)).1 !! 0
     = Some VUndef
  /\ (Server.step lobby_state (Server.EFrame 0 join_without_room 2000)).2 =
       [Db (UpdateProfile "hashA" true 2000 true)]
  /\ (Server.step lobby_state (Server.EFrame 0 (Json VNull) 2000)).2 = [Uncaught].
Proof. vm_compute. repeat split; reflexivity. Qed.

(** ** The client set along a run *)

Section Clients.

Import Server.

Lemma update_sids c f cs :
  (forall k, sid (f k) = sid k) -> map sid (update c f cs) = map sid cs.
Proof.
  intros Hf. unfold update. induction cs as [|k cs IH]; [reflexivity|].
  simpl. rewrite IH. now destruct (Nat.eqb (sid k) c); rewrite ?Hf.
Qed.

Lemma update_elem c f cs k' :
  k' ∈ update c f cs ->
  exists k, k ∈ cs /\ k' = (if Nat.eqb (sid k) c then f k else k).
Proof.
  unfold update. intros H. apply list_elem_of_fmap in H as (k & -> & Hin). now exists k.
Qed.

Lemma sweep_all_spec cs :
  sweep_all cs =
    (map (fun k => (sweep_one k).1) cs, flat_map (fun k => (sweep_one k).2) cs).
Proof.
  induction cs as [|k cs IH]; [reflexivity|]. simpl. rewrite IH.
  now destruct (sweep_one k).
Qed.

Lemma sweep_one_sid k : sid (sweep_one k).1 = sid k.
Proof.
  unfold sweep_one, terminate.
  destruct (isAlive k); simpl; [reflexivity|].
  now destruct (Nat.eqb (readyState k) CLOSED).
Qed.

Lemma sweep_one_flag k : isAlive (sweep_one k).1 = false.
Proof.
  unfold sweep_one, terminate.
  destruct (isAlive k) eqn:E; simpl; [reflexivity|].
  now destruct (Nat.eqb (readyState k) CLOSED).
Qed.

Lemma sweep_clients s :
  clients (sweep s).1 = map (fun k => (sweep_one k).1) (clients s)
  /\ (sweep s).2 = flat_map (fun k => (sweep_one k).2) (clients s)
  /\ fresh (sweep s).1 = fresh s.
Proof. unfold sweep. now rewrite sweep_all_spec. Qed.

Lemma on_message_clients s ws now data :
  clients (on_message s ws now data).1 = clients s
  /\ fresh (on_message s ws now data).1 = fresh s.
Proof.
  assert (Ht : forall s op k, clients (try_await s op k).1 = clients s
                              /\ fresh (try_await s op k).1 = fresh s).
  { intros s0 op k. unfold try_await.
    destruct (db s0); [now split | now rewrite resume_state]. }
  destruct data as [|obj]; [now split|]. simpl.
  destruct (nullish obj); [now split|].
  destruct (strict_eq (classify obj) (VStr "join")).
  { now destruct (Ht (set_clientRoom (<[sid ws := prop obj "room"]> (clientRoom s)) s)
                     (UpdateProfile (ipHash ws) true now true)
                     (KJoin (prop obj "room") (ipHash ws))) as [-> ->]. }
  destruct (strict_eq (classify obj) (VStr "typing")); [now rewrite finish_state|].
  destruct (strict_eq (classify obj) (VStr "message")); [apply Ht | now split].
Qed.

Lemma on_close_clients s c now :
  clients (on_close s c now).1 = clients s /\ fresh (on_close s c now).1 = fresh s.
Proof.
  unfold on_close. destruct (clientProfile s !! c) as [h|]; [|now split].
  destruct (negb (String.eqb h "")); [|now split].
  unfold try_await. destruct (db s); [now split | now rewrite resume_state].
Qed.

(** Names are never reused and the client set has no socket twice. *)
Lemma wf_initial : wf initial.
Proof. split; [constructor | intros k H; inversion H]. Qed.

Lemma wf_step s e : wf s -> wf (step s e).1.
Proof.
  intros [Hnd Hlt].
  destruct e as [|h|c data now|i ok|c|c rs thr|c now|]; simpl.
  - now split.
  - split; simpl.
    + rewrite map_app. simpl. apply NoDup_app. repeat split; [exact Hnd| |apply NoDup_singleton].
      intros x Hx Hx'. apply list_elem_of_singleton in Hx'. subst x.
      apply list_elem_of_fmap in Hx as (k & Hk & Hin). apply Hlt in Hin. lia.
    + intros k Hin. apply elem_of_app in Hin as [Hin|Hin].
      * apply Hlt in Hin. lia.
      * apply list_elem_of_singleton in Hin. subst k. simpl. lia.
  - destruct (lookup_socket c (clients s)) as [ws|]; [|now split].
    destruct (on_message_clients s ws now data) as [Hc Hf].
    unfold wf. rewrite Hc, Hf. now split.
  - destruct (awaiting s !! i); [|now split]. rewrite resume_state. now split.
  - split; simpl.
    + now rewrite update_sids.
    + intros k' Hin. apply update_elem in Hin as (k & Hin & ->).
      apply Hlt in Hin. now destruct (Nat.eqb (sid k) c).
  - split; simpl.
    + now rewrite update_sids.
    + intros k' Hin. apply update_elem in Hin as (k & Hin & ->).
      apply Hlt in Hin. now destruct (Nat.eqb (sid k) c).
  - destruct (lookup_socket c (clients s)); [|now split].
    destruct (on_close_clients (set_clients (filter (fun k => sid k ≠ c) (clients s)) s) c now)
      as [Hc Hf].
    unfold wf. rewrite Hc, Hf. simpl. split.
    + eapply sublist_NoDup; [exact Hnd | apply (fmap_sublist sid), sublist_filter].
    + intros k Hin. apply list_elem_of_filter in Hin as [_ Hin]. now apply Hlt.
  - destruct (sweep_clients s) as (Hc & _ & Hf). unfold wf. rewrite Hc, Hf. split.
    + rewrite map_map. erewrite map_ext; [exact Hnd|]. intros k. apply sweep_one_sid.
    + intros k' Hin. apply list_elem_of_fmap in Hin as (k & -> & Hin).
      rewrite sweep_one_sid. now apply Hlt.
Qed.

Lemma wf_run evs : forall s, wf s -> wf (run s evs).1.
Proof.
  induction evs as [|e evs IH]; intros s H; [exact H|]. simpl.
  pose proof (wf_step s e H) as H1. destruct (step s e) as [s1 e1].
  specialize (IH s1 H1). now destruct (run s1 evs).
Qed.

End Clients.

(** ** C7: the liveness sweep *)

Section Liveness.

Import Server.

Lemma probed_app (a b : list effect) : probed (a ++ b) = probed a ++ probed b.
Proof. induction a as [|[] a IH]; simpl; now rewrite ?IH. Qed.

Lemma terminated_app (a b : list effect) :
  terminated (a ++ b) = terminated a ++ terminated b.
Proof. induction a as [|[] a IH]; simpl; now rewrite ?IH. Qed.

Lemma sweep_one_dead k :
  isAlive k = false -> sweep_one k = (terminate k, [Terminate (sid k)]).
Proof. intros H. unfold sweep_one. now rewrite H. Qed.

Lemma sweep_one_alive k :
  isAlive k = true -> sweep_one k = (set_isAlive false k, [Ping (sid k)]).
Proof. intros H. unfold sweep_one. now rewrite H. Qed.

(** The sweep probes exactly the clients whose flag is up and terminates
    exactly those whose flag is down. *)
Lemma sweep_effects cs c :
  (c ∈ probed (flat_map (fun k => (sweep_one k).2) cs)
     <-> exists k, k ∈ cs /\ sid k = c /\ isAlive k = true)
  /\ (c ∈ terminated (flat_map (fun k => (sweep_one k).2) cs)
     <-> exists k, k ∈ cs /\ sid k = c /\ isAlive k = false).
Proof.
  induction cs as [|k cs [IHp IHt]].
  - split; split; simpl; try (intros H; inversion H; fail);
      intros (k & H & _); inversion H.
  - simpl. rewrite probed_app, terminated_app.
    destruct (isAlive k) eqn:E.
    + rewrite (sweep_one_alive _ E). simpl. split; split.
      * intros H. apply elem_of_cons in H as [->|H]; [exists k; split; [left|auto]|].
        apply IHp in H as (k' & Hin & Hk). exists k'. split; [now right | exact Hk].
      * intros (k' & Hin & Hs & Ha). apply elem_of_cons in Hin as [->|Hin];
          [rewrite Hs; left | right; apply IHp; eauto].
      * intros H. apply IHt in H as (k' & Hin & Hk). exists k'. split; [now right | exact Hk].
      * intros (k' & Hin & Hs & Ha). apply elem_of_cons in Hin as [->|Hin];
          [congruence | apply IHt; eauto].
    + rewrite (sweep_one_dead _ E). simpl. split; split.
      * intros H. apply IHp in H as (k' & Hin & Hk). exists k'. split; [now right | exact Hk].
      * intros (k' & Hin & Hs & Ha). apply elem_of_cons in Hin as [->|Hin];
          [congruence | apply IHp; eauto].
      * intros H. apply elem_of_cons in H as [->|H]; [exists k; split; [left|auto]|].
        apply IHt in H as (k' & Hin & Hk). exists k'. split; [now right | exact Hk].
      * intros (k' & Hin & Hs & Ha). apply elem_of_cons in Hin as [->|Hin];
          [rewrite Hs; left | right; apply IHt; eauto].
Qed.

(** After a sweep every flag is down. *)
Lemma sweep_flag_down s c : c < fresh s -> flag_down c (sweep s).1.
Proof.
  intros Hc. destruct (sweep_clients s) as (Hcl & _ & Hf).
  split; [|now rewrite Hf]. intros k Hin _. rewrite Hcl in Hin.
  apply list_elem_of_fmap in Hin as (k0 & -> & _). apply sweep_one_flag.
Qed.

(** Only a pong of [c] (or a new socket, which has a new name) raises a
    flag. *)
Lemma step_flag_down s e c :
  pongs c e = false -> flag_down c s -> flag_down c (step s e).1.
Proof.
  intros Hp [Hdown Hc].
  destruct e as [|h|c' data now|i ok|c'|c' rs thr|c' now|]; simpl.
  - now split.
  - split; simpl; [|lia]. intros k Hin Hk.
    apply elem_of_app in Hin as [Hin|Hin]; [now apply Hdown|].
    apply list_elem_of_singleton in Hin. subst k. simpl in Hk. lia.
  - destruct (lookup_socket c' (clients s)) as [ws|]; [|now split].
    destruct (on_message_clients s ws now data) as [Hcl Hf].
    unfold flag_down. rewrite Hcl, Hf. now split.
  - destruct (awaiting s !! i); [|now split]. rewrite resume_state. now split.
  - split; simpl; [|exact Hc]. intros k' Hin Hk.
    apply update_elem in Hin as (k & Hin & ->). simpl in Hp.
    destruct (Nat.eqb (sid k) c') eqn:E.
    + apply Nat.eqb_eq in E. simpl in Hk. apply Nat.eqb_neq in Hp. congruence.
    + now apply Hdown.
  - split; simpl; [|exact Hc]. intros k' Hin Hk.
    apply update_elem in Hin as (k & Hin & ->).
    destruct (Nat.eqb (sid k) c'); [simpl in *|]; now apply Hdown.
  - destruct (lookup_socket c' (clients s)); [|now split].
    destruct (on_close_clients (set_clients (filter (fun k => sid k ≠ c') (clients s)) s) c' now)
      as [Hcl Hf].
    unfold flag_down. rewrite Hcl, Hf. simpl. split; [|exact Hc].
    intros k Hin. apply list_elem_of_filter in Hin as [_ Hin]. now apply Hdown.
  - now apply sweep_flag_down.
Qed.

(** A handler other than the sweep sends no probe. *)
Lemma step_no_probe s e : e ≠ ESweep -> probed (step s e).2 = [].
Proof.
  assert (Hf : forall s0 r, probed r.1 = [] -> probed (finish s0 r).2 = []).
  { intros s0 [es []] H; simpl in *; [exact H|]. now rewrite probed_app, H. }
  assert (Hb : forall s0 room msg, probed (broadcast s0 room msg).1 = []).
  { intros. apply fan_out_only_sends. }
  assert (Hr : forall s0 k ok, probed (resume s0 k ok).2 = []).
  { intros s0 [] ok; simpl.
    - now apply Hf.
    - pose proof (Hb s0 room (Message room payload timestamp)) as Hb'.
      destruct (broadcast s0 room (Message room payload timestamp)) as [es r].
      simpl in Hb'. destruct r; simpl; rewrite ?probed_app, Hb'; now destruct ok.
    - destruct (truthy room); [now apply Hf | reflexivity]. }
  assert (Ht : forall s0 op k, probed (try_await s0 op k).2 = []).
  { intros. unfold try_await. destruct (db s0); [reflexivity | apply Hr]. }
  intros Hne. destruct e as [|h|c' data now|i ok|c'|c' rs thr|c' now|]; simpl;
    try reflexivity; try congruence.
  - destruct (lookup_socket c' (clients s)) as [ws|]; [|reflexivity].
    destruct data as [|obj]; [reflexivity|]. simpl.
    destruct (nullish obj); [reflexivity|].
    destruct (strict_eq (classify obj) (VStr "join")); [apply Ht|].
    destruct (strict_eq (classify obj) (VStr "typing")); [now apply Hf|].
    destruct (strict_eq (classify obj) (VStr "message")); [apply Ht | reflexivity].
  - destruct (awaiting s !! i); [apply Hr | reflexivity].
  - destruct (lookup_socket c' (clients s)); [|reflexivity].
    unfold on_close. simpl. destruct (clientProfile s !! c') as [h|]; [|reflexivity].
    destruct (negb (String.eqb h "")); [apply Ht | reflexivity].
Qed.

(** With the flag of [c] down, a step sends [c] no probe. *)
Lemma step_probe_free s e c :
  flag_down c s -> c ∉ probed (step s e).2.
Proof.
  intros [Hdown _].
  assert (Hcase : e = ESweep \/ e ≠ ESweep) by (destruct e; auto; right; discriminate).
  destruct Hcase as [->|Hne].
  - simpl. destruct (sweep_clients s) as (_ & -> & _).
    intros H. apply sweep_effects in H as (k & Hin & Hk & Ha).
    rewrite (Hdown k Hin Hk) in Ha. discriminate.
  - rewrite (step_no_probe _ _ Hne). intros H. inversion H.
Qed.

Lemma run_flag_down evs : forall s c,
  forallb (fun e => negb (pongs c e)) evs = true ->
  flag_down c s ->
  flag_down c (run s evs).1 /\ c ∉ probed (run s evs).2.
Proof.
  induction evs as [|e evs IH]; intros s c H Hd.
  - split; [exact Hd | intros Hin; inversion Hin].
  - simpl in H. apply andb_prop in H as [He Hevs]. apply negb_true_iff in He.
    pose proof (step_flag_down s e c He Hd) as H1.
    pose proof (step_probe_free s e c Hd) as H2.
    simpl. destruct (step s e) as [s1 e1]. simpl in *.
    destruct (IH s1 c Hevs H1) as [H3 H4].
    destruct (run s1 evs) as [s2 e2]. simpl in *. split; [exact H3|].
    rewrite probed_app. intros Hin. apply elem_of_app in Hin as [Hin|Hin]; auto.
Qed.

Lemma close_removes s c now : c ∉ map sid (clients (step s (EClose c now)).1).
Proof.
  simpl. destruct (lookup_socket c (clients s)) as [ws|] eqn:E.
  - destruct (on_close_clients (set_clients (filter (fun k => sid k ≠ c) (clients s)) s) c now)
      as [-> _]. simpl. intros H.
    apply list_elem_of_fmap in H as (k & Hk & Hin).
    apply list_elem_of_filter in Hin as [Hne _]. congruence.
  - intros H. apply list_elem_of_fmap in H as (k & Hk & Hin).
    unfold lookup_socket in E. apply list_elem_of_In in Hin.
    apply (find_none _ _ E) in Hin. apply Nat.eqb_neq in Hin. congruence.
Qed.

End Liveness.

(** ** What the registry keeps *)

Section Registry.

Import Server.

(** The sweep and the close of a socket leave both registry maps as they
    are. *)
Lemma sweep_keeps_registry s :
  clientRoom (step s ESweep).1 = clientRoom s
  /\ clientProfile (step s ESweep).1 = clientProfile s.
Proof. simpl. unfold sweep. now destruct (sweep_all (clients s)). Qed.

Lemma try_await_registry s op k :
  clientRoom (try_await s op k).1 = clientRoom s
  /\ clientProfile (try_await s op k).1 = clientProfile s.
Proof.
  unfold try_await. destruct (db s); [now split | now rewrite resume_state].
Qed.

Lemma close_keeps_registry s c now :
  clientRoom (step s (EClose c now)).1 = clientRoom s
  /\ clientProfile (step s (EClose c now)).1 = clientProfile s.
Proof.
  simpl. destruct (lookup_socket c (clients s)); [|now split].
  unfold on_close. simpl. destruct (clientProfile s !! c) as [h|]; [|now split].
  destruct (negb (String.eqb h "")); [|now split].
  apply (try_await_registry
           (set_clients (filter (fun k => sid k ≠ c) (clients s)) s)).
Qed.

(** Only a [join] frame of socket [c] writes the room entry of [c], and
    nothing deletes it. *)
Lemma step_room_entry s e c :
  joins c e = false -> clientRoom (step s e).1 !! c = clientRoom s !! c.
Proof.
  intros Hj. destruct e as [|h|c' data now|i ok|c'|c' rs thr|c' now|].
  - reflexivity.
  - reflexivity.
  - simpl. destruct (lookup_socket c' (clients s)) as [ws|] eqn:Hws; [|reflexivity].
    destruct data as [|obj]; [reflexivity|]. simpl.
    destruct (nullish obj) eqn:Hn; [reflexivity|].
    destruct (strict_eq (classify obj) (VStr "join")) eqn:Hjoin.
    + rewrite try_await_rooms. simpl.
      rewrite lookup_insert_ne; [reflexivity|].
      apply lookup_socket_sid in Hws. simpl in Hj. rewrite Hn, Hjoin in Hj.
      simpl in Hj. rewrite !andb_true_r in Hj. apply Nat.eqb_neq in Hj. congruence.
    + destruct (strict_eq (classify obj) (VStr "typing")); [now rewrite finish_state|].
      destruct (strict_eq (classify obj) (VStr "message")); [|reflexivity].
      now rewrite try_await_rooms.
  - simpl. destruct (awaiting s !! i); [|reflexivity]. now rewrite resume_state.
  - reflexivity.
  - reflexivity.
  - now rewrite (proj1 (close_keeps_registry s c' now)).
  - now rewrite (proj1 (sweep_keeps_registry s)).
Qed.

Lemma run_room_entry evs : forall s c,
  forallb (fun e => negb (joins c e)) evs = true ->
  clientRoom (run s evs).1 !! c = clientRoom s !! c.
Proof.
  induction evs as [|e evs IH]; intros s c H; [reflexivity|].
  simpl in H. apply andb_prop in H as [He Hevs]. apply negb_true_iff in He.
  simpl. destruct (step s e) as [s1 e1] eqn:E1.
  destruct (run s1 evs) as [s2 e2] eqn:E2. simpl.
  change s2 with (s2, e2).1. rewrite <- E2, (IH _ _ Hevs).
  change s1 with (s1, e1).1. rewrite <- E1. now apply step_room_entry.
Qed.

(** The profile entry of a socket is written when it connects, under a new
    name, and never again. *)
Lemma step_profile_entry s e c :
  c < fresh s ->
  clientProfile (step s e).1 !! c = clientProfile s !! c /\ c < fresh (step s e).1.
Proof.
  intros Hc.
  assert (Ht : forall s0 op k, clientProfile (try_await s0 op k).1 = clientProfile s0
                               /\ fresh (try_await s0 op k).1 = fresh s0).
  { intros s0 op k. unfold try_await.
    destruct (db s0); [now split | now rewrite resume_state]. }
  destruct e as [|h|c' data now|i ok|c'|c' rs thr|c' now|].
  - now split.
  - simpl. split; [|lia]. apply lookup_insert_ne. lia.
  - simpl. destruct (lookup_socket c' (clients s)) as [ws|]; [|now split].
    destruct data as [|obj]; [now split|]. simpl.
    destruct (nullish obj); [now split|].
    destruct (strict_eq (classify obj) (VStr "join")).
    { destruct (Ht (set_clientRoom (<[sid ws:=prop obj "room"]> (clientRoom s)) s)
                  (UpdateProfile (ipHash ws) true now true)
                  (KJoin (prop obj "room") (ipHash ws))) as [-> ->]. now split. }
    destruct (strict_eq (classify obj) (VStr "typing")); [now rewrite finish_state|].
    destruct (strict_eq (classify obj) (VStr "message")); [|now split].
    destruct (Ht s (InsertMessage (prop obj "room") (prop obj "payload") now)
                (KMessage (prop obj "room") (prop obj "payload") now)) as [-> ->].
    now split.
  - simpl. destruct (awaiting s !! i); [|now split]. now rewrite resume_state.
  - now split.
  - now split.
  - rewrite (proj2 (close_keeps_registry s c' now)). split; [reflexivity|].
    simpl. destruct (lookup_socket c' (clients s)); [|exact Hc].
    now destruct (on_close_clients
                    (set_clients (filter (fun k => sid k ≠ c') (clients s)) s) c' now)
      as [_ ->].
  - rewrite (proj2 (sweep_keeps_registry s)). split; [reflexivity|].
    simpl. now destruct (sweep_clients s) as (_ & _ & ->).
Qed.

Lemma run_profile_entry evs : forall s c,
  c < fresh s ->
  clientProfile (run s evs).1 !! c = clientProfile s !! c /\ c < fresh (run s evs).1.
Proof.
  induction evs as [|e evs IH]; intros s c Hc; [now split|].
  simpl. destruct (step s e) as [s1 e1] eqn:E1.
  destruct (run s1 evs) as [s2 e2] eqn:E2. simpl.
  destruct (step_profile_entry s e c Hc) as [H1 H2]. rewrite E1 in H1, H2.
  destruct (IH s1 c H2) as [H3 H4]. rewrite E2 in H3, H4. simpl in *.
  split; [congruence | exact H4].
Qed.

End Registry.

(** C7, refuted as stated: in the lobby peer 1 answers the probe and peer 0
    does not. The second sweep terminates peer 0, and its close takes it out
    of the client set and, once the profile update has settled, announces its
    departure to peer 1. Yet it is not removed from the registry: after all of
    this [clientRoom] still holds its room and [clientProfile] its hash. *)
Lemma silent_connection_stays_registered_cex :
  let r := Server.run lobby_state
             [Server.ESweep; Server.EPong 1; Server.ESweep;
              Server.EClose 0 9000; Server.ESettle 0 true] in
  terminated r.2 = [0]
  /\ map sid (Server.clients r.1) = [1]
  /\ sends r.2 = [(1, Presence lobby "hashA")]
  /\ Server.clientRoom r.1 !! 0 = Some lobby
  /\ Server.clientProfile r.1 !! 0 = Some "hashA".
Proof. vm_compute. repeat split; reflexivity. Qed.

(** C7, amended: a sweep terminates every client whose flag is down, and
    lowers the flag of every other client and probes it; a pong raises the
    flag of its socket. Consequently, from one sweep to the next, a client
    that sends no pong is not probed again: the next sweep terminates it,
    which takes it out of the open state, and the close event that follows
    takes it out of the client set. A silent connection is thus probed once
    and terminated one sweep later, before any further probe. It is not
    removed from the registry: the sweep and the close leave [clientRoom] and
    [clientProfile] as they are, and whatever follows, short of a [join] frame
    of the socket itself, its room entry stays, and its profile entry is the
    one it had throughout. *)
Theorem silent_connection_terminated (s : Server.state) (c : conn) :
  (forall k, k ∈ Server.clients s -> isAlive k = false ->
     sid k ∈ terminated (Server.step s Server.ESweep).2
     /\ terminate k ∈ Server.clients (Server.step s Server.ESweep).1)
  /\ (forall k, k ∈ Server.clients s -> isAlive k = true ->
        sid k ∈ probed (Server.step s Server.ESweep).2
        /\ set_isAlive false k ∈ Server.clients (Server.step s Server.ESweep).1)
  /\ (forall k, k ∈ Server.clients (Server.step s (Server.EPong c)).1 ->
        sid k = c -> isAlive k = true)
  /\ (forall evs,
        wf s -> c ∈ map sid (Server.clients s) ->
        forallb (fun e => negb (pongs c e)) evs = true ->
        let s1 := (Server.step s Server.ESweep).1 in
        let s2 := (Server.run s1 evs).1 in
        let r := Server.step s2 Server.ESweep in
        (c ∉ probed (Server.run s1 evs).2)
        /\ (c ∉ probed r.2)
        /\ (c ∈ map sid (Server.clients s2) -> c ∈ terminated r.2)
        /\ (forall k, k ∈ Server.clients r.1 -> sid k = c ->
              readyState k ≠ OPEN /\ isAlive k = false)
        /\ (forall now,
              c ∉ map sid (Server.clients (Server.step r.1 (Server.EClose c now)).1))
        /\ (forall now later,
              forallb (fun e => negb (joins c e)) later = true ->
              let s3 := (Server.step r.1 (Server.EClose c now)).1 in
              let s4 := (Server.run s3 later).1 in
              Server.clientRoom s3 = Server.clientRoom s2
              /\ Server.clientProfile s3 = Server.clientProfile s2
              /\ Server.clientRoom s4 !! c = Server.clientRoom s2 !! c
              /\ Server.clientProfile s4 !! c = Server.clientProfile s !! c)).
Proof.
  split; [|split; [|split]].
  - intros k Hin Ha. simpl. destruct (sweep_clients s) as (-> & -> & _). split.
    + apply sweep_effects. now exists k.
    + apply list_elem_of_fmap. exists k. now rewrite (sweep_one_dead _ Ha).
  - intros k Hin Ha. simpl. destruct (sweep_clients s) as (-> & -> & _). split.
    + apply sweep_effects. now exists k.
    + apply list_elem_of_fmap. exists k. now rewrite (sweep_one_alive _ Ha).
  - simpl. intros k' Hin Hk. apply update_elem in Hin as (k & _ & ->).
    destruct (Nat.eqb (sid k) c) eqn:E; [reflexivity|].
    apply Nat.eqb_neq in E. congruence.
  - intros evs [_ Hlt] Hc Hevs s1 s2 r.
    assert (Hfresh : c < Server.fresh s).
    { apply list_elem_of_fmap in Hc as (k & -> & Hin). now apply Hlt. }
    assert (H1 : flag_down c s1) by now apply sweep_flag_down.
    destruct (run_flag_down evs s1 c Hevs H1) as [H2 Hnp].
    fold s2 in H2. split; [exact Hnp|]. split; [now apply step_probe_free|].
    destruct H2 as [Hdown _].
    split; [|split; [|split; [intros now; apply close_removes|]]].
    + unfold r; simpl.
      destruct (sweep_clients s2) as (Hcl & Heff & _); rewrite ?Hcl, ?Heff.
      intros Hin. apply list_elem_of_fmap in Hin as (k & Hk & Hin).
      apply sweep_effects. exists k. repeat split; auto.
    + unfold r; simpl.
      destruct (sweep_clients s2) as (Hcl & Heff & _); rewrite ?Hcl, ?Heff.
      intros k' Hin Hk. apply list_elem_of_fmap in Hin as (k & -> & Hin).
      rewrite sweep_one_sid in Hk. split; [|apply sweep_one_flag].
      rewrite (sweep_one_dead _ (Hdown k Hin Hk)). simpl. unfold terminate.
      destruct (Nat.eqb (readyState k) CLOSED) eqn:E.
      * apply Nat.eqb_eq in E. rewrite E. discriminate.
      * simpl. discriminate.
    + intros now later Hj s3 s4.
      assert (Hr3 : Server.clientRoom s3 = Server.clientRoom r.1)
        by apply close_keeps_registry.
      assert (Hp3 : Server.clientProfile s3 = Server.clientProfile r.1)
        by apply close_keeps_registry.
      assert (Hr2 : Server.clientRoom r.1 = Server.clientRoom s2)
        by apply sweep_keeps_registry.
      assert (Hp2 : Server.clientProfile r.1 = Server.clientProfile s2)
        by apply sweep_keeps_registry.
      split; [congruence|]. split; [congruence|]. split.
      * assert (H4 : Server.clientRoom s4 !! c = Server.clientRoom s3 !! c)
          by apply (run_room_entry later s3 c Hj).
        congruence.
      * assert (Ha : Server.clientProfile s1 !! c = Server.clientProfile s !! c
                     /\ c < Server.fresh s1)
          by apply (step_profile_entry s Server.ESweep c Hfresh).
        destruct Ha as [Ha Hb].
        assert (Hc2 : Server.clientProfile s2 !! c = Server.clientProfile s1 !! c
                      /\ c < Server.fresh s2)
          by apply (run_profile_entry evs s1 c Hb).
        destruct Hc2 as [Hc2 Hd].
        assert (He : Server.clientProfile r.1 !! c = Server.clientProfile s2 !! c
                     /\ c < Server.fresh r.1)
          by apply (step_profile_entry s2 Server.ESweep c Hd).
        destruct He as [He Hf].
        assert (Hg : Server.clientProfile s3 !! c = Server.clientProfile r.1 !! c
                     /\ c < Server.fresh s3)
          by apply (step_profile_entry r.1 (Server.EClose c now) c Hf).
        destruct Hg as [Hg Hh].
        assert (Hi : Server.clientProfile s4 !! c = Server.clientProfile s3 !! c)
          by apply (run_profile_entry later s3 c Hh).
        congruence.
Qed.

Lemma silent_connection_terminated_witness :
  0 ∈ terminated
        (Server.step (Server.run (Server.step lobby_state Server.ESweep).1
                        [Server.EPong 1]).1 Server.ESweep).2.
Proof.
  pose proof (silent_connection_terminated lobby_state 0) as (_ & _ & _ & H).
  assert (Hwf : wf lobby_state) by apply (wf_run two_in_lobby _ wf_initial).
  assert (Hin : 0 ∈ map sid (Server.clients lobby_state)) by (vm_compute; left).
  destruct (H [Server.EPong 1] Hwf Hin eq_refl) as (_ & _ & Ht & _).
  apply Ht. vm_compute. left.
Defined.

(** ** C8: the close handler *)

Lemma try_await_profile s op k :
  Server.clientProfile (Server.try_await s op k).1 = Server.clientProfile s.
Proof.
  unfold Server.try_await. destruct (Server.db s); [reflexivity | now rewrite resume_state].
Qed.

(** C8, refuted as stated: both peers joined the room named by the empty
    string, and the join presence was broadcast to that room; peer 0 closes.
    The registry gives [""] for its room, which [if (room)] takes for no room:
    the profile is marked offline and no departure event is sent to peer 1.
    After the handler has run, the registry maps still hold the entries of the
    closed socket; what the close has removed is its membership of the client
    set. In the lobby the same close does announce the departure. *)
Lemma close_without_departure_cex :
  let r := Server.run nameless_room_state [Server.EClose 0 5000; Server.ESettle 0 true] in
  Server.clientRoom nameless_room_state !! 0 = Some (VStr "")
  /\ Server.clientRoom nameless_room_state !! 1 = Some (VStr "")
  /\ map readyState (Server.clients r.1) = [OPEN]
  /\ r.2 = [Db (UpdateProfile "hashA" false 5000 false)]
  /\ Server.clientRoom r.1 !! 0 = Some (VStr "")
  /\ Server.clientProfile r.1 !! 0 = Some "hashA"
  /\ (Server.run lobby_state [Server.EClose 0 5000; Server.ESettle 0 true]).2 =
       [Db (UpdateProfile "hashA" false 5000 false); Send 1 (Presence lobby "hashA")].
Proof. vm_compute. repeat split; reflexivity. Qed.

(** C8, amended: when a client closes, the server drops the socket from its
    client set and the close handler reads the socket's room and profile hash
    from the registry maps. With a profile hash at hand it issues the update
    that marks the profile offline and awaits it; whatever the outcome, it
    then broadcasts to the room it read the presence event of a join (room
    and profile hash, no typing, no payload), provided that room is truthy: a
    socket with no room, or with the empty string for a room, is not
    announced. The handler leaves both registry maps as they are: it deletes
    no entry. *)
Theorem close_marks_offline_and_announces (s : Server.state) (c : conn) (now : Z)
    (ws : socket) (h : string) :
  lookup_socket c (Server.clients s) = Some ws ->
  Server.clientProfile s !! c = Some h ->
  h ≠ "" ->
  let room := roomOf (Server.clientRoom s) c in
  let r := Server.step s (Server.EClose c now) in
  (Server.db s = true ->
     r.2 = [Db (UpdateProfile h false now false)]
     /\ Server.awaiting r.1 = Server.awaiting s ++ [Server.KClose room h])
  /\ (Server.db s = false ->
       r = Server.resume
             (Server.set_clients (filter (fun k => sid k ≠ c) (Server.clients s)) s)
             (Server.KClose room h) false)
  /\ (c ∉ map sid (Server.clients r.1))
  /\ Server.clientRoom r.1 = Server.clientRoom s
  /\ Server.clientProfile r.1 = Server.clientProfile s
  /\ (forall s' ok, truthy room = true ->
        Server.resume s' (Server.KClose room h) ok =
          Server.finish s' (Server.broadcast s' room (Presence room h))
        /\ Server.resume s' (Server.KClose room h) ok =
             Server.resume s' (Server.KJoin room h) ok)
  /\ (forall s' ok, truthy room = false ->
        Server.resume s' (Server.KClose room h) ok = (s', [])).
Proof.
  intros Hws Hp Hh room r.
  assert (Hr : r = Server.try_await
                     (Server.set_clients (filter (fun k => sid k ≠ c) (Server.clients s)) s)
                     (UpdateProfile h false now false) (Server.KClose room h)).
  { unfold r. simpl. rewrite Hws. unfold Server.on_close. simpl. rewrite Hp.
    apply String.eqb_neq in Hh. now rewrite Hh. }
  split; [|split; [|split; [|split; [|split; [|split]]]]].
  - intros Hdb. rewrite Hr. unfold Server.try_await. simpl. now rewrite Hdb.
  - intros Hdb. rewrite Hr. unfold Server.try_await. simpl. now rewrite Hdb.
  - apply close_removes.
  - rewrite Hr. now rewrite try_await_rooms.
  - rewrite Hr. now rewrite try_await_profile.
  - intros s' ok Ht. simpl. now rewrite Ht.
  - intros s' ok Ht. simpl. now rewrite Ht.
Qed.

Lemma close_marks_offline_and_announces_witness :
  (Server.step lobby_state (Server.EClose 0 5000)).2 =
    [Db (UpdateProfile "hashA" false 5000 false)]
  /\ Server.awaiting (Server.step lobby_state (Server.EClose 0 5000)).1 =
       [Server.KClose lobby "hashA"].
Proof.
  pose proof (close_marks_offline_and_announces lobby_state 0 5000
                (Socket 0 OPEN true "hashA" false) "hashA" eq_refl eq_refl) as H.
  assert (Hne : "hashA" ≠ "") by discriminate.
  destruct (H Hne) as (H1 & _). exact (H1 eq_refl).
Defined.

(** ** Two runs, end to end *)

(** A and B join the lobby; A sends a message: once the insert has settled
    both receive it; A closes: B receives the presence event with A's hash. *)
Example lobby_scenario :
  sends (Server.run lobby_state
           [ Server.EFrame 0 (message_frame 102 lobby (VStr "hi")) 2000;
             Server.ESettle 0 true;
             Server.EClose 0 5000;
             Server.ESettle 0 true ]).2 =
    [ (0, Message lobby (VStr "hi") 2000);
      (1, Message lobby (VStr "hi") 2000);
      (1, Presence lobby "hashA") ].
Proof. vm_compute. reflexivity. Qed.

(** B joins the lobby and at once the den, before the first profile update
    has settled; the presence event of the first join, after the await, goes
    to the lobby and no longer reaches B, nor does a later message to the
    lobby. *)
Example rejoin_scenario :
  sends (Server.run lobby_state
           [ Server.EFrame 1 (join_frame 103 lobby) 3000;
             Server.EFrame 1 (join_frame 104 (VStr "den")) 3001;
             Server.ESettle 0 true;
             Server.ESettle 0 true;
             Server.EFrame 0 (message_frame 105 lobby (VStr "hi")) 3002;
             Server.ESettle 0 true ]).2 =
    [ (0, Presence lobby "hashB");
      (1, Presence (VStr "den") "hashB");
      (0, Message lobby (VStr "hi") 3002) ].
Proof. vm_compute. reflexivity. Qed.

(** * Further properties of the relay core *)

(** ** What a step acts on *)

Section Targets.

Import Server.

Lemma touched_app (a b : list effect) c :
  c ∈ touched (a ++ b) <-> c ∈ touched a \/ c ∈ touched b.
Proof.
  unfold touched. rewrite sends_app, probed_app, terminated_app, map_app.
  rewrite !elem_of_app. tauto.
Qed.

Lemma touched_nil c : c ∉ touched [].
Proof. intros H. inversion H. Qed.

Lemma run_cons s e evs :
  run s (e :: evs) =
    ((run (step s e).1 evs).1, (step s e).2 ++ (run (step s e).1 evs).2).
Proof.
  cbn [run]. destruct (step s e) as [s1 e1]. cbn [fst snd].
  now destruct (run s1 evs).
Qed.

Lemma fan_out_touched rooms room msg cs c :
  c ∈ touched (fan_out rooms room msg cs).1 -> c ∈ map sid cs.
Proof.
  unfold touched. destruct (fan_out_only_sends rooms room msg cs) as (_ & -> & ->).
  rewrite !app_nil_r. intros H.
  apply list_elem_of_fmap in H as ([c' m] & -> & H).
  apply fan_out_only_listeners in H as [_ (k & Hin & <- & _)]. simpl.
  now apply (list_elem_of_fmap_2 sid).
Qed.

Lemma finish_touched s r c : c ∈ touched (finish s r).2 -> c ∈ touched r.1.
Proof.
  destruct r as [es []]; simpl; [auto|]. intros H.
  apply touched_app in H as [H|H]; [exact H | inversion H].
Qed.

Lemma resume_touched s k ok c :
  c ∈ touched (resume s k ok).2 -> c ∈ map sid (clients s).
Proof.
  destruct k; unfold resume.
  - intros H. apply finish_touched in H. now apply fan_out_touched in H.
  - pose proof (fan_out_touched (clientRoom s) room (Message room payload timestamp)
                  (clients s) c) as Hf. unfold broadcast.
    destruct (fan_out _ _ _ _) as [es r]. intros H. apply finish_touched in H.
    cbn [fst] in *. apply touched_app in H as [H|H]; [|now apply Hf].
    destruct ok; inversion H.
  - destruct (truthy room); [|intros H; inversion H].
    intros H. apply finish_touched in H. now apply fan_out_touched in H.
Qed.

Lemma try_await_touched s op k c :
  c ∈ touched (try_await s op k).2 -> c ∈ map sid (clients s).
Proof.
  unfold try_await. destruct (db s); [intros H; inversion H | apply resume_touched].
Qed.

(** A step sends to, probes and terminates only sockets that were clients
    when it began. *)
Lemma step_touched s e c :
  c ∈ touched (step s e).2 -> c ∈ map sid (clients s).
Proof.
  destruct e as [|h|c' data now|i ok|c'|c' rs thr|c' now|]; simpl;
    try (intros H; inversion H; fail).
  - destruct (lookup_socket c' (clients s)) as [ws|]; [|intros H; inversion H].
    destruct data as [|obj]; [intros H; inversion H|]. simpl.
    destruct (nullish obj); [intros H; inversion H|].
    destruct (strict_eq (classify obj) (VStr "join")).
    { intros H. now apply try_await_touched in H. }
    destruct (strict_eq (classify obj) (VStr "typing")).
    { intros H. apply finish_touched in H. now apply fan_out_touched in H. }
    destruct (strict_eq (classify obj) (VStr "message")); [|intros H; inversion H].
    apply try_await_touched.
  - destruct (awaiting s !! i); [|intros H; inversion H].
    intros H. now apply resume_touched in H.
  - destruct (lookup_socket c' (clients s)); [|intros H; inversion H].
    unfold on_close. simpl.
    destruct (clientProfile s !! c') as [h|]; [|intros H; inversion H].
    destruct (negb (String.eqb h "")); [|intros H; inversion H].
    intros H. apply try_await_touched in H. simpl in H.
    apply list_elem_of_fmap in H as (k & -> & H).
    apply list_elem_of_filter in H as [_ H]. now apply list_elem_of_fmap_2.
  - destruct (sweep_clients s) as (_ & -> & _). unfold touched.
    assert (Hs : forall l, sends (flat_map (fun k => (sweep_one k).2) l) = []).
    { induction l as [|k l IH]; [reflexivity|]. simpl. rewrite sends_app, IH.
      unfold sweep_one. now destruct (negb (isAlive k)). }
    rewrite Hs. simpl. intros H. apply elem_of_app in H as [H|H];
      apply sweep_effects in H as (k & Hin & <- & _); now apply list_elem_of_fmap_2.
Qed.

(** A name that has left the client set never comes back. *)
Lemma step_absent s e c : absent c s -> absent c (step s e).1.
Proof.
  intros [Hout Hc].
  destruct e as [|h|c' data now|i ok|c'|c' rs thr|c' now|]; simpl.
  - now split.
  - split; simpl; [|lia]. rewrite map_app. simpl. intros H.
    apply elem_of_app in H as [H|H]; [auto|].
    apply list_elem_of_singleton in H. lia.
  - destruct (lookup_socket c' (clients s)) as [ws|]; [|now split].
    destruct (on_message_clients s ws now data) as [Hcl Hf].
    unfold absent. rewrite Hcl, Hf. now split.
  - destruct (awaiting s !! i); [|now split]. rewrite resume_state. now split.
  - split; simpl; [|exact Hc]. now rewrite update_sids.
  - split; simpl; [|exact Hc]. now rewrite update_sids.
  - destruct (lookup_socket c' (clients s)); [|now split].
    destruct (on_close_clients (set_clients (filter (fun k => sid k ≠ c') (clients s)) s) c' now)
      as [Hcl Hf].
    unfold absent. rewrite Hcl, Hf. simpl. split; [|exact Hc]. intros H.
    apply list_elem_of_fmap in H as (k & -> & H).
    apply list_elem_of_filter in H as [_ H]. apply Hout. now apply list_elem_of_fmap_2.
  - destruct (sweep_clients s) as (Hcl & _ & Hf). unfold absent. rewrite Hcl, Hf.
    split; [|exact Hc]. rewrite map_map. erewrite map_ext; [exact Hout|].
    intros k. apply sweep_one_sid.
Qed.

Lemma run_absent evs : forall s c,
  absent c s -> absent c (run s evs).1 /\ c ∉ touched (run s evs).2.
Proof.
  induction evs as [|e evs IH]; intros s c Ha.
  - split; [exact Ha | apply touched_nil].
  - pose proof (step_absent s e c Ha) as H1.
    pose proof (step_touched s e c) as H2.
    simpl. destruct (step s e) as [s1 e1]. simpl in *.
    destruct (IH s1 c H1) as [H3 H4].
    destruct (run s1 evs) as [s2 e2]. simpl in *. split; [exact H3|].
    intros H. apply touched_app in H as [H|H]; [|auto].
    destruct Ha as [Hout _]. auto.
Qed.

End Targets.

(** X1: once a connection has closed, the server never acts on it again:
    whatever events follow, it is sent no message and no probe, it is not
    terminated, and it does not reappear among the clients. *)
Theorem closed_connection_left_alone (s : Server.state) (c : conn) (now : Z)
    (evs : list Server.event) :
  c < Server.fresh s ->
  let r := Server.run s (Server.EClose c now :: evs) in
  (forall m, (c, m) ∉ sends r.2)
  /\ (c ∉ probed r.2)
  /\ (c ∉ terminated r.2)
  /\ (c ∉ map sid (Server.clients r.1)).
Proof.
  intros Hc r.
  assert (Ha : absent c (Server.step s (Server.EClose c now)).1).
  { split; [apply close_removes|].
    simpl. destruct (lookup_socket c (Server.clients s)); [|exact Hc].
    now destruct (on_close_clients
      (Server.set_clients (filter (fun k => sid k ≠ c) (Server.clients s)) s) c now) as [_ ->]. }
  assert (H0 : c ∉ touched (Server.step s (Server.EClose c now)).2).
  { intros H. simpl in H. destruct (lookup_socket c (Server.clients s)); [|inversion H].
    unfold Server.on_close in H. simpl in H.
    destruct (Server.clientProfile s !! c) as [h|]; [|inversion H].
    destruct (negb (String.eqb h "")); [|inversion H].
    apply try_await_touched in H. simpl in H.
    apply list_elem_of_fmap in H as (k & Hk & H).
    apply list_elem_of_filter in H as [Hne _]. congruence. }
  assert (Hr : (c ∉ touched r.2) /\ (c ∉ map sid (Server.clients r.1))).
  { unfold r. rewrite run_cons. cbn [fst snd].
    destruct (run_absent evs _ c Ha) as [[H1 _] H2]. split; [|exact H1].
    intros H. apply touched_app in H as [H|H]; auto. }
  destruct Hr as [Ht Hcl]. unfold touched in Ht.
  repeat split; try exact Hcl.
  - intros m H. apply Ht, elem_of_app. left.
    now apply (list_elem_of_fmap_2 fst) in H.
  - intros H. apply Ht. rewrite !elem_of_app. auto.
  - intros H. apply Ht. rewrite !elem_of_app. auto.
Qed.

Lemma closed_connection_left_alone_witness :
  0 ∉ probed (Server.run lobby_state
                [Server.EClose 0 5000; Server.ESettle 0 true; Server.ESweep;
                 Server.EFrame 1 (message_frame 106 lobby (VStr "hi")) 5001;
                 Server.ESettle 0 true]).2.
Proof.
  assert (H : 0 < Server.fresh lobby_state) by (vm_compute; lia).
  exact (proj1 (proj2 (closed_connection_left_alone lobby_state 0 5000
                         [Server.ESettle 0 true; Server.ESweep;
                          Server.EFrame 1 (message_frame 106 lobby (VStr "hi")) 5001;
                          Server.ESettle 0 true] H))).
Defined.

(** ** The sweep and the connections that answer *)

Section Responsive.

Import Server.

Lemma run_app a : forall s b,
  run s (a ++ b) =
    ((run (run s a).1 b).1, (run s a).2 ++ (run (run s a).1 b).2).
Proof.
  induction a as [|e a IH]; intros s b.
  - simpl. now destruct (run s b).
  - rewrite <- app_comm_cons, !run_cons, IH. cbn [fst snd]. now rewrite app_assoc.
Qed.

(** A handler other than the sweep terminates nothing. *)
Lemma step_no_terminate s e : sweeps e = false -> terminated (step s e).2 = [].
Proof.
  assert (Hf : forall s0 r, terminated r.1 = [] -> terminated (finish s0 r).2 = []).
  { intros s0 [es []] H; simpl in *; [exact H|]. now rewrite terminated_app, H. }
  assert (Hb : forall s0 room msg, terminated (broadcast s0 room msg).1 = []).
  { intros. apply fan_out_only_sends. }
  assert (Hr : forall s0 k ok, terminated (resume s0 k ok).2 = []).
  { intros s0 [] ok; unfold resume.
    - now apply Hf.
    - pose proof (Hb s0 room (Message room payload timestamp)) as Hb'.
      destruct (broadcast s0 room (Message room payload timestamp)) as [es r].
      apply Hf. cbn [fst] in *. rewrite terminated_app, Hb'. now destruct ok.
    - destruct (truthy room); [now apply Hf | reflexivity]. }
  assert (Ht : forall s0 op k, terminated (try_await s0 op k).2 = []).
  { intros. unfold try_await. destruct (db s0); [reflexivity | apply Hr]. }
  intros Hne. destruct e as [|h|c' data now|i ok|c'|c' rs thr|c' now|]; simpl;
    try reflexivity; try discriminate.
  - destruct (lookup_socket c' (clients s)) as [ws|]; [|reflexivity].
    destruct data as [|obj]; [reflexivity|]. simpl.
    destruct (nullish obj); [reflexivity|].
    destruct (strict_eq (classify obj) (VStr "join")); [apply Ht|].
    destruct (strict_eq (classify obj) (VStr "typing")); [now apply Hf|].
    destruct (strict_eq (classify obj) (VStr "message")); [apply Ht | reflexivity].
  - destruct (awaiting s !! i); [apply Hr | reflexivity].
  - destruct (lookup_socket c' (clients s)); [|reflexivity].
    unfold on_close. simpl. destruct (clientProfile s !! c') as [h|]; [|reflexivity].
    destruct (negb (String.eqb h "")); [apply Ht | reflexivity].
Qed.

(** Only the sweep lowers a flag. *)
Lemma step_flag_up s e c :
  sweeps e = false -> flag_up c s -> flag_up c (step s e).1.
Proof.
  intros Hne Hup.
  destruct e as [|h|c' data now|i ok|c'|c' rs thr|c' now|]; simpl;
    try discriminate; try exact Hup.
  - intros k Hin Hk. apply elem_of_app in Hin as [Hin|Hin]; [now apply Hup|].
    apply list_elem_of_singleton in Hin. now subst k.
  - destruct (lookup_socket c' (clients s)) as [ws|]; [|exact Hup].
    destruct (on_message_clients s ws now data) as [Hcl _].
    unfold flag_up. now rewrite Hcl.
  - destruct (awaiting s !! i); [|exact Hup]. now rewrite resume_state.
  - intros k' Hin Hk. apply update_elem in Hin as (k & Hin & ->).
    destruct (Nat.eqb (sid k) c'); [reflexivity | now apply Hup].
  - intros k' Hin Hk. apply update_elem in Hin as (k & Hin & ->).
    destruct (Nat.eqb (sid k) c'); [simpl in *|]; now apply Hup.
  - destruct (lookup_socket c' (clients s)); [|exact Hup].
    destruct (on_close_clients (set_clients (filter (fun k => sid k ≠ c') (clients s)) s) c' now)
      as [Hcl _].
    unfold flag_up. rewrite Hcl. simpl. intros k Hin.
    apply list_elem_of_filter in Hin as [_ Hin]. now apply Hup.
Qed.

Lemma run_flag_up evs : forall s c,
  forallb (fun e => negb (sweeps e)) evs = true ->
  flag_up c s ->
  flag_up c (run s evs).1 /\ terminated (run s evs).2 = [].
Proof.
  induction evs as [|e evs IH]; intros s c H Hup; [now split|].
  simpl in H. apply andb_prop in H as [He Hevs]. apply negb_true_iff in He.
  rewrite run_cons. cbn [fst snd].
  destruct (IH _ c Hevs (step_flag_up s e c He Hup)) as [H1 H2].
  split; [exact H1|]. now rewrite terminated_app, (step_no_terminate _ _ He), H2.
Qed.

(** A sweep terminates no client whose flag is up, and probes each one. *)
Lemma sweep_spares s c :
  flag_up c s ->
  (c ∉ terminated (step s ESweep).2)
  /\ (c ∈ map sid (clients s) -> c ∈ probed (step s ESweep).2).
Proof.
  intros Hup. simpl. destruct (sweep_clients s) as (_ & -> & _). split.
  - intros H. apply sweep_effects in H as (k & Hin & Hk & Ha).
    rewrite (Hup k Hin Hk) in Ha. discriminate.
  - intros H. apply list_elem_of_fmap in H as (k & Hk & Hin).
    apply sweep_effects. exists k. repeat split; auto.
Qed.

End Responsive.

(** X2: a connection that has answered a probe, or that has just been
    accepted, is not terminated by the next sweep, whatever happens in
    between: the sweep finds its flag up and, if the connection is still
    among the clients, probes it and goes on. Nothing but the sweep terminates
    a connection: events that are no sweep terminate none, and a sweep
    terminates only clients whose flag is down. *)
Theorem answering_connection_survives_sweep (s : Server.state) (c : conn)
    (evs : list Server.event) :
  forallb (fun e => negb (sweeps e)) evs = true ->
  (c ∉ terminated (Server.run s (Server.EPong c :: evs ++ [Server.ESweep])).2)
  /\ (c ∈ map sid (Server.clients (Server.run s (Server.EPong c :: evs)).1) ->
      c ∈ probed (Server.run s (Server.EPong c :: evs ++ [Server.ESweep])).2)
  /\ (wf s -> forall h,
        (Server.fresh s ∉
           terminated (Server.run s (Server.EConnection h :: evs ++ [Server.ESweep])).2)
        /\ (Server.fresh s ∈
              map sid (Server.clients (Server.run s (Server.EConnection h :: evs)).1) ->
            Server.fresh s ∈
              probed (Server.run s (Server.EConnection h :: evs ++ [Server.ESweep])).2))
  /\ terminated (Server.run s evs).2 = []
  /\ (forall d, d ∈ terminated (Server.step s Server.ESweep).2 ->
        exists k, k ∈ Server.clients s /\ sid k = d /\ isAlive k = false).
Proof.
  intros Hevs.
  assert (Hgen : forall s0 e c0,
            sweeps e = false -> flag_up c0 (Server.step s0 e).1 ->
            (c0 ∉ terminated (Server.run s0 (e :: evs ++ [Server.ESweep])).2)
            /\ (c0 ∈ map sid (Server.clients (Server.run s0 (e :: evs)).1) ->
                c0 ∈ probed (Server.run s0 (e :: evs ++ [Server.ESweep])).2)).
  { intros s0 e c0 He Hup.
    rewrite !run_cons, run_app. cbn [fst snd].
    destruct (run_flag_up evs _ c0 Hevs Hup) as [Hup' Ht].
    set (s2 := (Server.run (Server.step s0 e).1 evs).1) in *.
    destruct (sweep_spares s2 c0 Hup') as [Hs Hp].
    rewrite (run_cons s2 Server.ESweep []). cbn [fst snd Server.run].
    rewrite app_nil_r. split.
    - rewrite !terminated_app, (step_no_terminate _ _ He), Ht. exact Hs.
    - intros Hin. rewrite !probed_app, !elem_of_app. right. right. now apply Hp. }
  split; [|split; [|split; [|split]]].
  - apply (Hgen s (Server.EPong c) c eq_refl). simpl.
    intros k' Hin Hk. apply update_elem in Hin as (k & _ & ->).
    destruct (Nat.eqb (sid k) c) eqn:E; [reflexivity|].
    apply Nat.eqb_neq in E. congruence.
  - apply (Hgen s (Server.EPong c) c eq_refl). simpl.
    intros k' Hin Hk. apply update_elem in Hin as (k & _ & ->).
    destruct (Nat.eqb (sid k) c) eqn:E; [reflexivity|].
    apply Nat.eqb_neq in E. congruence.
  - intros [_ Hlt] h. apply (Hgen s (Server.EConnection h) (Server.fresh s) eq_refl).
    simpl. intros k Hin Hk. apply elem_of_app in Hin as [Hin|Hin].
    + apply Hlt in Hin. lia.
    + apply list_elem_of_singleton in Hin. now subst k.
  - clear Hgen. revert s. induction evs as [|e evs IH]; intros s; [reflexivity|].
    simpl in Hevs. apply andb_prop in Hevs as [He Hevs]. apply negb_true_iff in He.
    rewrite run_cons. cbn [snd].
    now rewrite terminated_app, (step_no_terminate _ _ He), (IH Hevs).
  - intros d Hd. simpl in Hd. destruct (sweep_clients s) as (_ & Heff & _).
    rewrite Heff in Hd. now apply sweep_effects in Hd.
Qed.

Lemma answering_connection_survives_sweep_witness :
  1 ∉ terminated (Server.run (Server.step lobby_state Server.ESweep).1
                    [Server.EPong 1;
                     Server.EFrame 0 (typing_frame 107 lobby true) 6000;
                     Server.ESweep]).2.
Proof.
  exact (proj1 (answering_connection_survives_sweep
                  (Server.step lobby_state Server.ESweep).1 1
                  [Server.EFrame 0 (typing_frame 107 lobby true) 6000] eq_refl)).
Defined.

(** ** Peers that never join *)

Section Unjoined.

Import Server.

Lemma step_fresh_mono s e : fresh s <= fresh (step s e).1.
Proof.
  destruct e as [|h|c data now|i ok|c|c rs thr|c now|]; cbn [step].
  - simpl. lia.
  - simpl. lia.
  - destruct (lookup_socket c (clients s)) as [ws|]; [|simpl; lia].
    destruct (on_message_clients s ws now data) as [_ ->]. lia.
  - destruct (awaiting s !! i); [|simpl; lia]. rewrite resume_state. simpl. lia.
  - simpl. lia.
  - simpl. lia.
  - destruct (lookup_socket c (clients s)); [|simpl; lia].
    destruct (on_close_clients (set_clients (filter (fun k => sid k ≠ c) (clients s)) s) c now)
      as [_ ->]. simpl. lia.
  - destruct (sweep_clients s) as (_ & _ & ->). lia.
Qed.

(** Rooms are recorded for clients only, so for names already given out. *)
Lemma step_rooms_bounded s e :
  wf s -> rooms_bounded s -> rooms_bounded (step s e).1.
Proof.
  intros [_ Hlt] Hb c v Hcv.
  pose proof (step_fresh_mono s e) as Hm.
  assert (Hold : clientRoom (step s e).1 !! c = clientRoom s !! c ->
                 c < fresh (step s e).1).
  { intros E. rewrite E in Hcv. apply Hb in Hcv. lia. }
  destruct e as [|h|c' data now|i ok|c'|c' rs thr|c' now|]; simpl in *;
    try (now apply Hold).
  - destruct (lookup_socket c' (clients s)) as [ws|] eqn:Hws; [|now apply Hold].
    destruct data as [|obj]; [now apply Hold|]. simpl in *.
    destruct (nullish obj); [now apply Hold|].
    destruct (strict_eq (classify obj) (VStr "join")).
    + rewrite try_await_rooms in *. simpl in *.
      destruct (decide (sid ws = c)) as [<-|Hne].
      * apply lookup_socket_elem in Hws. apply Hlt in Hws. lia.
      * rewrite lookup_insert_ne in Hcv by exact Hne. apply Hb in Hcv. lia.
    + destruct (strict_eq (classify obj) (VStr "typing"));
        [rewrite finish_state in *; now apply Hold|].
      destruct (strict_eq (classify obj) (VStr "message")); [|now apply Hold].
      rewrite try_await_rooms in *. now apply Hold.
  - destruct (awaiting s !! i); [|now apply Hold].
    rewrite resume_state in *. now apply Hold.
  - destruct (lookup_socket c' (clients s)); [|now apply Hold].
    apply Hold. unfold on_close. simpl.
    destruct (clientProfile s !! c') as [h|]; [|reflexivity].
    destruct (negb (String.eqb h "")); [|reflexivity].
    now rewrite try_await_rooms.
  - apply Hold. unfold sweep. now destruct (sweep_all (clients s)).
Qed.

Lemma reachable_bounded evs : forall s,
  wf s -> rooms_bounded s ->
  wf (run s evs).1 /\ rooms_bounded (run s evs).1.
Proof.
  induction evs as [|e evs IH]; intros s Hw Hb; [now split|].
  rewrite run_cons. cbn [fst].
  apply IH; [now apply wf_step | now apply step_rooms_bounded].
Qed.

End Unjoined.

(** X3: in [server.js] a frame registers its sender only if it is a [join].
    At any point of the life of the server, a peer that connects and sends no
    [join] frame, whatever else it and the others send, is sent nothing but
    messages addressed to no room at all (a [room] that is [undefined]): no
    broadcast to a named room ever reaches it. *)
Theorem unjoined_peer_hears_no_room (before : list Server.event) (h : string)
    (evs : list Server.event) :
  let s := (Server.run Server.initial before).1 in
  let c := Server.fresh s in
  forallb (fun e => negb (joins c e)) evs = true ->
  forall m, (c, m) ∈ sends (Server.run s (Server.EConnection h :: evs)).2 ->
            msg_room m = VUndef.
Proof.
  intros s c Hevs m Hin.
  assert (Hinit : rooms_bounded Server.initial).
  { intros c0 v H. simpl in H. now rewrite lookup_empty in H. }
  destruct (reachable_bounded before Server.initial wf_initial Hinit) as [_ Hb].
  fold s in Hb.
  assert (Hnone : roomOf (Server.clientRoom s) c = VUndef).
  { unfold roomOf. destruct (Server.clientRoom s !! c) as [v|] eqn:E; [|reflexivity].
    apply Hb in E. unfold c in E. lia. }
  rewrite run_cons in Hin.
  set (s1 := (Server.step s (Server.EConnection h)).1) in *.
  assert (H1 : roomOf (Server.clientRoom s1) c = VUndef) by exact Hnone.
  assert (Hin' : (c, m) ∈ sends (Server.run s1 evs).2) by exact Hin.
  pose proof (run_addressed evs s1 c VUndef m H1 Hevs Hin') as H.
  destruct (msg_room m); simpl in H; try discriminate. reflexivity.
Qed.

Lemma unjoined_peer_hears_no_room_witness :
  (2, Message VUndef (VStr "hi") 7000)
    ∈ sends (Server.run lobby_state
               (Server.EConnection "hashC"
                :: [Server.EFrame 2 frame_without_room 7000;
                    Server.ESettle 0 true])).2
  /\ msg_room (Message VUndef (VStr "hi") 7000) = VUndef.
Proof.
  assert (H : (2, Message VUndef (VStr "hi") 7000)
                ∈ sends (Server.run lobby_state
                           (Server.EConnection "hashC"
                            :: [Server.EFrame 2 frame_without_room 7000;
                                Server.ESettle 0 true])).2)
    by (vm_compute; apply list_elem_of_here).
  split; [exact H|].
  exact (unjoined_peer_hears_no_room two_in_lobby "hashC"
           [Server.EFrame 2 frame_without_room 7000; Server.ESettle 0 true]
           eq_refl _ H).
Defined.

(** ** Where database calls come from *)

Section Calls.

Import Server.

Lemma db_calls_app (a b : list effect) : db_calls (a ++ b) = db_calls a ++ db_calls b.
Proof. induction a as [|[] a IH]; simpl; now rewrite ?IH. Qed.

Lemma finish_no_calls s r : db_calls r.1 = [] -> db_calls (finish s r).2 = [].
Proof. destruct r as [es []]; simpl; intros H; [exact H|]. now rewrite db_calls_app, H. Qed.

(** A resumed handler calls the database no more: a failed call is not
    tried again. *)
Lemma resume_no_calls s k ok : db_calls (resume s k ok).2 = [].
Proof.
  destruct k; unfold resume.
  - apply finish_no_calls, fan_out_only_sends.
  - pose proof (fan_out_only_sends (clientRoom s) room (Message room payload timestamp)
                  (clients s)) as (Hf & _). unfold broadcast.
    destruct (fan_out _ _ _ _) as [es r]. apply finish_no_calls.
    cbn [fst] in *. rewrite db_calls_app, Hf. now destruct ok.
  - destruct (truthy room); [|reflexivity]. apply finish_no_calls, fan_out_only_sends.
Qed.

Lemma try_await_calls s op k :
  db_calls (try_await s op k).2 = if db s then [op] else [].
Proof.
  unfold try_await. destruct (db s); [reflexivity | apply resume_no_calls].
Qed.

End Calls.

(** X4: the database is called by three handlers only. Whatever the state, a
    step of the event loop issues a call only for a [join] frame, a [message]
    frame or a close, one call at most, and none while [db] is unassigned. A
    typing frame, an unknown frame, a pong, a sweep and a transport change
    issue none, and so does a handler that resumes after its call settled:
    a failed update or insert is never tried again. *)
Theorem database_calls_origin (s : Server.state) (e : Server.event) :
  (calls_database e = false -> db_calls (Server.step s e).2 = [])
  /\ (Server.db s = false -> db_calls (Server.step s e).2 = [])
  /\ length (db_calls (Server.step s e).2) <= 1.
Proof.
  assert (Hlen : forall s0 op k, length (db_calls (Server.try_await s0 op k).2) <= 1).
  { intros. rewrite try_await_calls. destruct (Server.db s0); simpl; lia. }
  assert (Hdb : forall s0 op k, Server.db s0 = false ->
            db_calls (Server.try_await s0 op k).2 = []).
  { intros s0 op k H. now rewrite try_await_calls, H. }
  destruct e as [|h|c data now|i ok|c|c rs thr|c now|]; simpl;
    try (repeat split; auto; fail).
  - destruct (lookup_socket c (Server.clients s)) as [ws|]; [|repeat split; auto].
    destruct data as [|obj]; [repeat split; auto|]. simpl.
    destruct (nullish obj); [repeat split; auto|]. simpl.
    destruct (strict_eq (Server.classify obj) (VStr "join")).
    { repeat split; [discriminate | | apply Hlen]. intros H. now apply Hdb. }
    destruct (strict_eq (Server.classify obj) (VStr "typing")).
    { assert (H0 : db_calls (Server.finish s (Server.broadcast s (prop obj "room")
                     (Typing (prop obj "room") (ipHash ws) (truthy (prop obj "typing"))))).2 = [])
        by apply finish_no_calls, fan_out_only_sends.
      rewrite H0. repeat split; auto. }
    destruct (strict_eq (Server.classify obj) (VStr "message")); [|repeat split; auto].
    repeat split; [discriminate | | apply Hlen]. intros H. now apply Hdb.
  - destruct (Server.awaiting s !! i); [|repeat split; auto].
    rewrite resume_no_calls. repeat split; auto.
  - destruct (lookup_socket c (Server.clients s)); [|repeat split; auto].
    unfold Server.on_close. simpl.
    destruct (Server.clientProfile s !! c) as [h|]; [|repeat split; auto].
    destruct (negb (String.eqb h "")); [|repeat split; auto].
    repeat split; [discriminate | | apply Hlen]. intros H. now apply Hdb.
  - destruct (sweep_clients s) as (_ & -> & _).
    assert (Hs : forall l, db_calls (flat_map (fun k => (Server.sweep_one k).2) l) = []).
    { induction l as [|k l IH]; [reflexivity|]. simpl. rewrite db_calls_app, IH.
      unfold Server.sweep_one. now destruct (negb (isAlive k)). }
    rewrite Hs. repeat split; auto.
Qed.

Lemma database_calls_origin_witness :
  db_calls (Server.step lobby_state_inserting (Server.ESettle 0 false)).2 = []
  /\ db_calls (Server.step lobby_state_no_db
                 (Server.EFrame 0 (message_frame 102 lobby (VStr "hi")) 2000)).2 = [].
Proof.
  split.
  - exact (proj1 (database_calls_origin lobby_state_inserting (Server.ESettle 0 false))
             eq_refl).
  - exact (proj1 (proj2 (database_calls_origin lobby_state_no_db
                           (Server.EFrame 0 (message_frame 102 lobby (VStr "hi")) 2000)))
             eq_refl).
Defined.

(** ** The bare relay: a message is also a join *)

Section RelayFacts.

Lemma relay_accepts (s : Relay.state) (c : conn) (obj : val) :
  Relay.rejected obj = false ->
  Relay.clientRoom (Relay.on_message s c (Json obj)).1 =
    <[c := prop obj "room"]> (Relay.clientRoom s)
  /\ Relay.clients (Relay.on_message s c (Json obj)).1 = Relay.clients s
  /\ sends (Relay.on_message s c (Json obj)).2 =
       sends (fan_out (<[c := prop obj "room"]> (Relay.clientRoom s)) (prop obj "room")
                (Relayed (prop obj "room") (prop obj "payload")) (Relay.clients s)).1.
Proof.
  intros H. unfold Relay.on_message. rewrite H. cbn [Relay.clients Relay.clientRoom].
  destruct (fan_out _ _ _ _) as [es []]; cbn [fst snd]; repeat split.
  rewrite sends_app. simpl. now rewrite app_nil_r.
Qed.

Lemma relay_room_is_string (obj : val) :
  Relay.rejected obj = false -> exists r, prop obj "room" = VStr r.
Proof.
  unfold Relay.rejected. intros H. apply orb_false_elim in H as [H _].
  apply orb_false_elim in H as [_ H]. apply negb_false_iff in H.
  destruct (prop obj "room"); try discriminate. eauto.
Qed.

End RelayFacts.

(** X5: in the bare relay there is no join frame: every accepted message
    registers its sender to the room it names, replacing the room it had, and
    leaves the other sockets' rooms alone. So a socket that has sent a message
    to a room then receives, while it is open, the next message anyone sends
    to that room (no [send] in the room raising); and once it has sent a
    message to another room it no longer receives the messages that others
    send to the first. The relay only ever sends: it calls no database, and
    it probes and terminates nothing. *)
Theorem relay_message_is_a_join (s : Relay.state) (c d : conn) (obj1 obj2 : val) :
  Relay.rejected obj1 = false ->
  Relay.rejected obj2 = false ->
  let s1 := (Relay.on_message s c (Json obj1)).1 in
  let r := Relay.on_message s1 d (Json obj2) in
  Relay.clientRoom s1 !! c = Some (prop obj1 "room")
  /\ (forall e, e ≠ c -> Relay.clientRoom s1 !! e = Relay.clientRoom s !! e)
  /\ (forall k,
        k ∈ Relay.clients s -> sid k = c -> readyState k = OPEN ->
        prop obj2 "room" = prop obj1 "room" ->
        sound (Relay.clientRoom r.1) (prop obj2 "room") (Relay.clients s) = true ->
        (c, Relayed (prop obj2 "room") (prop obj2 "payload")) ∈ sends r.2)
  /\ (d ≠ c -> prop obj2 "room" ≠ prop obj1 "room" -> forall m, (c, m) ∉ sends r.2)
  /\ db_calls r.2 = [] /\ probed r.2 = [] /\ terminated r.2 = [].
Proof.
  intros H1 H2 s1 r.
  destruct (relay_accepts s c obj1 H1) as (Hr1 & Hc1 & _). fold s1 in Hr1, Hc1.
  destruct (relay_accepts s1 d obj2 H2) as (Hr2 & Hc2 & Hs2). fold r in Hr2, Hc2, Hs2.
  destruct (relay_room_is_string obj1 H1) as [r1 E1].
  destruct (relay_room_is_string obj2 H2) as [r2 E2].
  split; [|split; [|split; [|split]]].
  - now rewrite Hr1, lookup_insert_eq.
  - intros e He. rewrite Hr1. now apply lookup_insert_ne.
  - intros k Hin Hk Ho Hsame Hsound. rewrite Hs2, Hc1.
    rewrite Hr2 in Hsound. rewrite (fan_out_sound _ _ _ _ Hsound). cbn [fst].
    rewrite <- Hk. apply deliveries_reach; [exact Hin|].
    unfold listening. rewrite Ho, Hk. simpl. unfold roomOf.
    destruct (decide (d = c)) as [->|Hne].
    + rewrite lookup_insert_eq. simpl. rewrite E2. apply String.eqb_refl.
    + rewrite lookup_insert_ne, Hr1, lookup_insert_eq by exact Hne. simpl.
      rewrite Hsame, E1. apply String.eqb_refl.
  - intros Hne Hdiff m Hin. rewrite Hs2 in Hin.
    apply fan_out_only_listeners in Hin as [_ (k & _ & Hk & L)].
    unfold listening in L. apply andb_prop in L as [_ L]. unfold roomOf in L.
    rewrite Hk, lookup_insert_ne, Hr1, lookup_insert_eq in L by exact Hne. simpl in L.
    rewrite E1, E2 in *. simpl in L. apply String.eqb_eq in L. congruence.
  - unfold r, Relay.on_message. rewrite H2.
    pose proof (fan_out_only_sends
                  (<[d := prop obj2 "room"]> (Relay.clientRoom s1)) (prop obj2 "room")
                  (Relayed (prop obj2 "room") (prop obj2 "payload")) (Relay.clients s1))
      as (Ha & Hb & Hc).
    cbn [Relay.clients Relay.clientRoom].
    destruct (fan_out _ _ _ _) as [es []]; cbn [fst snd] in *;
      rewrite ?db_calls_app, ?probed_app, ?terminated_app, ?Ha, ?Hb, ?Hc; auto.
Qed.

Lemma relay_message_is_a_join_witness :
  let s := Relay.State [Socket 0 OPEN true "" false; Socket 1 OPEN true "" false] ∅ in
  let hello r := VObj 1 [("room", VStr r); ("payload", VStr "hi")] in
  (0, Relayed (VStr "den") (VStr "hi")) ∈
    sends (Relay.on_message (Relay.on_message s 0 (Json (hello "den"))).1 1
             (Json (hello "den"))).2.
Proof.
  intros s hello.
  pose proof (relay_message_is_a_join s 0 1 (hello "den") (hello "den") eq_refl eq_refl)
    as (_ & _ & H & _).
  apply (H (Socket 0 OPEN true "" false)); vm_compute; try reflexivity. left.
Defined.

(** * The address of a request *)

Section Address.

Import Net.

Lemma trim_start_lead s : lead_space (trim_start s) = false.
Proof.
  induction s as [|a s IH]; [reflexivity|]. simpl.
  destruct (is_space a) eqn:E; [exact IH | simpl; exact E].
Qed.

Lemma trim_start_id s : lead_space s = false -> trim_start s = s.
Proof. destruct s as [|a s]; [reflexivity|]. simpl. now intros ->. Qed.

Lemma trim_end_trail s : trail_space (trim_end s) = false.
Proof.
  induction s as [|a s IH]; [reflexivity|]. simpl.
  destruct (trim_end s) as [|b kept] eqn:E.
  - destruct (is_space a) eqn:Ea; [reflexivity | simpl; exact Ea].
  - exact IH.
Qed.

Lemma trim_end_id s : trail_space s = false -> trim_end s = s.
Proof.
  induction s as [|a s IH]; [reflexivity|]. intros H.
  destruct s as [|b s].
  - simpl in *. now rewrite H.
  - change (trail_space (String b s) = false) in H.
    change (trim_end (String a (String b s)))
      with (match trim_end (String b s) with
            | EmptyString => if is_space a then EmptyString else String a EmptyString
            | kept => String a kept
            end).
    now rewrite (IH H).
Qed.

Lemma trim_end_lead s : lead_space s = false -> lead_space (trim_end s) = false.
Proof.
  destruct s as [|a s]; [reflexivity|]. simpl. intros H.
  destruct (trim_end s); [rewrite H|]; simpl; exact H.
Qed.

Lemma trim_start_comma s : has_comma s = false -> has_comma (trim_start s) = false.
Proof.
  induction s as [|a s IH]; [reflexivity|]. simpl. intros H.
  apply orb_false_elim in H as [Ha Hs].
  destruct (is_space a); [now apply IH | simpl; now rewrite Ha, Hs].
Qed.

Lemma trim_end_comma s : has_comma s = false -> has_comma (trim_end s) = false.
Proof.
  induction s as [|a s IH]; [reflexivity|]. simpl. intros H.
  apply orb_false_elim in H as [Ha Hs]. specialize (IH Hs).
  destruct (trim_end s) as [|b kept].
  - destruct (is_space a); [reflexivity | simpl; now rewrite Ha].
  - change (has_comma (String a (String b kept)))
      with (Ascii.eqb a "," || has_comma (String b kept)). now rewrite Ha, IH.
Qed.

Lemma first_field_comma s : has_comma (first_field s) = false.
Proof.
  induction s as [|a s IH]; [reflexivity|]. simpl.
  destruct (Ascii.eqb a ",") eqn:E; [reflexivity | simpl; now rewrite E, IH].
Qed.

Lemma first_field_id s : has_comma s = false -> first_field s = s.
Proof.
  induction s as [|a s IH]; [reflexivity|]. simpl. intros H.
  apply orb_false_elim in H as [-> Hs]. now rewrite (IH Hs).
Qed.

Lemma first_field_append a b :
  has_comma a = false ->
  first_field (String.append a (String "," b)) = a.
Proof.
  induction a as [|x a IH]; [reflexivity|]. simpl. intros H.
  apply orb_false_elim in H as [-> Ha]. now rewrite (IH Ha).
Qed.

Lemma trim_clean s :
  has_comma s = false ->
  has_comma (trim s) = false /\ lead_space (trim s) = false
  /\ trail_space (trim s) = false.
Proof.
  intros H. unfold trim. split; [|split].
  - now apply trim_end_comma, trim_start_comma.
  - apply trim_end_lead, trim_start_lead.
  - apply trim_end_trail.
Qed.

Lemma trim_id s : lead_space s = false -> trail_space s = false -> trim s = s.
Proof. intros H1 H2. unfold trim. now rewrite (trim_start_id _ H1), (trim_end_id _ H2). Qed.

End Address.

(** X6: with a non-empty [x-forwarded-for] header, [clientIp] answers the
    first entry of the header, trimmed, and nothing of what follows the first
    comma; the socket address is not consulted, even when that first entry is
    blank. The answer has no comma and no white space at either end, so taking
    it as a header again gives it back. Without the header, or with an empty
    one, the answer is the socket address, and the empty string when there is
    none. *)
Theorem client_ip_first_forwarded_entry (first others : string)
    (remote : option string) :
  Net.has_comma first = false ->
  let ip := Net.clientIp (Some (String.append first (String "," others))) remote in
  ip = Net.trim first
  /\ (first ≠ "" -> Net.clientIp (Some first) remote = Net.trim first)
  /\ Net.has_comma ip = false
  /\ Net.lead_space ip = false
  /\ Net.trail_space ip = false
  /\ (ip ≠ "" -> Net.clientIp (Some ip) remote = ip)
  /\ Net.clientIp None remote = Net.or_str remote ""
  /\ Net.clientIp (Some "") remote = Net.or_str remote "".
Proof.
  intros Hc ip.
  assert (Hip : ip = Net.trim first).
  { assert (Hne : String.eqb (String.append first (String "," others)) "" = false)
      by (destruct first; reflexivity).
    unfold ip, Net.clientIp. rewrite Hne. cbn [negb].
    now rewrite first_field_append. }
  destruct (trim_clean first Hc) as (H1 & H2 & H3). rewrite <- Hip in H1, H2, H3.
  repeat split; auto.
  - intros Hne. unfold Net.clientIp. apply String.eqb_neq in Hne. rewrite Hne. simpl.
    now rewrite first_field_id.
  - intros Hne. unfold Net.clientIp. apply String.eqb_neq in Hne. rewrite Hne. simpl.
    rewrite (first_field_id _ H1). now apply trim_id.
Qed.

Lemma client_ip_first_forwarded_entry_witness :
  Net.clientIp (Some (String.append " 203.0.113.7 " (String "," " 10.0.0.1")))
               (Some "127.0.0.1") = "203.0.113.7"
  /\ Net.clientIp (Some (String.append " " (String "," "10.0.0.1")))
                  (Some "127.0.0.1") = "".
Proof.
  assert (H1 : Net.has_comma " 203.0.113.7 " = false) by (vm_compute; reflexivity).
  assert (H2 : Net.has_comma " " = false) by (vm_compute; reflexivity).
  split.
  - etransitivity;
      [exact (proj1 (client_ip_first_forwarded_entry " 203.0.113.7 " " 10.0.0.1"
                       (Some "127.0.0.1") H1))
      | vm_compute; reflexivity].
  - etransitivity;
      [exact (proj1 (client_ip_first_forwarded_entry " " "10.0.0.1"
                       (Some "127.0.0.1") H2))
      | vm_compute; reflexivity].
Defined.

(** X7: the profile route and the connection handler derive the address of a
    request in two ways, and hash it with the same [hashIp]. The two
    addresses, hence the two profile keys, are the same whenever the request
    has a non-empty [x-forwarded-for] header, and otherwise whenever its
    socket address has no comma and no white space at its ends, as an IP
    address has; with neither header nor socket address both are the empty
    string. *)
Theorem profile_key_same_on_both_paths (sha256_hex : string -> string)
    (IP_SALT : string) (forwarded remote : option string) :
  (Net.or_str forwarded "" ≠ ""
   \/ (Net.has_comma (Net.or_str remote "") = false
       /\ Net.lead_space (Net.or_str remote "") = false
       /\ Net.trail_space (Net.or_str remote "") = false)) ->
  Net.connection_ip forwarded remote = Net.clientIp forwarded remote
  /\ Net.hashIp sha256_hex IP_SALT (Net.or_str (Some (Net.connection_ip forwarded remote)) "")
     = Net.hashIp sha256_hex IP_SALT (Net.clientIp forwarded remote).
Proof.
  intros H.
  assert (E : Net.connection_ip forwarded remote = Net.clientIp forwarded remote).
  { unfold Net.connection_ip, Net.clientIp.
    assert (Hr : Net.has_comma (Net.or_str remote "") = false ->
                 Net.lead_space (Net.or_str remote "") = false ->
                 Net.trail_space (Net.or_str remote "") = false ->
                 Net.trim (Net.first_field (Net.or_str remote "")) = Net.or_str remote "").
    { intros H1 H2 H3. rewrite (first_field_id _ H1). now apply trim_id. }
    destruct forwarded as [hdr|]; simpl in *.
    - destruct (String.eqb hdr "") eqn:Eh; simpl; [|reflexivity].
      destruct H as [H|(H1 & H2 & H3)]; [congruence | now apply Hr].
    - destruct H as [H|(H1 & H2 & H3)]; [congruence | now apply Hr]. }
  split; [exact E|]. rewrite E. f_equal. unfold Net.or_str.
  destruct (String.eqb (Net.clientIp forwarded remote) "") eqn:E0; [|reflexivity].
  now apply String.eqb_eq in E0.
Qed.

Lemma profile_key_same_on_both_paths_witness :
  Net.connection_ip None (Some "::ffff:127.0.0.1") = Net.clientIp None (Some "::ffff:127.0.0.1")
  /\ Net.connection_ip (Some "203.0.113.7, 10.0.0.1") None =
       Net.clientIp (Some "203.0.113.7, 10.0.0.1") None.
Proof.
  split.
  - apply (profile_key_same_on_both_paths (fun x => x) "salt" None (Some "::ffff:127.0.0.1")).
    right. vm_compute. repeat split; reflexivity.
  - apply (profile_key_same_on_both_paths (fun x => x) "salt"
             (Some "203.0.113.7, 10.0.0.1") None).
    left. vm_compute. discriminate.
Defined.

(** * The HTTP routes and the collections *)

Section HttpFacts.

Import Store Http.

Variable P : platform.

Lemma extends_refl D : extends D D.
Proof. repeat split; try (exists []; now rewrite app_nil_r). auto. Qed.

Lemma extends_trans D1 D2 D3 : extends D1 D2 -> extends D2 D3 -> extends D1 D3.
Proof.
  intros ([l1 H1] & [m1 H2] & H3) ([l2 H4] & [m2 H5] & H6). repeat split.
  - exists (l1 ++ l2). now rewrite H4, H1, app_assoc.
  - exists (m1 ++ m2). now rewrite H5, H2, app_assoc.
  - auto.
Qed.

Lemma update_profile_extends h f fresh upsert D :
  extends D (update_profile h f fresh upsert D).
Proof.
  unfold update_profile. destruct (update_first h f (profiles D)).
  - repeat split; simpl; try (exists []; now rewrite app_nil_r). auto.
  - destruct upsert; [|apply extends_refl].
    repeat split; simpl; try (exists []; now rewrite app_nil_r). auto.
Qed.

Lemma apply_op_extends op D : extends D (apply_op op D).
Proof.
  destruct op; simpl; [apply update_profile_extends|].
  repeat split; simpl; eauto. exists []. now rewrite app_nil_r.
Qed.

Lemma perform_extends D c salt :
  exists D', (perform P (Some D) c salt).1 = Some D' /\ extends D D'.
Proof.
  destruct c; simpl; try (exists D; split; [reflexivity | apply extends_refl]).
  - unfold insert_room.
    destruct (rooms_unique D && existsb _ (rooms D)); simpl.
    + exists D. split; [reflexivity | apply extends_refl].
    + eexists. split; [reflexivity|]. repeat split; simpl; eauto.
      exists []. now rewrite app_nil_r.
  - eexists. split; [reflexivity | apply update_profile_extends].
Qed.

(** A handler run to its next await changes neither [db] nor the other
    requests. *)
Lemma advance_frame p : forall s id now,
  db (advance s id now p).1 = db s
  /\ next (advance s id now p).1 = next s
  /\ halted (advance s id now p).1 = halted s
  /\ (forall j, j ≠ id -> pending (advance s id now p).1 !! j = pending s !! j).
Proof.
  induction p as [r|c k IH]; intros s id now; simpl.
  - repeat split; auto.
  - destruct (uses_db c && negb (bool_decide (is_Some (db s)))); [apply IH|].
    simpl. repeat split; auto. intros j Hj. now apply lookup_insert_ne.
Qed.

Lemma advance_suspends s id now c k :
  uses_db c = false \/ is_Some (db s) ->
  advance s id now (Await c k) =
    (State (db s) (<[id := Await c k]> (pending s)) (next s) (halted s), []).
Proof.
  intros H. simpl. destruct (uses_db c); [|reflexivity].
  destruct H as [H|H]; [discriminate|]. now rewrite (bool_decide_eq_true_2 _ H).
Qed.

Lemma settle_stage s id now salt c k :
  halted s = false -> pending s !! id = Some (Await c k) ->
  step P s (Settle id now salt false) =
    advance (State (perform P (db s) c salt).1 (delete id (pending s)) (next s) false)
            id now (k now (perform P (db s) c salt).2).
Proof.
  intros Hh Hp. unfold step. rewrite Hh, Hp. now destruct (perform P (db s) c salt).
Qed.

Lemma settle_fault s id now salt c k :
  halted s = false -> pending s !! id = Some (Await c k) ->
  step P s (Settle id now salt true) =
    advance (State (db s) (delete id (pending s)) (next s) false) id now (k now None).
Proof. intros Hh Hp. unfold step. now rewrite Hh, Hp. Qed.

(** No event removes or rewrites a room or a message, or drops the index. *)
Lemma step_extends s e D :
  db s = Some D -> exists D', db (step P s e).1 = Some D' /\ extends D D'.
Proof.
  intros HD. unfold step. destruct (halted s).
  { exists D; split; [simpl; try rewrite HD; auto | apply extends_refl]. }
  destruct e as [D0| | |rt req now|id now salt fault|op].
  - rewrite HD. exists D; split; [simpl; try rewrite HD; auto | apply extends_refl].
  - rewrite HD. destruct (clash_free P (rooms D)); simpl.
    + eexists. split; [reflexivity|]. repeat split; simpl; auto;
        exists []; now rewrite app_nil_r.
    + exists D; split; [simpl; try rewrite HD; auto | apply extends_refl].
  - simpl. exists D; split; [simpl; try rewrite HD; auto | apply extends_refl].
  - destruct (advance_frame (handler P rt req now)
                (State (db s) (pending s) (S (next s)) false) (next s) now) as (-> & _).
    simpl. exists D; split; [simpl; try rewrite HD; auto | apply extends_refl].
  - destruct (pending s !! id) as [[r|c k]|].
    + exists D; split; [simpl; try rewrite HD; auto | apply extends_refl].
    + destruct fault.
      * destruct (advance_frame (k now None)
                    (State (db s) (delete id (pending s)) (next s) false) id now) as (-> & _).
        simpl. exists D; split; [simpl; try rewrite HD; auto | apply extends_refl].
      * destruct (perform_extends D c salt) as (D' & HD' & Hext).
        rewrite HD. destruct (perform P (Some D) c salt) as [odb r]. simpl in HD'.
        destruct (advance_frame (k now r)
                    (State odb (delete id (pending s)) (next s) false) id now) as (-> & _).
        simpl. exists D'. now split.
    + exists D; split; [simpl; try rewrite HD; auto | apply extends_refl].
  - simpl. rewrite HD. simpl. eexists. split; [reflexivity | apply apply_op_extends].
Qed.

Lemma http_run_cons s e evs :
  run P s (e :: evs) =
    ((run P (step P s e).1 evs).1, (step P s e).2 ++ (run P (step P s e).1 evs).2).
Proof.
  cbn [run]. destruct (step P s e) as [s1 r1]. cbn [fst snd].
  now destruct (run P s1 evs).
Qed.

Lemma http_run_app a : forall s b,
  run P s (a ++ b) =
    ((run P (run P s a).1 b).1, (run P s a).2 ++ (run P (run P s a).1 b).2).
Proof.
  induction a as [|e a IH]; intros s b.
  - simpl. now destruct (run P s b).
  - rewrite <- app_comm_cons, !http_run_cons, IH. cbn [fst snd]. now rewrite app_assoc.
Qed.

Lemma run_extends evs : forall s D,
  db s = Some D -> exists D', db (run P s evs).1 = Some D' /\ extends D D'.
Proof.
  induction evs as [|e evs IH]; intros s D HD.
  - exists D. split; [exact HD | apply extends_refl].
  - rewrite http_run_cons. cbn [fst].
    destruct (step_extends s e D HD) as (D1 & H1 & E1).
    destruct (IH _ D1 H1) as (D2 & H2 & E2).
    exists D2. split; [exact H2 | now apply (extends_trans D D1 D2)].
Qed.

(** An event that leaves request [id] alone leaves it as it is, and the
    process up. *)
Lemma step_leaves s e id :
  halted s = false -> id < next s -> leaves id e = true ->
  halted (step P s e).1 = false
  /\ id < next (step P s e).1
  /\ pending (step P s e).1 !! id = pending s !! id.
Proof.
  intros Hh Hid Hl. unfold step. rewrite Hh.
  destruct e as [D0| | |rt req now|id' now salt fault|op]; try discriminate.
  - destruct (db s); simpl; auto.
  - destruct (advance_frame (handler P rt req now)
                (State (db s) (pending s) (S (next s)) false) (next s) now)
      as (_ & -> & -> & Hp).
    simpl. repeat split; [lia|]. rewrite Hp by lia. reflexivity.
  - simpl in Hl. apply negb_true_iff, Nat.eqb_neq in Hl.
    destruct (pending s !! id') as [[r|c k]|] eqn:Ep; simpl; auto.
    destruct fault.
    + destruct (advance_frame (k now None)
                  (State (db s) (delete id' (pending s)) (next s) false) id' now)
        as (_ & -> & -> & Hp).
      simpl. repeat split; auto. rewrite Hp by auto. simpl. now apply lookup_delete_ne.
    + destruct (perform P (db s) c salt) as [odb r].
      destruct (advance_frame (k now r)
                  (State odb (delete id' (pending s)) (next s) false) id' now)
        as (_ & -> & -> & Hp).
      simpl. repeat split; auto. rewrite Hp by auto. simpl. now apply lookup_delete_ne.
  - simpl. auto.
Qed.

Lemma run_leaves evs : forall s id,
  halted s = false -> id < next s ->
  forallb (leaves id) evs = true ->
  halted (run P s evs).1 = false
  /\ id < next (run P s evs).1
  /\ pending (run P s evs).1 !! id = pending s !! id.
Proof.
  induction evs as [|e evs IH]; intros s id Hh Hid H; [auto|].
  simpl in H. apply andb_prop in H as [He Hevs].
  destruct (step_leaves s e id Hh Hid He) as (H1 & H2 & H3).
  rewrite http_run_cons. cbn [fst].
  destruct (IH _ id H1 H2 Hevs) as (H4 & H5 & H6).
  repeat split; auto. now rewrite H6.
Qed.

Lemma find_room_extends q D D' d :
  extends D D' -> find_room P q (rooms D) = Some d -> find_room P q (rooms D') = Some d.
Proof.
  intros ([l ->] & _) H. unfold find_room in *.
  induction (rooms D) as [|x xs IH]; [discriminate|]. simpl in *.
  destruct (matches P q (roomId x)); [exact H | now apply IH].
Qed.

End HttpFacts.

(** X8: the stored rooms and messages only ever grow at the end. Whatever
    requests, settlements and WebSocket database calls occur, a room that
    exists keeps existing, [findOne] keeps answering the same document for
    its id, so its password hash never changes, and every stored message
    stays in the collection; the unique index, once there, stays. *)
Theorem rooms_and_messages_append_only (P : Store.platform) (s : Http.state)
    (evs : list Http.event) (D : Store.database) :
  Http.db s = Some D ->
  exists D',
    Http.db (Http.run P s evs).1 = Some D'
    /\ (exists l, Store.rooms D' = Store.rooms D ++ l)
    /\ (exists l, Store.messages D' = Store.messages D ++ l)
    /\ (Store.rooms_unique D = true -> Store.rooms_unique D' = true)
    /\ (forall q d, Store.find_room P q (Store.rooms D) = Some d ->
                    Store.find_room P q (Store.rooms D') = Some d).
Proof.
  intros HD. destruct (run_extends P evs s D HD) as (D' & H & E).
  exists D'. split; [exact H|].
  pose proof (find_room_extends P) as Hfind. destruct E as (E1 & E2 & E3).
  repeat split; auto. intros q d Hf.
  apply (Hfind q D D' d); [repeat split; auto | exact Hf].
Qed.

Lemma rooms_and_messages_append_only_witness :
  exists D',
    Http.db (Http.run demo_platform demo_state
               [Http.Arrives Http.CreateRoom (room_request "attic" "pw2") 1;
                Http.WsCall (InsertMessage (VStr "den") (VStr "hi") 2)]).1 = Some D'
    /\ Store.find_room demo_platform (VStr "den") (Store.rooms D') =
         Some (Store.RoomDoc (VStr "den") "h:pw" (VStr "") 0).
Proof.
  destruct (rooms_and_messages_append_only demo_platform demo_state
              [Http.Arrives Http.CreateRoom (room_request "attic" "pw2") 1;
               Http.WsCall (InsertMessage (VStr "den") (VStr "hi") 2)]
              demo_db eq_refl) as (D' & H & _ & _ & _ & Hf).
  exists D'. split; [exact H|]. apply Hf. reflexivity.
Defined.

(** ** Joining and creating a room *)

Section Rooms.

Import Store Http.

Variable P : platform.

Lemma existsb_find {A} (f : A -> bool) (l : list A) :
  existsb f l = false <-> find f l = None.
Proof.
  induction l as [|x l IH]; simpl; [tauto|].
  destruct (f x); simpl; [split; discriminate | exact IH].
Qed.

(** A request whose handler begins with a call through [db], arriving while
    [db] is assigned, is suspended at that call under the next request
    number. *)
Lemma arrives_suspended s rt req now c k :
  halted s = false -> is_Some (db s) ->
  handler P rt req now = Await c k ->
  let s1 := (step P s (Arrives rt req now)).1 in
  halted s1 = false /\ next s < next s1 /\ db s1 = db s
  /\ pending s1 !! next s = Some (Await c k)
  /\ (step P s (Arrives rt req now)).2 = [].
Proof.
  intros Hh Hdb Hk. unfold step. rewrite Hh, Hk.
  rewrite advance_suspends by (right; exact Hdb). simpl.
  repeat split; auto. now rewrite lookup_insert_eq.
Qed.

(** The join handler from its [findOne] on: the room found, then the
    comparison, with anything in between. *)
Lemma join_from_find s id q pw D d now1 salt1 evs now2 salt2 :
  halted s = false -> id < next s ->
  pending s !! id = Some (Await (FindRoom q) (fun _ => join_room_found (VStr pw))) ->
  db s = Some D -> find_room P q (rooms D) = Some d ->
  forallb (leaves id) evs = true ->
  let s1 := (step P s (Settle id now1 salt1 false)).1 in
  let s2 := (run P s1 evs).1 in
  (step P s (Settle id now1 salt1 false)).2 = []
  /\ (step P s2 (Settle id now2 salt2 false)).2 =
       [(id, if bcrypt_compare P pw (passwordHash d)
             then Response 200 Ok
             else Response 403 (Error "wrong password"))].
Proof.
  intros Hh Hid Hp HD Hf Hevs s1 s2.
  assert (E1 : step P s (Settle id now1 salt1 false) =
               (State (Some D)
                  (<[id := Await (Compare (VStr pw) (passwordHash d))
                             (fun _ => join_room_compared)]> (delete id (pending s)))
                  (next s) false, [])).
  { rewrite (settle_stage P s id now1 salt1 _ _ Hh Hp). rewrite HD. simpl.
    rewrite Hf. reflexivity. }
  unfold s2, s1. rewrite E1. cbn [fst snd]. split; [reflexivity|].
  set (s1' := State _ _ _ _).
  destruct (run_leaves P evs s1' id eq_refl Hid Hevs) as (H1 & H2 & H3).
  assert (H4 : pending (run P s1' evs).1 !! id =
               Some (Await (Compare (VStr pw) (passwordHash d))
                       (fun _ => join_room_compared))).
  { rewrite H3. unfold s1'. simpl. now rewrite lookup_insert_eq. }
  rewrite (settle_stage P _ id now2 salt2 _ _ H1 H4). simpl.
  now destruct (bcrypt_compare P pw (passwordHash d)).
Qed.

(** The create handler from its [findOne] on, when that finds no room: it
    hashes, and reaches its insert with the document made of the hash and of
    the time the hash was ready. *)
Lemma create_stages s id q pw dn D now1 salt1 evs2 now2 salt2 evs3 :
  halted s = false -> id < next s ->
  pending s !! id =
    Some (Await (FindRoom q) (fun _ => create_room_found q (VStr pw) dn)) ->
  db s = Some D -> find_room P q (rooms D) = None ->
  forallb (leaves id) evs2 = true -> forallb (leaves id) evs3 = true ->
  let s3 := (run P s (Settle id now1 salt1 false :: evs2
                      ++ Settle id now2 salt2 false :: evs3)).1 in
  halted s3 = false /\ id < next s3
  /\ pending s3 !! id =
       Some (Await (InsertRoom (RoomDoc q (bcrypt_hash P pw salt2)
                                  (or_else dn (VStr "")) now2))
                   (fun _ => create_room_inserted))
  /\ exists D3, db s3 = Some D3 /\ extends D D3.
Proof.
  intros Hh Hid Hp HD Hf Hevs2 Hevs3 s3.
  assert (E1 : step P s (Settle id now1 salt1 false) =
               (State (Some D)
                  (<[id := Await (Hash (VStr pw)) (create_room_hashed q dn)]>
                     (delete id (pending s)))
                  (next s) false, [])).
  { rewrite (settle_stage P s id now1 salt1 _ _ Hh Hp). rewrite HD. simpl.
    rewrite Hf. reflexivity. }
  unfold s3. rewrite http_run_cons, E1. cbn [fst]. rewrite http_run_app. cbn [fst].
  set (s1 := State _ _ _ _).
  destruct (run_leaves P evs2 s1 id eq_refl Hid Hevs2) as (H1 & H2 & H3).
  destruct (run_extends P evs2 s1 D eq_refl) as (D2 & HD2 & E2).
  set (s2 := (run P s1 evs2).1) in *.
  assert (H4 : pending s2 !! id =
               Some (Await (Hash (VStr pw)) (create_room_hashed q dn))).
  { rewrite H3. unfold s1. simpl. now rewrite lookup_insert_eq. }
  rewrite http_run_cons. cbn [fst].
  assert (E3 : step P s2 (Settle id now2 salt2 false) =
               (State (Some D2)
                  (<[id := Await (InsertRoom (RoomDoc q (bcrypt_hash P pw salt2)
                                                (or_else dn (VStr "")) now2))
                                 (fun _ => create_room_inserted)]>
                     (delete id (pending s2)))
                  (next s2) false, [])).
  { rewrite (settle_stage P s2 id now2 salt2 _ _ H1 H4). rewrite HD2. simpl.
    reflexivity. }
  rewrite E3. cbn [fst]. set (s2' := State _ _ _ _).
  destruct (run_leaves P evs3 s2' id eq_refl H2 Hevs3) as (H5 & H6 & H7).
  destruct (run_extends P evs3 s2' D2 eq_refl) as (D3 & HD3 & E4).
  repeat split; auto.
  - rewrite H7. unfold s2'. simpl. now rewrite lookup_insert_eq.
  - exists D3. split; [exact HD3 | now apply (extends_trans D D2 D3)].
Qed.

Lemma holds_string_self q : holds_string q (VStr q) = true.
Proof. simpl. apply String.eqb_refl. Qed.

Lemma find_room_new q l d :
  find_room P (VStr q) l = None -> roomId d = VStr q ->
  find_room P (VStr q) (l ++ [d]) = Some d.
Proof.
  unfold find_room. intros Hn Hd. induction l as [|x l IH]; simpl in *.
  - rewrite Hd. simpl. now rewrite String.eqb_refl.
  - destruct (holds_string q (roomId x)); [discriminate | now apply IH].
Qed.

End Rooms.

(** X9: join-room answers by the stored hash, whatever else goes on. When a
    join request arrives while the room exists, then, however many other
    requests, settlements and WebSocket database calls come between its
    arrival, its [findOne] and its comparison, it is answered when the
    comparison settles: 200 [{ok:true}] if bcrypt accepts the password
    against the hash stored when it arrived, 403 [wrong password] if not. *)
Theorem join_room_answers_by_stored_hash (P : Store.platform) (s : Http.state)
    (D : Store.database) (d : Store.room_doc) (req : Http.request) (q : val)
    (pw : string) (now0 now1 now2 : Z) (salt1 salt2 : nat)
    (evs1 evs2 : list Http.event) :
  Http.halted s = false ->
  Http.db s = Some D ->
  nullish (Http.reqbody req) = false ->
  prop (Http.reqbody req) "roomId" = q -> truthy q = true ->
  prop (Http.reqbody req) "password" = VStr pw -> pw ≠ "" ->
  Store.find_room P q (Store.rooms D) = Some d ->
  forallb (Http.leaves (Http.next s)) evs1 = true ->
  forallb (Http.leaves (Http.next s)) evs2 = true ->
  let id := Http.next s in
  let s3 := (Http.run P s (Http.Arrives Http.JoinRoom req now0 :: evs1
                           ++ Http.Settle id now1 salt1 false :: evs2)).1 in
  (Http.step P s3 (Http.Settle id now2 salt2 false)).2 =
    [(id, if Store.bcrypt_compare P pw (Store.passwordHash d)
          then Http.Response 200 Http.Ok
          else Http.Response 403 (Http.Error "wrong password"))].
Proof.
  intros Hh HD Hb Hq Htq Hpw Hne Hf Hevs1 Hevs2 id s3.
  assert (Hk : Http.handler P Http.JoinRoom req now0 =
               Http.Await (Http.FindRoom q) (fun _ => Http.join_room_found (VStr pw))).
  { simpl. unfold Http.join_room. rewrite Hb, Hq, Hpw, Htq. simpl.
    apply String.eqb_neq in Hne. now rewrite Hne. }
  destruct (arrives_suspended P s Http.JoinRoom req now0 _ _ Hh
              (ltac:(rewrite HD; eauto)) Hk) as (H1 & H2 & H3 & H4 & _).
  unfold s3. rewrite http_run_cons. cbn [fst]. rewrite http_run_app. cbn [fst].
  set (s1 := (Http.step P s (Http.Arrives Http.JoinRoom req now0)).1) in *.
  destruct (run_leaves P evs1 s1 id H1 H2 Hevs1) as (H5 & H6 & H7).
  destruct (run_extends P evs1 s1 D (ltac:(rewrite H3; exact HD))) as (D2 & HD2 & E2).
  set (s2 := (Http.run P s1 evs1).1) in *.
  rewrite http_run_cons. cbn [fst].
  apply (join_from_find P s2 id q pw D2 d now1 salt1 evs2 now2 salt2); auto.
  - now rewrite H7.
  - now apply (find_room_extends P q D D2 d).
Qed.

Lemma join_room_answers_by_stored_hash_witness :
  (Http.step demo_platform
     (Http.run demo_platform demo_state
        (Http.Arrives Http.JoinRoom (room_request "den" "pw") 1
         :: [Http.WsCall (InsertMessage (VStr "den") (VStr "hi") 2)]
         ++ Http.Settle 0 3 0 false
         :: [Http.Arrives Http.CreateRoom (room_request "attic" "pw2") 4])).1
     (Http.Settle 0 5 0 false)).2 = [(0, Http.Response 200 Http.Ok)].
Proof.
  assert (Hne : "pw" ≠ "") by discriminate.
  exact (join_room_answers_by_stored_hash demo_platform demo_state demo_db
           (Store.RoomDoc (VStr "den") "h:pw" (VStr "") 0)
           (room_request "den" "pw") (VStr "den") "pw" 1 3 5 0 0
           [Http.WsCall (InsertMessage (VStr "den") (VStr "hi") 2)]
           [Http.Arrives Http.CreateRoom (room_request "attic" "pw2") 4]
           eq_refl eq_refl eq_refl eq_refl eq_refl eq_refl Hne eq_refl eq_refl eq_refl).
Defined.

Section Creating.

Import Store Http.

Variable P : platform.

Lemma forallb_weaken {A} (f g : A -> bool) (l : list A) :
  (forall x, f x = true -> g x = true) ->
  forallb f l = true -> forallb g l = true.
Proof.
  intros Hfg. induction l as [|x l IH]; [reflexivity|]. simpl. intros H.
  apply andb_prop in H as [Hx Hl]. now rewrite (Hfg x Hx), (IH Hl).
Qed.

(** Once a request has been answered it is no longer suspended, and a
    settlement for it does nothing. *)
Lemma settle_nothing s id now salt fault :
  pending s !! id = None -> step P s (Settle id now salt fault) = (s, []).
Proof. intros H. unfold step. rewrite H. now destruct (halted s). Qed.

Lemma run_settled evs : forall s id,
  halted s = false -> id < next s -> pending s !! id = None ->
  forallb (fun e => leaves id e
                    || match e with Settle _ _ _ _ => true | _ => false end) evs = true ->
  forall now salt fault,
    (step P (run P s evs).1 (Settle id now salt fault)).2 = [].
Proof.
  induction evs as [|e evs IH]; intros s id Hh Hid Hp H now salt fault.
  - simpl. now rewrite settle_nothing.
  - simpl in H. apply andb_prop in H as [He Hevs]. rewrite http_run_cons. cbn [fst].
    destruct (leaves id e) eqn:El.
    + destruct (step_leaves P s e id Hh Hid El) as (H1 & H2 & H3).
      apply IH; auto. now rewrite H3.
    + destruct e as [| | |rt req t|id' t sa fa|]; try discriminate.
      simpl in El. apply negb_false_iff, Nat.eqb_eq in El. rewrite El.
      rewrite (settle_nothing s id t sa fa Hp). now apply IH.
Qed.

(** The create handler, arrived with a string id and a string password. *)
Lemma create_arrives s D req q pw now0 :
  halted s = false -> db s = Some D ->
  nullish (reqbody req) = false ->
  prop (reqbody req) "roomId" = VStr q -> q ≠ "" ->
  prop (reqbody req) "password" = VStr pw -> pw ≠ "" ->
  let s1 := (step P s (Arrives CreateRoom req now0)).1 in
  halted s1 = false /\ next s < next s1 /\ db s1 = Some D
  /\ pending s1 !! next s =
       Some (Await (FindRoom (VStr q))
               (fun _ => create_room_found (VStr q) (VStr pw)
                           (prop (reqbody req) "displayName"))).
Proof.
  intros Hh HD Hb Hq Hqn Hpw Hpn.
  assert (Hk : handler P CreateRoom req now0 =
               Await (FindRoom (VStr q))
                 (fun _ => create_room_found (VStr q) (VStr pw)
                             (prop (reqbody req) "displayName"))).
  { simpl. unfold create_room. rewrite Hb, Hq, Hpw. simpl.
    apply String.eqb_neq in Hqn, Hpn. now rewrite Hqn, Hpn. }
  destruct (arrives_suspended P s CreateRoom req now0 _ _ Hh
              (ltac:(rewrite HD; eauto)) Hk) as (H1 & H2 & H3 & H4 & _).
  repeat split; auto. now rewrite H3.
Qed.

End Creating.

(** X10: when create-room answers 200 [{ok:true}], the room is stored and
    findable. With the unique index in place and a string id and password,
    and whatever other events come between the stages of the request, a
    request answered ok at its insert has added to [rooms], at the end, the
    document with that id, bcrypt's hash of that password, the display name
    (or the empty string) and the time the hash was ready, and [findOne]
    answers that document for the id from then on. *)
Theorem created_room_is_stored (P : Store.platform) (s : Http.state)
    (D : Store.database) (req : Http.request) (q pw : string)
    (now0 now1 now2 now3 : Z) (salt1 salt2 salt3 : nat)
    (evs1 evs2 evs3 : list Http.event) :
  Http.halted s = false ->
  Http.db s = Some D -> Store.rooms_unique D = true ->
  nullish (Http.reqbody req) = false ->
  prop (Http.reqbody req) "roomId" = VStr q -> q ≠ "" ->
  prop (Http.reqbody req) "password" = VStr pw -> pw ≠ "" ->
  forallb (Http.leaves (Http.next s)) evs1 = true ->
  forallb (Http.leaves (Http.next s)) evs2 = true ->
  forallb (Http.leaves (Http.next s)) evs3 = true ->
  let id := Http.next s in
  let s3 := (Http.run P s (Http.Arrives Http.CreateRoom req now0 :: evs1
                           ++ Http.Settle id now1 salt1 false :: evs2
                           ++ Http.Settle id now2 salt2 false :: evs3)).1 in
  let r := Http.step P s3 (Http.Settle id now3 salt3 false) in
  let doc := Store.RoomDoc (VStr q) (Store.bcrypt_hash P pw salt2)
               (or_else (prop (Http.reqbody req) "displayName") (VStr "")) now2 in
  r.2 = [(id, Http.Response 200 Http.Ok)] ->
  exists D3,
    Http.db s3 = Some D3
    /\ Http.db r.1 =
         Some (Store.Database (Store.rooms D3 ++ [doc]) (Store.messages D3)
                 (Store.profiles D3) true)
    /\ Store.find_room P (VStr q) (Store.rooms D3 ++ [doc]) = Some doc
    /\ Http.halted r.1 = false.
Proof.
  intros Hh HD Hu Hb Hq Hqn Hpw Hpn Hevs1 Hevs2 Hevs3 id s3 r doc Hok.
  destruct (create_arrives P s D req q pw now0 Hh HD Hb Hq Hqn Hpw Hpn)
    as (H1 & H2 & H3 & H4).
  set (s0 := (Http.step P s (Http.Arrives Http.CreateRoom req now0)).1) in *.
  destruct (run_leaves P evs1 s0 id H1 H2 Hevs1) as (H5 & H6 & H7).
  destruct (run_extends P evs1 s0 D H3) as (D1 & HD1 & E1).
  set (s1 := (Http.run P s0 evs1).1) in *.
  assert (Es3 : s3 = (Http.run P s1 (Http.Settle id now1 salt1 false :: evs2
                                    ++ Http.Settle id now2 salt2 false :: evs3)).1).
  { unfold s3. rewrite http_run_cons. cbn [fst]. now rewrite http_run_app. }
  assert (H8 := H4). change (Http.next s) with id in H8. rewrite <- H7 in H8.
  clear H7. rename H8 into H7.
  destruct (Store.find_room P (VStr q) (Store.rooms D1)) as [d1|] eqn:Ef.
  - (* the room was there: answered 409 at the first settlement *)
    exfalso.
    assert (E : Http.step P s1 (Http.Settle id now1 salt1 false) =
                (Http.State (Some D1) (delete id (Http.pending s1)) (Http.next s1) false,
                 [(id, Http.Response 409 (Http.Error "room exists"))])).
    { rewrite (settle_stage P s1 id now1 salt1 _ _ H5 H7). rewrite HD1. simpl.
      now rewrite Ef. }
    assert (Hr : r.2 = []).
    { unfold r. rewrite Es3, http_run_cons, E. cbn [fst].
      apply run_settled; simpl; auto.
      - apply lookup_delete_eq.
      - rewrite forallb_app. simpl. rewrite orb_true_r. simpl.
        rewrite andb_true_iff. split.
        + apply (forallb_weaken (Http.leaves id)); [|exact Hevs2]. now intros e ->.
        + apply (forallb_weaken (Http.leaves id)); [|exact Hevs3]. now intros e ->. }
    rewrite Hr in Hok. discriminate.
  - destruct (create_stages P s1 id (VStr q) pw (prop (Http.reqbody req) "displayName")
                D1 now1 salt1 evs2 now2 salt2 evs3 H5 H6 H7 HD1 Ef Hevs2 Hevs3)
      as (G1 & G2 & G3 & D3 & HD3 & E3).
    rewrite <- Es3 in G1, G2, G3, HD3.
    exists D3. split; [exact HD3|].
    assert (Hu3 : Store.rooms_unique D3 = true).
    { destruct E3 as (_ & _ & E3). destruct E1 as (_ & _ & E1). auto. }
    unfold r in *. rewrite (settle_stage P s3 id now3 salt3 _ _ G1 G3) in *.
    rewrite HD3 in *. simpl in *. unfold Store.insert_room in *. rewrite Hu3 in *.
    simpl in *.
    destruct (existsb (fun x => Store.holds_string q (Store.roomId x)) (Store.rooms D3))
      eqn:Ex; simpl in *; [discriminate|].
    repeat split; auto.
    apply find_room_new; [|reflexivity]. unfold Store.find_room. simpl.
    now apply existsb_find.
Qed.

Lemma created_room_is_stored_witness :
  exists D3,
    Http.db (Http.run demo_platform demo_state
               (Http.Arrives Http.CreateRoom (room_request "attic" "pw2") 1 :: []
                ++ Http.Settle 0 2 0 false :: []
                ++ Http.Settle 0 3 7 false :: [])).1 = Some D3
    /\ Store.find_room demo_platform (VStr "attic")
         (Store.rooms D3 ++ [Store.RoomDoc (VStr "attic") "h:pw2" (VStr "") 3]) =
       Some (Store.RoomDoc (VStr "attic") "h:pw2" (VStr "") 3).
Proof.
  assert (H1 : "attic" ≠ "") by discriminate.
  assert (H2 : "pw2" ≠ "") by discriminate.
  destruct (created_room_is_stored demo_platform demo_state demo_db
              (room_request "attic" "pw2") "attic" "pw2" 1 2 3 4 0 7 0 [] [] []
              eq_refl eq_refl eq_refl eq_refl eq_refl H1 eq_refl H2
              eq_refl eq_refl eq_refl eq_refl) as (D3 & Ha & _ & Hb & _).
  exists D3. split; [exact Ha | exact Hb].
Defined.

(** X11: a lost race is answered 500, not 409. With the unique index in
    place, if the [findOne] of a create-room request found no room for its id
    but, by the time its insert is carried out, another request has created
    one, the insert is refused: the request is answered 500
    [{error:'server'}] and the database is as it was, so the room of the
    winner and its password hash stand. *)
Theorem create_room_lost_race (P : Store.platform) (s : Http.state)
    (D D1 D3 : Store.database) (d : Store.room_doc) (req : Http.request)
    (q pw : string) (now0 now1 now2 now3 : Z) (salt1 salt2 salt3 : nat)
    (evs1 evs2 evs3 : list Http.event) :
  Http.halted s = false ->
  Http.db s = Some D -> Store.rooms_unique D = true ->
  nullish (Http.reqbody req) = false ->
  prop (Http.reqbody req) "roomId" = VStr q -> q ≠ "" ->
  prop (Http.reqbody req) "password" = VStr pw -> pw ≠ "" ->
  forallb (Http.leaves (Http.next s)) evs1 = true ->
  forallb (Http.leaves (Http.next s)) evs2 = true ->
  forallb (Http.leaves (Http.next s)) evs3 = true ->
  let id := Http.next s in
  let s1 := (Http.run P s (Http.Arrives Http.CreateRoom req now0 :: evs1)).1 in
  let s3 := (Http.run P s1 (Http.Settle id now1 salt1 false :: evs2
                            ++ Http.Settle id now2 salt2 false :: evs3)).1 in
  let r := Http.step P s3 (Http.Settle id now3 salt3 false) in
  Http.db s1 = Some D1 -> Store.find_room P (VStr q) (Store.rooms D1) = None ->
  Http.db s3 = Some D3 -> Store.find_room P (VStr q) (Store.rooms D3) = Some d ->
  r.2 = [(id, Http.Response 500 (Http.Error "server"))]
  /\ Http.db r.1 = Some D3.
Proof.
  intros Hh HD Hu Hb Hq Hqn Hpw Hpn Hevs1 Hevs2 Hevs3 id s1 s3 r HD1 Hf1 HD3 Hf3.
  destruct (create_arrives P s D req q pw now0 Hh HD Hb Hq Hqn Hpw Hpn)
    as (H1 & H2 & H3 & H4).
  assert (Es1 : s1 = (Http.run P (Http.step P s (Http.Arrives Http.CreateRoom req now0)).1
                        evs1).1).
  { unfold s1. now rewrite http_run_cons. }
  set (s0 := (Http.step P s (Http.Arrives Http.CreateRoom req now0)).1) in *.
  destruct (run_leaves P evs1 s0 id H1 H2 Hevs1) as (H5 & H6 & H7).
  destruct (run_extends P evs1 s0 D H3) as (D1' & HD1' & E1).
  rewrite <- Es1 in H5, H6, H7, HD1'.
  assert (H8 := H4). change (Http.next s) with id in H8. rewrite <- H7 in H8.
  clear H7. rename H8 into H7.
  assert (D1' = D1) by congruence. subst D1'.
  destruct (create_stages P s1 id (VStr q) pw (prop (Http.reqbody req) "displayName")
              D1 now1 salt1 evs2 now2 salt2 evs3 H5 H6 H7 HD1 Hf1 Hevs2 Hevs3)
    as (G1 & G2 & G3 & D3' & HD3' & E3).
  fold s3 in G1, G2, G3, HD3'.
  assert (D3' = D3) by congruence. subst D3'.
  assert (Hu3 : Store.rooms_unique D3 = true).
  { destruct E3 as (_ & _ & E3). destruct E1 as (_ & _ & E1). auto. }
  unfold r. rewrite (settle_stage P s3 id now3 salt3 _ _ G1 G3).
  rewrite HD3. simpl. unfold Store.insert_room. rewrite Hu3. simpl.
  destruct (existsb (fun x => Store.holds_string q (Store.roomId x)) (Store.rooms D3))
    eqn:Ex; simpl; [now split|].
  apply existsb_find in Ex. unfold Store.find_room in Hf3. simpl in Hf3. congruence.
Qed.

Lemma create_room_lost_race_witness :
  (Http.step demo_platform
     (Http.run demo_platform
        (Http.run demo_platform demo_state
           (Http.Arrives Http.CreateRoom (room_request "attic" "pw2") 1
            :: [Http.Arrives Http.CreateRoom (room_request "attic" "pw3") 1])).1
        (Http.Settle 0 2 0 false
         :: [Http.Settle 1 2 0 false]
         ++ Http.Settle 0 3 0 false
         :: [Http.Settle 1 3 0 false; Http.Settle 1 4 0 false])).1
     (Http.Settle 0 5 0 false)).2 = [(0, Http.Response 500 (Http.Error "server"))].
Proof.
  assert (H1 : "attic" ≠ "") by discriminate.
  assert (H2 : "pw2" ≠ "") by discriminate.
  pose proof (create_room_lost_race demo_platform demo_state demo_db demo_db
                (Store.Database
                   [Store.RoomDoc (VStr "den") "h:pw" (VStr "") 0;
                    Store.RoomDoc (VStr "attic") "h:pw3" (VStr "") 3] [] [] true)
                (Store.RoomDoc (VStr "attic") "h:pw3" (VStr "") 3)
                (room_request "attic" "pw2") "attic" "pw2" 1 2 3 5 0 0 0
                [Http.Arrives Http.CreateRoom (room_request "attic" "pw3") 1]
                [Http.Settle 1 2 0 false]
                [Http.Settle 1 3 0 false; Http.Settle 1 4 0 false]
                eq_refl eq_refl eq_refl eq_refl eq_refl H1 eq_refl H2
                eq_refl eq_refl eq_refl) as H.
  cbv zeta in H. refine (proj1 (H _ _ _ _)); vm_compute; reflexivity.
Defined.

(** ** The history of a room *)

Section History.

Import Store Http.

Variable P : platform.

Lemma insert_by_time_perm d l : Permutation (insert_by_time d l) (d :: l).
Proof.
  induction l as [|x l IH]; simpl; [reflexivity|].
  destruct (Z.leb (m_timestamp d) (m_timestamp x)); [reflexivity|].
  rewrite IH. apply perm_swap.
Qed.

Lemma sort_by_time_perm l : Permutation (sort_by_time l) l.
Proof.
  induction l as [|x l IH]; simpl; [reflexivity|].
  rewrite insert_by_time_perm. now rewrite IH.
Qed.

Lemma insert_by_time_sorted d l :
  StronglySorted by_time l -> StronglySorted by_time (insert_by_time d l).
Proof.
  induction 1 as [|x l Hs IH Hx]; simpl.
  - repeat constructor.
  - destruct (Z.leb (m_timestamp d) (m_timestamp x)) eqn:E.
    + apply Z.leb_le in E. constructor; [now constructor|].
      constructor; [exact E|]. eapply List.Forall_impl; [|exact Hx].
      intros y Hy. unfold by_time in *. lia.
    + apply Z.leb_gt in E. constructor; [exact IH|].
      rewrite insert_by_time_perm. constructor; [unfold by_time; lia | exact Hx].
Qed.

Lemma sort_by_time_sorted l : StronglySorted by_time (sort_by_time l).
Proof.
  induction l as [|x l IH]; simpl; [constructor | now apply insert_by_time_sorted].
Qed.

Lemma sorted_split n l :
  StronglySorted by_time l ->
  StronglySorted by_time (firstn n l)
  /\ forall a b, a ∈ firstn n l -> b ∈ skipn n l -> by_time a b.
Proof.
  intros H. revert n. induction H as [|x l Hs IH Hx]; intros n.
  - rewrite firstn_nil, skipn_nil. split; [constructor|]. intros a b Ha. inversion Ha.
  - destruct n as [|n]; simpl.
    + split; [constructor|]. intros a b Ha. inversion Ha.
    + destruct (IH n) as [H1 H2]. split.
      * constructor; [exact H1|]. rewrite List.Forall_forall in *.
        intros y Hy. apply Hx. apply list_elem_of_In in Hy.
        apply list_elem_of_In. now apply (subseteq_take n l).
      * intros a b Ha Hb. apply elem_of_cons in Ha as [->|Ha]; [|now apply H2].
        rewrite List.Forall_forall in Hx. apply Hx, list_elem_of_In.
        now apply (subseteq_drop n l).
Qed.

End History.

Section HistoryRoute.

Import Store Http.

Variable P : platform.

(** What [find(...).sort(...).limit(2000)] keeps and what it leaves. *)
Lemma find_messages_spec q l :
  let kept := find_messages P q l in
  let rest := skipn 2000 (sort_by_time (of_room P q l)) in
  Permutation (kept ++ rest) (of_room P q l)
  /\ length kept = min 2000 (length (of_room P q l))
  /\ StronglySorted by_time kept
  /\ (forall a b, a ∈ kept -> b ∈ rest -> by_time a b).
Proof.
  intros kept rest. unfold kept, rest, find_messages. fold (of_room P q l).
  destruct (sorted_split 2000 _ (sort_by_time_sorted (of_room P q l))) as [H1 H2].
  repeat split; auto.
  - rewrite firstn_skipn. apply sort_by_time_perm.
  - rewrite length_firstn. now rewrite (Permutation_length (sort_by_time_perm _)).
Qed.

Lemma filter_length_perm {A} (f : A -> bool) (l l' : list A) :
  Permutation l l' -> length (List.filter f l) = length (List.filter f l').
Proof.
  induction 1 as [|x l l' _ IH|x y l|l1 l2 l3 _ IH1 _ IH2]; simpl; auto.
  - destruct (f x); simpl; now rewrite IH.
  - destruct (f x), (f y); reflexivity.
  - congruence.
Qed.

Lemma filter_length_le {A} (f : A -> bool) (l : list A) :
  length (List.filter f l) <= length l.
Proof. induction l as [|x l IH]; simpl; [lia|]. destruct (f x); simpl; lia. Qed.

Lemma filter_length_lt {A} (f : A -> bool) (l : list A) a :
  a ∈ l -> f a = false -> length (List.filter f l) < length l.
Proof.
  induction l as [|x l IH]; intros Hin Ha; [inversion Hin|].
  apply elem_of_cons in Hin as [<-|Hin]; simpl.
  - rewrite Ha. pose proof (filter_length_le f l). lia.
  - specialize (IH Hin Ha). destruct (f x); simpl; lia.
Qed.

Lemma filter_none {A} (f : A -> bool) (l : list A) :
  (forall x, x ∈ l -> f x = false) -> List.filter f l = [].
Proof.
  induction l as [|x l IH]; intros H; [reflexivity|]. simpl.
  rewrite (H x) by left. apply IH. intros y Hy. apply H. now right.
Qed.

(** The history route, arrived with a room, suspended at its query. *)
Lemma history_arrives s req now0 evs :
  halted s = false -> is_Some (db s) -> truthy (query_room req) = true ->
  forallb (leaves (next s)) evs = true ->
  let s1 := (run P s (Arrives History req now0 :: evs)).1 in
  halted s1 = false
  /\ pending s1 !! next s =
       Some (Await (FindMessages (query_room req)) (fun _ => history_found)).
Proof.
  intros Hh Hdb Hq Hevs s1.
  assert (Hk : handler P History req now0 =
               Await (FindMessages (query_room req)) (fun _ => history_found)).
  { simpl. unfold history. now rewrite Hq. }
  destruct (arrives_suspended P s History req now0 _ _ Hh Hdb Hk) as (H1 & H2 & _ & H4 & _).
  unfold s1. rewrite http_run_cons. cbn [fst].
  destruct (run_leaves P evs _ (next s) H1 H2 Hevs) as (H5 & _ & H7).
  split; [exact H5 | now rewrite H7].
Qed.

End HistoryRoute.

(** X12: the history route answers the oldest messages first, and the oldest
    2000 at most. Whatever happens between the arrival of the request and its
    query, the answer is read off the [messages] collection as it is when the
    query is carried out, and the collection is left as it is: the answer
    lists, as [{payload, timestamp}], messages that the query [{room}]
    selects, each listed once for each time it is stored, all of them when
    there are 2000 at most and 2000 of them otherwise, by ascending
    timestamp, and every message left out is stamped no earlier than every
    message listed. *)
Theorem history_lists_oldest_first (P : Store.platform) (s : Http.state)
    (req : Http.request) (now0 now : Z) (salt : nat) (evs : list Http.event)
    (D : Store.database) :
  Http.halted s = false -> is_Some (Http.db s) ->
  truthy (Http.query_room req) = true ->
  forallb (Http.leaves (Http.next s)) evs = true ->
  let id := Http.next s in
  let s1 := (Http.run P s (Http.Arrives Http.History req now0 :: evs)).1 in
  Http.db s1 = Some D ->
  exists kept rest,
    Http.step P s1 (Http.Settle id now salt false) =
      (Http.State (Some D) (delete id (Http.pending s1)) (Http.next s1) false,
       [(id, Http.Response 200 (Http.OkMessages (map projection kept)))])
    /\ Permutation (kept ++ rest) (of_room P (Http.query_room req) (Store.messages D))
    /\ length kept = min 2000 (length (of_room P (Http.query_room req) (Store.messages D)))
    /\ StronglySorted by_time kept
    /\ (forall a b, a ∈ kept -> b ∈ rest -> by_time a b).
Proof.
  intros Hh Hdb Hq Hevs id s1 HD.
  destruct (history_arrives P s req now0 evs Hh Hdb Hq Hevs) as [H1 H2].
  fold s1 in H1, H2. fold id in H2.
  exists (Store.find_messages P (Http.query_room req) (Store.messages D)).
  exists (skipn 2000 (Store.sort_by_time
                        (of_room P (Http.query_room req) (Store.messages D)))).
  split; [|apply find_messages_spec].
  rewrite (settle_stage P s1 id now salt _ _ H1 H2). rewrite HD. reflexivity.
Qed.

Lemma history_lists_oldest_first_witness :
  exists kept rest,
    (Http.step demo_platform
       (Http.run demo_platform demo_state
          (Http.Arrives Http.History (Http.Request None None VUndef (VStr "den")) 1
           :: [Http.WsCall (InsertMessage (VStr "den") (VStr "b") 9);
               Http.WsCall (InsertMessage (VStr "den") (VStr "a") 5)])).1
       (Http.Settle 0 10 0 false)).2 =
      [(0, Http.Response 200 (Http.OkMessages (map projection kept)))]
    /\ StronglySorted by_time kept
    /\ length (kept ++ rest) = 2.
Proof.
  destruct (history_lists_oldest_first demo_platform demo_state
              (Http.Request None None VUndef (VStr "den")) 1 10 0
              [Http.WsCall (InsertMessage (VStr "den") (VStr "b") 9);
               Http.WsCall (InsertMessage (VStr "den") (VStr "a") 5)]
              (Store.Database (Store.rooms demo_db)
                 [Store.MessageDoc (VStr "den") (VStr "b") 9;
                  Store.MessageDoc (VStr "den") (VStr "a") 5] [] true)
              eq_refl (ltac:(simpl; eauto)) eq_refl eq_refl eq_refl)
    as (kept & rest & H1 & H2 & _ & H4 & _).
  exists kept, rest. split; [exact (f_equal snd H1)|]. split; [exact H4|].
  now rewrite (Permutation_length H2).
Defined.

(** X13: the history of a room stops at its first 2000 messages. If, when
    the query is carried out, the collection holds 2000 or more messages of
    the room stamped before [t], then the answer lists 2000 messages, all
    stamped before [t]: a message of the room stamped [t] or later is not in
    the answer, and will not be in any later one. *)
Theorem history_stops_at_2000 (P : Store.platform) (s : Http.state)
    (req : Http.request) (now0 now : Z) (salt : nat) (evs : list Http.event)
    (D : Store.database) (t : Z) :
  Http.halted s = false -> is_Some (Http.db s) ->
  truthy (Http.query_room req) = true ->
  forallb (Http.leaves (Http.next s)) evs = true ->
  let id := Http.next s in
  let s1 := (Http.run P s (Http.Arrives Http.History req now0 :: evs)).1 in
  Http.db s1 = Some D ->
  2000 <= length (List.filter (fun d => Z.ltb (Store.m_timestamp d) t)
                    (of_room P (Http.query_room req) (Store.messages D))) ->
  exists out,
    (Http.step P s1 (Http.Settle id now salt false)).2 =
      [(id, Http.Response 200 (Http.OkMessages out))]
    /\ length out = 2000
    /\ (forall x, x ∈ out -> (x.2 < t)%Z).
Proof.
  intros Hh Hdb Hq Hevs id s1 HD Hmany.
  destruct (history_arrives P s req now0 evs Hh Hdb Hq Hevs) as [H1 H2].
  fold s1 in H1, H2. fold id in H2.
  set (found := of_room P (Http.query_room req) (Store.messages D)) in *.
  destruct (find_messages_spec P (Http.query_room req) (Store.messages D))
    as (Hperm & Hlen & _ & Hsplit).
  fold found in Hperm, Hlen.
  set (kept := Store.find_messages P (Http.query_room req) (Store.messages D)) in *.
  set (rest := skipn 2000 (Store.sort_by_time found)) in *.
  set (early := fun d => Z.ltb (Store.m_timestamp d) t) in *.
  exists (map projection kept). split; [|split].
  - rewrite (settle_stage P s1 id now salt _ _ H1 H2). rewrite HD. reflexivity.
  - rewrite length_map, Hlen. pose proof (filter_length_le early found). lia.
  - intros x Hx. apply list_elem_of_fmap in Hx as (a & -> & Ha). simpl.
    destruct (Z.ltb (Store.m_timestamp a) t) eqn:Ea; [now apply Z.ltb_lt|].
    exfalso. apply Z.ltb_ge in Ea.
    assert (Hrest : List.filter early rest = []).
    { apply filter_none. intros b Hb. specialize (Hsplit a b Ha Hb).
      unfold early, by_time in *. apply Z.ltb_ge. lia. }
    pose proof (filter_length_perm early _ _ Hperm) as Hl.
    rewrite List.filter_app, length_app, Hrest in Hl. simpl in Hl.
    pose proof (filter_length_lt early kept a Ha) as Hlt.
    assert (Hea : early a = false) by (unfold early; now apply Z.ltb_ge).
    specialize (Hlt Hea). lia.
Qed.

Lemma history_stops_at_2000_witness :
  exists out,
    (Http.step demo_platform
       (Http.run demo_platform (Http.State (Some crowded_db) ∅ 0 false)
          (Http.Arrives Http.History (Http.Request None None VUndef (VStr "den")) 1
           :: [])).1
       (Http.Settle 0 10 0 false)).2 =
      [(0, Http.Response 200 (Http.OkMessages out))]
    /\ (VStr "new", 5%Z) ∉ out.
Proof.
  assert (Hmany : 2000 <= length (List.filter
                     (fun d => Z.ltb (Store.m_timestamp d) 5)
                     (of_room demo_platform (VStr "den") (Store.messages crowded_db)))).
  { apply Nat.leb_le. vm_compute. reflexivity. }
  destruct (history_stops_at_2000 demo_platform (Http.State (Some crowded_db) ∅ 0 false)
              (Http.Request None None VUndef (VStr "den")) 1 10 0 [] crowded_db 5
              eq_refl (ltac:(simpl; eauto)) eq_refl eq_refl eq_refl Hmany)
    as (out & H1 & _ & H3).
  exists out. split; [exact H1|]. intros Hin. apply H3 in Hin. simpl in Hin. lia.
Defined.

(** X14: what is broadcast is what the history returns. A [message] frame
    for a room named by a string, accepted while [db] is assigned, issues the
    insert of [{room, payload, timestamp}] with the time of receipt, and the
    handler, when it resumes, sends nothing but the message with that same
    payload and timestamp. Once the insert has taken effect, and provided the
    room held fewer than 2000 messages, the history of the room lists that
    payload (an absent one as [null]) with that timestamp. *)
Theorem broadcast_message_enters_history (P : Store.platform) (s : Server.state)
    (ws : socket) (now : Z) (obj : val) (room : string) (D : Store.database) :
  nullish obj = false ->
  strict_eq (Server.classify obj) (VStr "message") = true ->
  Server.db s = true ->
  prop obj "room" = VStr room ->
  length (of_room P (VStr room) (Store.messages D)) < 2000 ->
  let op := InsertMessage (VStr room) (prop obj "payload") now in
  let K := Server.KMessage (VStr room) (prop obj "payload") now in
  Server.on_message s ws now (Json obj) =
    (Server.set_awaiting (Server.awaiting s ++ [K]) s, [Db op])
  /\ (forall s' ok c m, (c, m) ∈ sends (Server.resume s' K ok).2 ->
        m = Message (VStr room) (prop obj "payload") now)
  /\ (Store.to_bson (prop obj "payload"), now) ∈
       map projection
         (Store.find_messages P (VStr room) (Store.messages (Store.apply_op op D))).
Proof.
  intros Hobj Hty Hdb Hroom Hlen op K. split; [|split].
  - rewrite (on_message_message _ _ _ _ Hobj Hty), Hroom.
    unfold Server.try_await. now rewrite Hdb.
  - intros s' ok c m Hin. now apply message_resume_only_listeners in Hin as [-> _].
  - set (doc := Store.MessageDoc (VStr room) (Store.to_bson (prop obj "payload")) now).
    apply (list_elem_of_fmap_2 projection _ doc).
    assert (E : of_room P (VStr room) (Store.messages D ++ [doc]) =
                of_room P (VStr room) (Store.messages D) ++ [doc]).
    { unfold of_room. rewrite List.filter_app. f_equal. simpl.
      now rewrite String.eqb_refl. }
    change (doc ∈ firstn 2000 (Store.sort_by_time
                                 (of_room P (VStr room) (Store.messages D ++ [doc])))).
    rewrite E, firstn_all2.
    + apply list_elem_of_In.
      apply (Permutation_in _ (Permutation_sym (sort_by_time_perm _))).
      apply in_or_app. right. now left.
    + rewrite (Permutation_length (sort_by_time_perm _)), length_app. simpl. lia.
Qed.

Lemma broadcast_message_enters_history_witness :
  (VStr "hi", 2000%Z) ∈
    map projection
      (Store.find_messages demo_platform (VStr "lobby")
         (Store.messages
            (Store.apply_op (InsertMessage (VStr "lobby") (VStr "hi") 2000) demo_db))).
Proof.
  assert (H : length (of_room demo_platform (VStr "lobby") (Store.messages demo_db)) < 2000)
    by (vm_compute; lia).
  exact (proj2 (proj2 (broadcast_message_enters_history demo_platform lobby_state
                         (Socket 0 OPEN true "hashA" false) 2000
                         (VObj 102 [("type", VStr "message"); ("room", lobby);
                                    ("payload", VStr "hi")])
                         "lobby" demo_db eq_refl eq_refl eq_refl eq_refl H))).
Defined.

(** ** Profiles *)

Section Profiles.

Import Store.

Lemma update_first_hashes h f l l' :
  (forall p, p_ipHash (f p) = p_ipHash p) ->
  update_first h f l = Some l' -> map p_ipHash l' = map p_ipHash l.
Proof.
  intros Hf. revert l'. induction l as [|p l IH]; intros l' H; [discriminate|].
  simpl in H. destruct (String.eqb (p_ipHash p) h).
  - inversion H. simpl. now rewrite Hf.
  - destruct (update_first h f l) as [l0|]; [|discriminate].
    inversion H. simpl. now rewrite (IH l0).
Qed.

Lemma update_first_none h f l :
  update_first h f l = None -> (h ∉ map p_ipHash l) /\ find_profile h l = None.
Proof.
  induction l as [|p l IH]; simpl; intros H.
  - split; [intros Hin; inversion Hin | reflexivity].
  - destruct (String.eqb (p_ipHash p) h) eqn:E; [discriminate|].
    destruct (update_first h f l); [discriminate|]. destruct (IH eq_refl) as [H1 H2].
    split; [|exact H2]. intros Hin. apply elem_of_cons in Hin as [->|Hin]; [|auto].
    now rewrite String.eqb_refl in E.
Qed.

(** The update reaches the profile that [find_profile] answers. *)
Lemma update_first_same h f l p :
  (forall x, p_ipHash (f x) = p_ipHash x) ->
  find_profile h l = Some p ->
  exists l', update_first h f l = Some l' /\ find_profile h l' = Some (f p).
Proof.
  intros Hf. unfold find_profile. induction l as [|x l IH]; [discriminate|].
  simpl. intros H. destruct (String.eqb (p_ipHash x) h) eqn:Ex.
  - inversion H; subst x. exists (f p :: l). split; [reflexivity|].
    simpl. now rewrite Hf, Ex.
  - destruct (IH H) as (l' & -> & Hfind). exists (x :: l'). split; [reflexivity|].
    simpl. now rewrite Ex.
Qed.

(** An update under another hash leaves it alone. *)
Lemma update_first_other h h' f l p l0 :
  (forall x, p_ipHash (f x) = p_ipHash x) ->
  h' ≠ h ->
  find_profile h l = Some p ->
  update_first h' f l = Some l0 -> find_profile h l0 = Some p.
Proof.
  intros Hf Hne. unfold find_profile. revert l0.
  induction l as [|x l IH]; intros l0; [discriminate|].
  simpl. intros H H0. destruct (String.eqb (p_ipHash x) h') eqn:Ex'.
  - inversion H0. simpl. rewrite Hf.
    destruct (String.eqb (p_ipHash x) h) eqn:Ex; [|exact H].
    apply String.eqb_eq in Ex, Ex'. congruence.
  - destruct (update_first h' f l) as [l1|]; [|discriminate].
    inversion H0. simpl.
    destruct (String.eqb (p_ipHash x) h); [exact H | now apply IH].
Qed.

Lemma find_profile_app h l p x :
  find_profile h l = Some p -> find_profile h (l ++ [x]) = Some p.
Proof.
  unfold find_profile. induction l as [|y l IH]; [discriminate|]. simpl.
  destruct (String.eqb (p_ipHash y) h); auto.
Qed.

End Profiles.

Section ProfileUpdates.

Import Store.

Lemma find_none_update h f l :
  find_profile h l = None -> update_first h f l = None.
Proof.
  unfold find_profile. induction l as [|x l IH]; [reflexivity|]. simpl.
  destruct (String.eqb (p_ipHash x) h); [discriminate|]. intros H. now rewrite (IH H).
Qed.

Lemma find_profile_new h l x :
  find_profile h l = None -> p_ipHash x = h -> find_profile h (l ++ [x]) = Some x.
Proof.
  unfold find_profile. intros H Hx. induction l as [|y l IH]; simpl in *.
  - now rewrite Hx, String.eqb_refl.
  - destruct (String.eqb (p_ipHash y) h); [discriminate | now apply IH].
Qed.

(** What an update under [h'] does to the profile of [h], when there is
    one. *)
Lemma update_profile_find h h' f fresh upsert D p :
  (forall x, p_ipHash (f x) = p_ipHash x) ->
  find_profile h (profiles D) = Some p ->
  find_profile h (profiles (update_profile h' f fresh upsert D)) =
    Some (if String.eqb h' h then f p else p).
Proof.
  intros Hf Hp. unfold update_profile.
  destruct (String.eqb h' h) eqn:E.
  - apply String.eqb_eq in E. subst h'.
    destruct (update_first_same h f _ p Hf Hp) as (l' & -> & Hl). exact Hl.
  - apply String.eqb_neq in E.
    destruct (update_first h' f (profiles D)) as [l0|] eqn:E0.
    + simpl. now apply (update_first_other h h' f (profiles D) p l0).
    + destruct upsert; [|exact Hp]. simpl. now apply find_profile_app.
Qed.

Lemma update_profile_distinct h f fresh upsert D :
  (forall x, p_ipHash (f x) = p_ipHash x) -> p_ipHash fresh = h ->
  profiles_distinct D -> profiles_distinct (update_profile h f fresh upsert D).
Proof.
  intros Hf Hfresh Hd. unfold update_profile, profiles_distinct in *.
  destruct (update_first h f (profiles D)) as [l|] eqn:E.
  - simpl. now rewrite (update_first_hashes h f _ l Hf E).
  - destruct upsert; [|exact Hd]. simpl. rewrite map_app. simpl.
    apply NoDup_app. repeat split; [exact Hd| |apply NoDup_singleton].
    intros x Hx Hx'. apply list_elem_of_singleton in Hx'. subst x.
    rewrite Hfresh in Hx. now apply (update_first_none h f) in E as [E _].
Qed.

End ProfileUpdates.

(** X15: the profile route and the connection handlers write different
    fields of one profile document. For the profile of a hash [h]: the
    presence update of a join or a close under the same hash sets [online]
    and [lastSeen] and keeps the display name; the upsert of the profile route
    sets the display name and [lastSeen] and keeps [online]; either of them
    under another hash leaves the profile as it is. When [h] has no profile,
    the update of a close (no upsert) creates none, and the upsert of a join
    creates one with the flag and no display name. *)
Theorem profile_fields_kept_apart (D : Store.database) (h h' : string) :
  (forall p, Store.find_profile h (Store.profiles D) = Some p ->
     (forall on t upsert,
        Store.find_profile h
          (Store.profiles (Store.apply_op (UpdateProfile h' on t upsert) D)) =
          Some (if String.eqb h' h
                then Store.ProfileDoc h (Store.p_displayName p) t (Some on)
                else p))
     /\ (forall name t,
           Store.find_profile h (Store.profiles (Store.upsert_name h' name t D)) =
             Some (if String.eqb h' h
                   then Store.ProfileDoc h (Some name) t (Store.p_online p)
                   else p)))
  /\ (Store.find_profile h (Store.profiles D) = None ->
      forall on t,
        Store.find_profile h
          (Store.profiles (Store.apply_op (UpdateProfile h on t false) D)) = None
        /\ Store.find_profile h
             (Store.profiles (Store.apply_op (UpdateProfile h on t true) D)) =
           Some (Store.ProfileDoc h None t (Some on))).
Proof.
  split.
  - intros p Hp.
    assert (Hh : Store.p_ipHash p = h).
    { unfold Store.find_profile in Hp. apply find_some in Hp as [_ Hp].
      now apply String.eqb_eq in Hp. }
    split.
    + intros on t upsert. simpl.
      rewrite (update_profile_find h h' _ _ _ D p) by (auto; reflexivity).
      unfold Store.set_presence. now rewrite Hh.
    + intros name t. unfold Store.upsert_name.
      rewrite (update_profile_find h h' _ _ _ D p) by (auto; reflexivity).
      unfold Store.set_name. now rewrite Hh.
  - intros Hn on t. simpl. unfold Store.update_profile.
    rewrite (find_none_update h _ _ Hn). simpl. split; [exact Hn|].
    now apply find_profile_new.
Qed.

Lemma profile_fields_kept_apart_witness :
  let D := Store.upsert_name "k" (VStr "Ann") 1 demo_db in
  Store.find_profile "k"
    (Store.profiles (Store.apply_op (UpdateProfile "k" true 2 true) D)) =
    Some (Store.ProfileDoc "k" (Some (VStr "Ann")) 2 (Some true)).
Proof.
  intros D.
  exact (proj1 (proj1 (profile_fields_kept_apart D "k" "k")
                  (Store.ProfileDoc "k" (Some (VStr "Ann")) 1 None) eq_refl)
           true 2%Z true).
Defined.

(** ** Invariants of the database along a run *)

Section DbInvariants.

Import Store Http.

Variables (P : platform) (Inv : database -> Prop).

Hypothesis Inv_insert : forall d D D', insert_room P d D = Some D' -> Inv D -> Inv D'.
Hypothesis Inv_name : forall h name t D, Inv D -> Inv (upsert_name h name t D).
Hypothesis Inv_op : forall op D, Inv D -> Inv (apply_op op D).
Hypothesis Inv_index :
  forall D, Inv D -> clash_free P (rooms D) = true ->
            Inv (Database (rooms D) (messages D) (profiles D) true).

Lemma perform_keeps D c salt :
  Inv D -> exists D', (perform P (Some D) c salt).1 = Some D' /\ Inv D'.
Proof.
  intros HI. destruct c; simpl; try (exists D; now split).
  - destruct (insert_room P d D) as [D'|] eqn:E; simpl; [|exists D; now split].
    exists D'. split; [reflexivity | now apply (Inv_insert d D)].
  - eexists. split; [reflexivity | now apply Inv_name].
Qed.

Lemma step_keeps s e D :
  db s = Some D -> Inv D -> exists D', db (step P s e).1 = Some D' /\ Inv D'.
Proof.
  intros HD HI. unfold step. destruct (halted s); [exists D; now split|].
  destruct e as [D0| | |rt req now|id now salt fault|op].
  - rewrite HD. exists D. now split.
  - rewrite HD. destruct (clash_free P (rooms D)) eqn:E; simpl.
    + eexists. split; [reflexivity | now apply Inv_index].
    + exists D. now split.
  - simpl. exists D. now split.
  - destruct (advance_frame (handler P rt req now)
                (State (db s) (pending s) (S (next s)) false) (next s) now) as (-> & _).
    simpl. exists D. now split.
  - destruct (pending s !! id) as [[r|c k]|]; try (exists D; now split).
    destruct fault.
    + destruct (advance_frame (k now None)
                  (State (db s) (delete id (pending s)) (next s) false) id now) as (-> & _).
      simpl. exists D. now split.
    + destruct (perform_keeps D c salt HI) as (D' & HD' & HI').
      rewrite HD. destruct (perform P (Some D) c salt) as [odb r]. simpl in HD'.
      destruct (advance_frame (k now r)
                  (State odb (delete id (pending s)) (next s) false) id now) as (-> & _).
      simpl. exists D'. now split.
  - simpl. rewrite HD. simpl. eexists. split; [reflexivity | now apply Inv_op].
Qed.

Lemma run_keeps evs : forall s D,
  db s = Some D -> Inv D -> exists D', db (run P s evs).1 = Some D' /\ Inv D'.
Proof.
  induction evs as [|e evs IH]; intros s D HD HI; [exists D; now split|].
  rewrite http_run_cons. cbn [fst].
  destruct (step_keeps s e D HD HI) as (D1 & H1 & I1). now apply (IH _ D1).
Qed.

End DbInvariants.

(** X16: there is never more than one profile for a hash. Every write to
    [profiles], by the profile route and by the join and close handlers, is
    an update of the profile of the hash or, for want of one, an upsert, so
    along any run of requests, settlements and WebSocket database calls the
    hashes of the stored profiles stay distinct. *)
Theorem one_profile_per_hash (P : Store.platform) (s : Http.state)
    (evs : list Http.event) (D : Store.database) :
  Http.db s = Some D -> profiles_distinct D ->
  exists D', Http.db (Http.run P s evs).1 = Some D' /\ profiles_distinct D'.
Proof.
  apply (run_keeps P profiles_distinct).
  - intros d D0 D' H HI. unfold Store.insert_room in H.
    destruct (_ && _); inversion H. exact HI.
  - intros h name t D0 HI. unfold Store.upsert_name.
    now apply update_profile_distinct.
  - intros [h on t upsert|room payload ts] D0 HI; simpl; [|exact HI].
    now apply update_profile_distinct.
  - intros D0 HI _. exact HI.
Qed.

Lemma one_profile_per_hash_witness :
  exists D',
    Http.db (Http.run demo_platform demo_state
               [Http.WsCall (UpdateProfile "k" true 1 true);
                Http.Arrives Http.Profile
                  (Http.Request (Some "k") None (VObj 1 [("displayName", VStr "Ann")]) VUndef) 2;
                Http.Settle 0 3 0 false;
                Http.WsCall (UpdateProfile "k" false 4 false)]).1 = Some D'
    /\ profiles_distinct D'.
Proof.
  apply (one_profile_per_hash demo_platform demo_state _ demo_db eq_refl).
  constructor.
Defined.

(** ** The [catch] of the routes *)

Section Containment.

Import Store Http.

Variable P : platform.

Lemma handler_contained rt req now : contained (handler P rt req now).
Proof.
  destruct rt; simpl.
  - unfold create_room. destruct (nullish _); [exact I|].
    destruct (_ || _); [exact I|].
    split; [reflexivity|]. intros _ [[d|]|]; simpl; try exact I.
    split; [reflexivity|]. intros now1 [h|]; simpl; try exact I.
    split; [reflexivity|]. intros _ [u|]; exact I.
  - unfold join_room. destruct (nullish _); [exact I|].
    destruct (_ || _); [exact I|].
    split; [reflexivity|]. intros _ [[d|]|]; simpl; try exact I.
    split; [reflexivity|]. intros _ [[|]|]; exact I.
  - unfold history. destruct (negb _); [exact I|].
    split; [reflexivity|]. intros _ [l|]; exact I.
  - unfold profile. destruct (nullish _); [exact I|].
    split; [reflexivity|]. intros _ [u|]; exact I.
  - exact I.
Qed.

Lemma advance_guarded p : forall s id now,
  contained p -> guarded s -> guarded (advance s id now p).1.
Proof.
  induction p as [r|c k IH]; intros s id now Hc Hg; simpl; [exact Hg|].
  destruct (uses_db c && negb (bool_decide (is_Some (db s)))).
  - apply IH; [apply Hc | exact Hg].
  - intros j q Hq. simpl in Hq. destruct (decide (j = id)) as [->|Hj].
    + rewrite lookup_insert_eq in Hq. inversion Hq; subst q.
      split; [exact Hc | now exists c, k].
    + rewrite lookup_insert_ne in Hq by auto. now apply (Hg j).
Qed.

Lemma delete_guarded s id odb n h :
  guarded s -> guarded (State odb (delete id (pending s)) n h).
Proof.
  intros Hg j q Hq. simpl in Hq. destruct (decide (j = id)) as [->|Hj].
  - now rewrite lookup_delete_eq in Hq.
  - rewrite lookup_delete_ne in Hq by auto. now apply (Hg j).
Qed.

Lemma step_guarded s e : guarded s -> guarded (step P s e).1.
Proof.
  intros Hg. unfold step. destruct (halted s); [exact Hg|].
  destruct e as [D0| | |rt req now|id now salt fault|op].
  - now destruct (db s).
  - destruct (db s) as [D|]; [|exact Hg]. now destruct (clash_free P (rooms D)).
  - exact Hg.
  - apply advance_guarded; [apply handler_contained | exact Hg].
  - destruct (pending s !! id) as [[r|c k]|] eqn:E; try exact Hg.
    destruct (Hg id _ E) as [Hc _]. destruct Hc as [_ Hk].
    destruct fault.
    + apply advance_guarded; [apply Hk | now apply delete_guarded].
    + destruct (perform P (db s) c salt) as [odb r].
      apply advance_guarded; [apply Hk | now apply delete_guarded].
  - exact Hg.
Qed.

Lemma run_guarded evs : forall s, guarded s -> guarded (run P s evs).1.
Proof.
  induction evs as [|e evs IH]; intros s Hg; [exact Hg|].
  rewrite http_run_cons. cbn [fst]. apply IH. now apply step_guarded.
Qed.

Lemma initial_guarded : guarded initial.
Proof. intros id p H. simpl in H. now rewrite lookup_empty in H. Qed.

End Containment.

(** X17: no failure of a call leaves a request unanswered or reaches
    past the route. Whatever requests, settlements and database calls came
    before, when the call a suspended request awaits, be it a database call
    or a bcrypt call of any stage of any route, rejects, the request is
    answered with status 500 and the error ["server"], it is suspended no
    longer, and the database is as it was. *)
Theorem failed_call_answered_500 (P : Store.platform) (evs : list Http.event)
    (id : nat) (now : Z) (salt : nat) :
  let s := (Http.run P Http.initial evs).1 in
  Http.halted s = false -> is_Some (Http.pending s !! id) ->
  Http.step P s (Http.Settle id now salt true) =
    (Http.State (Http.db s) (delete id (Http.pending s)) (Http.next s) false,
     [(id, Http.Response 500 (Http.Error "server"))]).
Proof.
  intros s Hh [p Hp].
  destruct (run_guarded P evs Http.initial initial_guarded id p Hp)
    as [Hc (c & k & ->)].
  destruct Hc as [Hk _].
  rewrite (settle_fault P s id now salt c k Hh Hp). now rewrite Hk.
Qed.

Lemma failed_call_answered_500_witness :
  Http.step demo_platform
    (Http.run demo_platform Http.initial
       [Http.Connected demo_db;
        Http.Arrives Http.JoinRoom (room_request "den" "pw") 1;
        Http.Settle 0 2 0 false]).1
    (Http.Settle 0 3 0 true) =
  (Http.State (Some demo_db) (delete 0 (Http.pending
     (Http.run demo_platform Http.initial
       [Http.Connected demo_db;
        Http.Arrives Http.JoinRoom (room_request "den" "pw") 1;
        Http.Settle 0 2 0 false]).1)) 1 false,
   [(0, Http.Response 500 (Http.Error "server"))]).
Proof.
  refine (failed_call_answered_500 demo_platform
            [Http.Connected demo_db;
             Http.Arrives Http.JoinRoom (room_request "den" "pw") 1;
             Http.Settle 0 2 0 false] 0 3%Z 0 _ _).
  - vm_compute. reflexivity.
  - vm_compute. eexists. reflexivity.
Defined.

(** X18: the server listens before [init] has assigned [db]. A request
    that arrives by then is answered in the same task and none is left
    suspended: the status route with 200, every other route with the 400 of
    its validation or, the call through [db] throwing into the [catch], with
    500 and the error ["server"]. *)
Theorem request_before_database (P : Store.platform) (s : Http.state)
    (rt : Http.route) (req : Http.request) (now : Z) :
  Http.db s = None -> Http.halted s = false ->
  exists r,
    Http.step P s (Http.Arrives rt req now) =
      (Http.State None (Http.pending s) (S (Http.next s)) false,
       [(Http.next s, r)])
    /\ (rt = Http.Status -> r = Http.Response 200 Http.Ok)
    /\ (rt <> Http.Status ->
        (Http.status r = 400 /\ rt <> Http.Profile)
        \/ r = Http.Response 500 (Http.Error "server")).
Proof.
  intros Hd Hh. unfold Http.step. rewrite Hh, Hd.
  destruct rt; simpl.
  - unfold Http.create_room. destruct (nullish _); simpl;
      [eexists; split; [reflexivity|]; split; [discriminate | now right]|].
    destruct (_ || _); simpl;
      (eexists; split; [reflexivity|]; split; [discriminate|]);
      [now left | now right].
  - unfold Http.join_room. destruct (nullish _); simpl;
      [eexists; split; [reflexivity|]; split; [discriminate | now right]|].
    destruct (_ || _); simpl;
      (eexists; split; [reflexivity|]; split; [discriminate|]);
      [now left | now right].
  - unfold Http.history. destruct (negb _); simpl;
      (eexists; split; [reflexivity|]; split; [discriminate|]);
      [now left | now right].
  - unfold Http.profile. destruct (nullish _); simpl;
      (eexists; split; [reflexivity|]; split; [discriminate | now right]).
  - eexists. split; [reflexivity|]. split; [reflexivity | congruence].
Qed.

Lemma request_before_database_witness :
  exists r,
    Http.step demo_platform Http.initial
      (Http.Arrives Http.JoinRoom (room_request "den" "pw") 1) =
      (Http.State None ∅ 1 false, [(0, r)])
    /\ (Http.JoinRoom = Http.Status -> r = Http.Response 200 Http.Ok)
    /\ (Http.JoinRoom <> Http.Status ->
        (Http.status r = 400 /\ Http.JoinRoom <> Http.Profile)
        \/ r = Http.Response 500 (Http.Error "server")).
Proof.
  exact (request_before_database demo_platform Http.initial Http.JoinRoom
           (room_request "den" "pw") 1%Z eq_refl eq_refl).
Defined.
